(** * Marlo trajectory capture: a shallow embedding of
      trajectory.ts, event-listener.ts, client.ts, constants.ts,
      config.ts, capture-hooks.ts, index.ts and learnings.ts

    The TypeScript modules keep their state in module-level variables
    (arrays, Maps, a counter, timer handles).  The embedding threads one
    [World] value through every function: it holds the state of each
    module, the part of the Node runtime the code talks to (clock, timer
    table, random UUID source) and the calls made to the remote client.
    Timers are kept in an explicit timer table; a timer callback is a
    constructor of [Callback] that [runCallback] interprets.  The async
    [flushBuffer] is split at its [await]: [flushBuffer] is the part that
    runs to the call of [client.ingestEvents], [flushBuffer_resume] the part
    that runs when that call settles.

    Numbers are integers ([Z]); [String(n)] of an integer is stdpp's
    [pretty n].  event-listener.ts is modelled in its current form (the one
    with the debounce maps).  config.ts, capture-hooks.ts, index.ts and the
    cache of learnings.ts are modelled over the same [World]; what they
    take from outside the modules (the environment, [isTruthyEnvValue],
    [trim], [toLowerCase]) is a [Platform] value.  Not modelled: the HTTP
    side of the client, learnings-sync.ts, the formatting of learnings for
    the prompt, [getMarloStatus] and the onboarding wizard.  [log.debug] and
    [log.info] lines are left out: they do not touch any module state.
    [log.warn] lines are kept in [warnings]. *)

From Stdlib Require Import ZArith Lia QArith.
From stdpp Require Import gmap strings list pretty.

Local Open Scope string_scope.
Local Open Scope Z_scope.

(** ** JavaScript values *)

(** What a field declared [unknown] or a JSON payload can hold.  Numbers are
    the integers the code works with (counters, millisecond clocks and
    token counts). *)
Unset Elimination Schemes.
Inductive JSValue : Type :=
| JUndefined
| JNull
| JBool (b : bool)
| JNum (n : Z)
| JStr (s : string)
| JArr (items : list JSValue)
| JObj (fields : list (string * JSValue)).
Set Elimination Schemes.

(** [a ?? b] *)
Definition nullish (v : JSValue) : bool :=
  match v with
  | JUndefined | JNull => true
  | _ => false
  end.

Definition coalesce (a b : JSValue) : JSValue := if nullish a then b else a.

(** [typeof v === "number"] with an integral value. *)
Definition isInteger (v : JSValue) : bool :=
  match v with
  | JNum _ => true
  | _ => false
  end.

(** Truthiness of a [string | undefined]. *)
Definition truthyStr (s : option string) : bool :=
  match s with
  | Some (String _ _) => true
  | _ => false
  end.

(** Truthiness of a [number | undefined]. *)
Definition truthyNum (n : option Z) : bool :=
  match n with
  | Some n => negb (n =? 0)
  | None => false
  end.

Definition optStr (s : option string) : JSValue :=
  match s with
  | Some s => JStr s
  | None => JUndefined
  end.

Definition optNum (n : option Z) : JSValue :=
  match n with
  | Some n => JNum n
  | None => JUndefined
  end.

Definition optObj (o : option (list (string * JSValue))) : JSValue :=
  match o with
  | Some fs => JObj fs
  | None => JUndefined
  end.

(** [s.startsWith(search)] *)
Fixpoint startsWith (s search : string) : bool :=
  match search with
  | EmptyString => true
  | String c search' =>
      match s with
      | EmptyString => false
      | String d s' => if Ascii.eqb c d then startsWith s' search' else false
      end
  end.

(** Property lookup [o.k] on an object literal. *)
Fixpoint getField (k : string) (fs : list (string * JSValue)) : JSValue :=
  match fs with
  | [] => JUndefined
  | (k', v) :: fs' => if String.eqb k k' then v else getField k fs'
  end.

(** Assignment [o.k = v]: an existing key keeps its position. *)
Fixpoint setField (k : string) (v : JSValue) (fs : list (string * JSValue))
  : list (string * JSValue) :=
  match fs with
  | [] => [(k, v)]
  | (k', v') :: fs' =>
      if String.eqb k k' then (k, v) :: fs' else (k', v') :: setField k v fs'
  end.

(** Object spread [{ ...base, ...extra }]. *)
Definition spread (base extra : list (string * JSValue)) : list (string * JSValue) :=
  fold_left (fun acc kv => setField (fst kv) (snd kv) acc) extra base.

(** ** types.ts *)

Inductive TrajectoryEventType : Type :=
| task_start
| task_end
| llm_call
| tool_call
| agent_definition
| log.

Definition TrajectoryEventType_eqb (a b : TrajectoryEventType) : bool :=
  match a, b with
  | task_start, task_start
  | task_end, task_end
  | llm_call, llm_call
  | tool_call, tool_call
  | agent_definition, agent_definition
  | log, log => true
  | _, _ => false
  end.

(** [TrajectoryEvent].  The interface declares [run_id] and [task_id] as
    numbers; the fields hold whatever value [createEvent] stores in them,
    so they are [JSValue]s here. *)
Record TrajectoryEvent : Type := mkEvent {
  event_id : string;
  run_id : JSValue;
  agent_id : string;
  parent_agent_id : JSValue;
  invocation_id : string;
  task_id : JSValue;
  event_type : TrajectoryEventType;
  payload : list (string * JSValue);
  created_at : string;
}.

Inductive TaskStatus : Type := success | error | cancelled.

Definition statusName (s : TaskStatus) : string :=
  match s with
  | success => "success"
  | error => "error"
  | cancelled => "cancelled"
  end.

(** ** constants.ts *)

Record BufferSettings : Type := {
  maxSize : nat;
  flushIntervalMs : Z;
  maxRetries : nat;
  retryDelayMs : Z;
}.

Definition BUFFER_SETTINGS : BufferSettings :=
  {| maxSize := 100; flushIntervalMs := 5000; maxRetries := 3; retryDelayMs := 1000 |}.

Definition MOLTBOT_AGENT_ID : string := "moltbot".

(** event-listener.ts *)
Definition LLM_DEBOUNCE_MS : Z := 100.

(** ** Module state *)

(** trajectory.ts: [ActiveTrajectory] *)
Record ActiveTrajectory : Type := mkTrajectory {
  runId : string;
  sessionKey : string;
  taskId : string;
  agentId : string;
  startedAt : Z;
  events : list TrajectoryEvent;
}.

(** The closures handed to [setTimeout] by trajectory.ts and
    event-listener.ts: the flush timer of [bufferEvent] and the per-session
    debounce timer of [handleAssistantEvent].  The timer table [timers] of
    the host holds the timers of these two modules only.  The abort timer
    that the private [fetch] of client.ts arms for each request and clears
    when the request has settled belongs to the HTTP side of the client,
    which is not modelled: it is not in the table, and nothing below
    speaks about it. *)
Inductive Callback : Type :=
| CbFlushBuffer
| CbLLMDebounce (sessionKey : string).

Record Timer : Type := mkTimer {
  due : Z;
  callback : Callback;
}.

(** client.ts: [MarloClient] (its fields only; [ingestEvents] is the
    transport, see [ingestCalls]). *)
Record MarloClient : Type := mkClient {
  apiUrl : string;
  apiKey : string;
  timeoutMs : Z;
}.

(** The host: the two sources of values the code does not compute itself
    (the [n]-th result of [randomUUID()], and the rendering of a clock value
    by [new Date(t).toISOString()]), the clock, the timer table, the number
    of [randomUUID()] calls so far, the batches handed to
    [client.ingestEvents] in call order, and the warnings logged. *)
Record Host : Type := mkHost {
  randomUUID : nat -> string;
  toISOString : Z -> string;
  now : Z;
  nextHandle : nat;
  timers : gmap nat Timer;
  uuidCalls : nat;
  ingestCalls : list (list TrajectoryEvent);
  warnings : list string;
}.

(** Module variables of trajectory.ts. *)
Record TrajectoryState : Type := mkTrajectoryState {
  eventBuffer : list TrajectoryEvent;
  flushTimer : option nat;
  activeTrajectories : gmap string ActiveTrajectory;
  runIdCounter : Z;
}.

Record PendingLLM : Type := mkPending {
  pendingText : string;
  pendingModel : option string;
  pendingProvider : option string;
}.

(** Module variables of event-listener.ts. *)
Record ListenerState : Type := mkListenerState {
  toolStartTimes : gmap string Z;
  toolInputsById : gmap string JSValue;
  runIdToSession : gmap string string;
  lastLLMTextBySession : gmap string string;
  llmDebounceTimers : gmap string nat;
  llmPendingData : gmap string PendingLLM;
  unsubscribe : bool;
}.

Record World : Type := mkWorld {
  host : Host;
  clientInstance : option MarloClient;
  traj : TrajectoryState;
  lsn : ListenerState;
}.

(** *** Field updates *)

Definition updHost (f : Host -> Host) (w : World) : World :=
  mkWorld (f (host w)) (clientInstance w) (traj w) (lsn w).
Definition setClient (c : option MarloClient) (w : World) : World :=
  mkWorld (host w) c (traj w) (lsn w).
Definition updTraj (f : TrajectoryState -> TrajectoryState) (w : World) : World :=
  mkWorld (host w) (clientInstance w) (f (traj w)) (lsn w).
Definition updLsn (f : ListenerState -> ListenerState) (w : World) : World :=
  mkWorld (host w) (clientInstance w) (traj w) (f (lsn w)).

Definition setNow (t : Z) (h : Host) : Host :=
  mkHost (randomUUID h) (toISOString h)
    t (nextHandle h) (timers h) (uuidCalls h) (ingestCalls h) (warnings h).
Definition setNextHandle (n : nat) (h : Host) : Host :=
  mkHost (randomUUID h) (toISOString h)
    (now h) n (timers h) (uuidCalls h) (ingestCalls h) (warnings h).
Definition setTimers (ts : gmap nat Timer) (h : Host) : Host :=
  mkHost (randomUUID h) (toISOString h)
    (now h) (nextHandle h) ts (uuidCalls h) (ingestCalls h) (warnings h).
Definition setUuidCalls (n : nat) (h : Host) : Host :=
  mkHost (randomUUID h) (toISOString h)
    (now h) (nextHandle h) (timers h) n (ingestCalls h) (warnings h).
Definition setIngestCalls (cs : list (list TrajectoryEvent)) (h : Host) : Host :=
  mkHost (randomUUID h) (toISOString h)
    (now h) (nextHandle h) (timers h) (uuidCalls h) cs (warnings h).
Definition setWarnings (ws : list string) (h : Host) : Host :=
  mkHost (randomUUID h) (toISOString h)
    (now h) (nextHandle h) (timers h) (uuidCalls h) (ingestCalls h) ws.

Definition setEventBuffer (b : list TrajectoryEvent) (s : TrajectoryState) : TrajectoryState :=
  mkTrajectoryState b (flushTimer s) (activeTrajectories s) (runIdCounter s).
Definition setFlushTimer (t : option nat) (s : TrajectoryState) : TrajectoryState :=
  mkTrajectoryState (eventBuffer s) t (activeTrajectories s) (runIdCounter s).
Definition setActiveTrajectories (m : gmap string ActiveTrajectory) (s : TrajectoryState)
  : TrajectoryState :=
  mkTrajectoryState (eventBuffer s) (flushTimer s) m (runIdCounter s).
Definition setRunIdCounter (c : Z) (s : TrajectoryState) : TrajectoryState :=
  mkTrajectoryState (eventBuffer s) (flushTimer s) (activeTrajectories s) c.

Definition setToolStartTimes (m : gmap string Z) (s : ListenerState) : ListenerState :=
  mkListenerState m (toolInputsById s) (runIdToSession s) (lastLLMTextBySession s)
    (llmDebounceTimers s) (llmPendingData s) (unsubscribe s).
Definition setToolInputsById (m : gmap string JSValue) (s : ListenerState) : ListenerState :=
  mkListenerState (toolStartTimes s) m (runIdToSession s) (lastLLMTextBySession s)
    (llmDebounceTimers s) (llmPendingData s) (unsubscribe s).
Definition setRunIdToSession (m : gmap string string) (s : ListenerState) : ListenerState :=
  mkListenerState (toolStartTimes s) (toolInputsById s) m (lastLLMTextBySession s)
    (llmDebounceTimers s) (llmPendingData s) (unsubscribe s).
Definition setLastLLMTextBySession (m : gmap string string) (s : ListenerState)
  : ListenerState :=
  mkListenerState (toolStartTimes s) (toolInputsById s) (runIdToSession s) m
    (llmDebounceTimers s) (llmPendingData s) (unsubscribe s).
Definition setLlmDebounceTimers (m : gmap string nat) (s : ListenerState) : ListenerState :=
  mkListenerState (toolStartTimes s) (toolInputsById s) (runIdToSession s)
    (lastLLMTextBySession s) m (llmPendingData s) (unsubscribe s).
Definition setLlmPendingData (m : gmap string PendingLLM) (s : ListenerState)
  : ListenerState :=
  mkListenerState (toolStartTimes s) (toolInputsById s) (runIdToSession s)
    (lastLLMTextBySession s) (llmDebounceTimers s) m (unsubscribe s).
Definition setUnsubscribe (b : bool) (s : ListenerState) : ListenerState :=
  mkListenerState (toolStartTimes s) (toolInputsById s) (runIdToSession s)
    (lastLLMTextBySession s) (llmDebounceTimers s) (llmPendingData s) b.

(** ** Parameters of the exported functions *)

Record StartParams : Type := mkStartParams {
  sp_sessionKey : string;
  sp_task : string;
  sp_channel : option string;
  sp_agentId : option string;
  sp_metadata : option (list (string * JSValue));
}.

Record EndParams : Type := mkEndParams {
  ep_sessionKey : string;
  ep_status : TaskStatus;
  ep_finalAnswer : option string;
  ep_error : option string;
  ep_metadata : option (list (string * JSValue));
}.

Record Usage : Type := mkUsage {
  inputTokens : option Z;
  outputTokens : option Z;
  reasoningTokens : option Z;
}.

Record LLMCallParams : Type := mkLLMCallParams {
  lp_sessionKey : string;
  lp_messages : list (string * string);
  lp_model : option string;
  lp_provider : option string;
  lp_response : option (list (string * JSValue));
  lp_usage : option Usage;
  lp_reasoning : option (list (string * JSValue));
  lp_error : option string;
}.

Record ToolCallParams : Type := mkToolCallParams {
  tp_sessionKey : string;
  tp_toolName : string;
  tp_toolInput : JSValue;
  tp_toolOutput : JSValue;
  tp_error : option string;
  tp_durationMs : option Z;
}.

Record AgentDefinitionParams : Type := mkAgentDefinitionParams {
  ap_sessionKey : string;
  ap_agentId : string;
  ap_name : option string;
  ap_description : option string;
  ap_tools : option (list string);
  ap_systemPrompt : option string;
  ap_parentAgentId : option string;
}.

(** The [data] record of an agent event, read through the casts the
    handlers apply ([data.phase as string], [data.text as string |
    undefined], ...); the fields read as [unknown] stay [JSValue]s. *)
Record UsageData : Type := mkUsageData {
  ud_inputTokens : option Z;
  ud_outputTokens : option Z;
}.

Record EventData : Type := mkEventData {
  d_phase : option string;
  d_name : option string;
  d_toolCallId : option string;
  d_args : JSValue;
  d_result : JSValue;
  d_error : JSValue;
  d_isError : JSValue;
  d_text : option string;
  d_thinking : option string;
  d_model : option string;
  d_provider : option string;
  d_usage : option UsageData;
}.

Record AgentEventPayload : Type := mkAgentEvent {
  ev_runId : string;
  ev_stream : string;
  ev_data : EventData;
  ev_sessionKey : option string;
}.

(** What awaiting [client.ingestEvents] yields. *)
Inductive IngestOutcome : Type :=
| IngestOk
| IngestThrew (err : string).

(** How far a call of the async [flushBuffer] got before returning its
    promise to the caller. *)
Inductive FlushProgress : Type :=
| FlushReturned
| FlushAwaiting (batch : list TrajectoryEvent).

(** How a promise settles. *)
Inductive Settled : Type :=
| Fulfilled
| Rejected (err : string).

(** ** The host *)

Definition setTimeout (cb : Callback) (delay : Z) (w : World) : nat * World :=
  let h := nextHandle (host w) in
  (h, updHost (fun r => setNextHandle (S h)
                 (setTimers (<[h := mkTimer (now r + delay) cb]> (timers r)) r)) w).

Definition clearTimeout (h : nat) (w : World) : World :=
  updHost (fun r => setTimers (delete h (timers r)) r) w.

Definition nextUUID (w : World) : string * World :=
  (randomUUID (host w) (uuidCalls (host w)),
   updHost (fun r => setUuidCalls (S (uuidCalls r)) r) w).

(** ** client.ts *)

Definition initMarloClient (c : MarloClient) (w : World) : World :=
  setClient (Some c) w.

Definition getMarloClient (w : World) : option MarloClient := clientInstance w.

Definition shutdownMarloClient (w : World) : World := setClient None w.

(** [client.ingestEvents(events)] up to the point where the request has
    been issued: the batch is recorded as handed to the transport.  The
    request itself (URL, headers, the abort timer of [fetch], the response)
    is the HTTP side and is left out. *)
Definition ingestEvents (batch : list TrajectoryEvent) (w : World) : World :=
  updHost (fun r => setIngestCalls (ingestCalls r ++ [batch]) r) w.

(** ** trajectory.ts *)

Definition generateRunId (w : World) : Z * World :=
  let c := runIdCounter (traj w) in
  (c, updTraj (setRunIdCounter (c + 1)) w).

Definition generateTaskId (w : World) : string * World := nextUUID w.

Definition generateEventId (w : World) : string * World := nextUUID w.

Definition createEvent (trajectory : ActiveTrajectory) (eventType : TrajectoryEventType)
    (payload : list (string * JSValue)) (w : World) : TrajectoryEvent * World :=
  let '(eid, w) := generateEventId w in
  ({| event_id := eid;
      run_id := JStr (runId trajectory);
      agent_id := agentId trajectory;
      parent_agent_id := JNull;
      invocation_id := runId trajectory +:+ "-" +:+ taskId trajectory;
      task_id := JStr (taskId trajectory);
      event_type := eventType;
      payload := payload;
      created_at := toISOString (host w) (now (host w)) |}, w).

(** The synchronous part of [flushBuffer]: everything up to the [await]. *)
Definition flushBuffer (w : World) : World * FlushProgress :=
  let w :=
    match flushTimer (traj w) with
    | Some h => updTraj (setFlushTimer None) (clearTimeout h w)
    | None => w
    end in
  match eventBuffer (traj w) with
  | [] => (w, FlushReturned)
  | _ :: _ =>
      let events := eventBuffer (traj w) in
      let w := updTraj (setEventBuffer []) w in
      match getMarloClient w with
      | None => (w, FlushReturned)
      | Some _ => (ingestEvents events w, FlushAwaiting events)
      end
  end.

(** The rest of [flushBuffer], run when the awaited call settles: the
    [catch] block logs a warning. *)
Definition flushBuffer_resume (r : IngestOutcome) (w : World) : World * Settled :=
  match r with
  | IngestOk => (w, Fulfilled)
  | IngestThrew err =>
      (updHost (fun h => setWarnings
                  (warnings h ++ ["Failed to flush events to Marlo: " +:+ err]) h) w,
       Fulfilled)
  end.

Definition bufferEvent (event : TrajectoryEvent) (w : World) : World :=
  let w := updTraj (fun s => setEventBuffer (eventBuffer s ++ [event]) s) w in
  let w :=
    match flushTimer (traj w) with
    | Some _ => w
    | None =>
        let '(h, w) := setTimeout CbFlushBuffer (flushIntervalMs BUFFER_SETTINGS) w in
        updTraj (setFlushTimer (Some h)) w
    end in
  if (maxSize BUFFER_SETTINGS <=? length (eventBuffer (traj w)))%nat
  then fst (flushBuffer w)
  else w.

Definition startTrajectory (params : StartParams) (w : World) : ActiveTrajectory * World :=
  let '(rid, w) := generateRunId w in
  let '(tid, w) := generateTaskId w in
  let aid := default MOLTBOT_AGENT_ID (sp_agentId params) in
  let trajectory :=
    {| runId := pretty rid;
       sessionKey := sp_sessionKey params;
       taskId := tid;
       agentId := aid;
       startedAt := now (host w);
       events := [] |} in
  let w := updTraj (fun s => setActiveTrajectories
                      (<[sp_sessionKey params := trajectory]> (activeTrajectories s)) s) w in
  let '(event, w) :=
    createEvent trajectory task_start
      [("task", JStr (sp_task params));
       ("metadata", JObj (spread [("channel", optStr (sp_channel params))]
                            (default [] (sp_metadata params))))] w in
  (trajectory, bufferEvent event w).

Definition endTrajectory (params : EndParams) (w : World) : World :=
  match activeTrajectories (traj w) !! ep_sessionKey params with
  | None => w
  | Some trajectory =>
      let '(event, w) :=
        createEvent trajectory task_end
          [("status", JStr (statusName (ep_status params)));
           ("final_answer", optStr (ep_finalAnswer params));
           ("error", optStr (ep_error params));
           ("metadata", optObj (ep_metadata params))] w in
      let w := bufferEvent event w in
      let w := updTraj (fun s => setActiveTrajectories
                          (delete (ep_sessionKey params) (activeTrajectories s)) s) w in
      fst (flushBuffer w)
  end.

Definition usagePayload (u : option Usage) : JSValue :=
  match u with
  | None => JUndefined
  | Some u =>
      JObj [("input_tokens", optNum (inputTokens u));
            ("output_tokens", optNum (outputTokens u));
            ("reasoning_tokens", optNum (reasoningTokens u));
            ("total_tokens",
             JNum (default 0 (inputTokens u) + default 0 (outputTokens u)
                   + default 0 (reasoningTokens u)))]
  end.

Definition messagePayload (m : string * string) : JSValue :=
  JObj [("role", JStr (fst m)); ("content", JStr (snd m))].

Definition logLLMCall (params : LLMCallParams) (w : World) : World :=
  match activeTrajectories (traj w) !! lp_sessionKey params with
  | None => w
  | Some trajectory =>
      let '(event, w) :=
        createEvent trajectory llm_call
          [("messages", JArr (map messagePayload (lp_messages params)));
           ("model_params", JObj [("model", optStr (lp_model params));
                                  ("provider", optStr (lp_provider params))]);
           ("response", optObj (lp_response params));
           ("usage", usagePayload (lp_usage params));
           ("reasoning", optObj (lp_reasoning params));
           ("error", optStr (lp_error params))] w in
      bufferEvent event w
  end.

Definition logToolCall (params : ToolCallParams) (w : World) : World :=
  match activeTrajectories (traj w) !! tp_sessionKey params with
  | None => w
  | Some trajectory =>
      let '(event, w) :=
        createEvent trajectory tool_call
          [("tool_name", JStr (tp_toolName params));
           ("tool_input", tp_toolInput params);
           ("tool_output", tp_toolOutput params);
           ("error", optStr (tp_error params));
           ("duration_ms", optNum (tp_durationMs params))] w in
      bufferEvent event w
  end.

Definition logAgentDefinition (params : AgentDefinitionParams) (w : World) : World :=
  match activeTrajectories (traj w) !! ap_sessionKey params with
  | None => w
  | Some trajectory =>
      let '(event, w) :=
        createEvent trajectory agent_definition
          [("agent_id", JStr (ap_agentId params));
           ("name", optStr (ap_name params));
           ("description", optStr (ap_description params));
           ("tools", match ap_tools params with
                     | Some ts => JArr (map JStr ts)
                     | None => JUndefined
                     end);
           ("system_prompt", optStr (ap_systemPrompt params));
           ("parent_agent_id", optStr (ap_parentAgentId params))] w in
      bufferEvent event w
  end.

Definition getActiveTrajectory (sessionKey : string) (w : World) : option ActiveTrajectory :=
  activeTrajectories (traj w) !! sessionKey.

Definition hasActiveTrajectory (sessionKey : string) (w : World) : bool :=
  match activeTrajectories (traj w) !! sessionKey with
  | Some _ => true
  | None => false
  end.

(** ** event-listener.ts *)

(** [data.phase === s] *)
Definition phaseIs (p : option string) (s : string) : bool :=
  match p with
  | Some p => String.eqb p s
  | None => false
  end.

(** [typeof v === "string"] *)
Definition asString (v : JSValue) : option string :=
  match v with
  | JStr s => Some s
  | _ => None
  end.

(** [v === true] *)
Definition isTrue (v : JSValue) : bool :=
  match v with
  | JBool true => true
  | _ => false
  end.

Definition handleToolEvent (sessionKey : string) (data : EventData) (w : World) : World :=
  match d_name data with
  | Some (String _ _ as toolName) =>
      if phaseIs (d_phase data) "start" then
        match d_toolCallId data with
        | Some (String _ _ as toolCallId) =>
            let w := updLsn (fun s => setToolStartTimes
                               (<[toolCallId := now (host w)]> (toolStartTimes s)) s) w in
            updLsn (fun s => setToolInputsById
                      (<[toolCallId := coalesce (d_args data) (JObj [])]>
                         (toolInputsById s)) s) w
        | _ => w
        end
      else if phaseIs (d_phase data) "result" || phaseIs (d_phase data) "end"
              || phaseIs (d_phase data) "error" then
        let idOk := truthyStr (d_toolCallId data) in
        let toolCallId := default "" (d_toolCallId data) in
        let '(durationMs, w) :=
          match (if idOk then toolStartTimes (lsn w) !! toolCallId else None) with
          | Some t0 =>
              (Some (now (host w) - t0),
               updLsn (fun s => setToolStartTimes (delete toolCallId (toolStartTimes s)) s) w)
          | None => (None, w)
          end in
        let toolInput :=
          if idOk
          then coalesce (coalesce (default JUndefined (toolInputsById (lsn w) !! toolCallId))
                           (d_args data)) (JObj [])
          else coalesce (d_args data) (JObj []) in
        let w :=
          if idOk
          then updLsn (fun s => setToolInputsById (delete toolCallId (toolInputsById s)) s) w
          else w in
        let isError := phaseIs (d_phase data) "error" || isTrue (d_isError data) in
        logToolCall
          {| tp_sessionKey := sessionKey;
             tp_toolName := toolName;
             tp_toolInput := toolInput;
             tp_toolOutput := if isError then JUndefined else d_result data;
             tp_error :=
               if isError
               then Some (match asString (d_error data) with
                          | Some e => e
                          | None => default "Unknown error" (asString (d_result data))
                          end)
               else None;
             tp_durationMs := durationMs |} w
      else w
  | _ => w
  end.

(** The body of the debounce timer set by [handleAssistantEvent]. *)
Definition llmDebounceFired (sessionKey : string) (w : World) : World :=
  let w :=
    match llmPendingData (lsn w) !! sessionKey with
    | Some pending =>
        let w := logLLMCall
          {| lp_sessionKey := sessionKey;
             lp_messages := [];
             lp_model := pendingModel pending;
             lp_provider := pendingProvider pending;
             lp_response := Some [("text", JStr (pendingText pending))];
             lp_usage := None;
             lp_reasoning := None;
             lp_error := None |} w in
        updLsn (fun s => setLlmPendingData (delete sessionKey (llmPendingData s)) s) w
    | None => w
    end in
  updLsn (fun s => setLlmDebounceTimers (delete sessionKey (llmDebounceTimers s)) s) w.

Definition usageReported (u : option UsageData) : bool :=
  match u with
  | Some u => truthyNum (ud_inputTokens u) || truthyNum (ud_outputTokens u)
  | None => false
  end.

Definition handleAssistantEvent (sessionKey : string) (data : EventData) (w : World) : World :=
  if usageReported (d_usage data) then
    logLLMCall
      {| lp_sessionKey := sessionKey;
         lp_messages := [];
         lp_model := d_model data;
         lp_provider := d_provider data;
         lp_response := None;
         lp_usage := Some {| inputTokens := d_usage data ≫= ud_inputTokens;
                             outputTokens := d_usage data ≫= ud_outputTokens;
                             reasoningTokens := None |};
         lp_reasoning := None;
         lp_error := None |} w
  else if negb (truthyStr (d_text data)) && negb (truthyStr (d_thinking data)) then w
  else if truthyStr (d_thinking data) && negb (truthyStr (d_text data)) then
    logLLMCall
      {| lp_sessionKey := sessionKey;
         lp_messages := [];
         lp_model := d_model data;
         lp_provider := d_provider data;
         lp_response := None;
         lp_usage := None;
         lp_reasoning := Some [("thinking", optStr (d_thinking data))];
         lp_error := None |} w
  else
    match d_text data with
    | Some (String _ _ as text) =>
        let lastText := default "" (lastLLMTextBySession (lsn w) !! sessionKey) in
        if startsWith lastText text then w
        else
          let w := updLsn (fun s => setLlmPendingData
                             (<[sessionKey := mkPending text (d_model data) (d_provider data)]>
                                (llmPendingData s)) s) w in
          let w := updLsn (fun s => setLastLLMTextBySession
                             (<[sessionKey := text]> (lastLLMTextBySession s)) s) w in
          let w :=
            match llmDebounceTimers (lsn w) !! sessionKey with
            | Some existingTimer => clearTimeout existingTimer w
            | None => w
            end in
          let '(timer, w) := setTimeout (CbLLMDebounce sessionKey) LLM_DEBOUNCE_MS w in
          updLsn (fun s => setLlmDebounceTimers
                    (<[sessionKey := timer]> (llmDebounceTimers s)) s) w
    | _ => w
    end.

Definition handleLifecycleEvent (runId sessionKey : string) (data : EventData) (w : World)
  : World :=
  if phaseIs (d_phase data) "end"
  then updLsn (fun s => setRunIdToSession (delete runId (runIdToSession s)) s) w
  else w.

Definition handleAgentEvent (event : AgentEventPayload) (w : World) : World :=
  match getMarloClient w with
  | None => w
  | Some _ =>
      let w :=
        match ev_sessionKey event with
        | Some (String _ _ as sk) =>
            updLsn (fun s => setRunIdToSession
                      (<[ev_runId event := sk]> (runIdToSession s)) s) w
        | _ => w
        end in
      let resolvedSessionKey :=
        match ev_sessionKey event with
        | Some sk => Some sk
        | None => runIdToSession (lsn w) !! ev_runId event
        end in
      match resolvedSessionKey with
      | Some (String _ _ as resolved) =>
          if negb (hasActiveTrajectory resolved w) then w
          else if String.eqb (ev_stream event) "tool"
          then handleToolEvent resolved (ev_data event) w
          else if String.eqb (ev_stream event) "assistant"
          then handleAssistantEvent resolved (ev_data event) w
          else if String.eqb (ev_stream event) "lifecycle"
          then handleLifecycleEvent (ev_runId event) resolved (ev_data event) w
          else w
      | _ => w
      end
  end.

(** [unsubscribe] holds whether the module is subscribed with
    [onAgentEvent(handleAgentEvent)]. *)
Definition startEventListener (w : World) : World :=
  if unsubscribe (lsn w) then w else updLsn (setUnsubscribe true) w.

Definition stopEventListener (w : World) : World :=
  if unsubscribe (lsn w) then
    let w := updLsn (setUnsubscribe false) w in
    let w := updLsn (setToolStartTimes ∅) w in
    let w := updLsn (setToolInputsById ∅) w in
    let w := updLsn (setRunIdToSession ∅) w in
    let w := updLsn (setLastLLMTextBySession ∅) w in
    let w := map_fold (fun _ timer w => clearTimeout timer w) w (llmDebounceTimers (lsn w)) in
    let w := updLsn (setLlmDebounceTimers ∅) w in
    updLsn (setLlmPendingData ∅) w
  else w.

Definition flushPendingLLMEvents (sessionKey : string) (w : World) : World :=
  let w :=
    match llmDebounceTimers (lsn w) !! sessionKey with
    | Some timer =>
        updLsn (fun s => setLlmDebounceTimers (delete sessionKey (llmDebounceTimers s)) s)
          (clearTimeout timer w)
    | None => w
    end in
  let w :=
    match llmPendingData (lsn w) !! sessionKey with
    | Some pending =>
        let w := logLLMCall
          {| lp_sessionKey := sessionKey;
             lp_messages := [];
             lp_model := pendingModel pending;
             lp_provider := pendingProvider pending;
             lp_response := Some [("text", JStr (pendingText pending))];
             lp_usage := None;
             lp_reasoning := None;
             lp_error := None |} w in
        updLsn (fun s => setLlmPendingData (delete sessionKey (llmPendingData s)) s) w
    | None => w
    end in
  updLsn (fun s => setLastLLMTextBySession (delete sessionKey (lastLLMTextBySession s)) s) w.

(** ** The event loop *)

Definition runCallback (cb : Callback) (w : World) : World :=
  match cb with
  | CbFlushBuffer => fst (flushBuffer w)
  | CbLLMDebounce sessionKey => llmDebounceFired sessionKey w
  end.

(** A timer fires once it is due, unless it was cleared. *)
Definition fireTimer (h : nat) (w : World) : World :=
  match timers (host w) !! h with
  | Some t =>
      if due t <=? now (host w)
      then runCallback (callback t) (clearTimeout h w)
      else w
  | None => w
  end.

(** One turn of the event loop: a call of an exported function, an agent
    event delivered to the subscribed handler, the clock advancing, a timer
    firing, or an awaited ingest call settling. *)
Inductive Op : Type :=
| OpStartTrajectory (p : StartParams)
| OpEndTrajectory (p : EndParams)
| OpLogLLMCall (p : LLMCallParams)
| OpLogToolCall (p : ToolCallParams)
| OpLogAgentDefinition (p : AgentDefinitionParams)
| OpFlushBuffer
| OpAgentEvent (e : AgentEventPayload)
| OpStartEventListener
| OpStopEventListener
| OpFlushPendingLLMEvents (sessionKey : string)
| OpInitMarloClient (c : MarloClient)
| OpShutdownMarloClient
| OpTick (ms : nat)
| OpFireTimer (h : nat)
| OpIngestSettled (r : IngestOutcome).

Definition step (op : Op) (w : World) : World :=
  match op with
  | OpStartTrajectory p => snd (startTrajectory p w)
  | OpEndTrajectory p => endTrajectory p w
  | OpLogLLMCall p => logLLMCall p w
  | OpLogToolCall p => logToolCall p w
  | OpLogAgentDefinition p => logAgentDefinition p w
  | OpFlushBuffer => fst (flushBuffer w)
  | OpAgentEvent e => if unsubscribe (lsn w) then handleAgentEvent e w else w
  | OpStartEventListener => startEventListener w
  | OpStopEventListener => stopEventListener w
  | OpFlushPendingLLMEvents sk => flushPendingLLMEvents sk w
  | OpInitMarloClient c => initMarloClient c w
  | OpShutdownMarloClient => shutdownMarloClient w
  | OpTick ms => updHost (fun r => setNow (now r + Z.of_nat ms) r) w
  | OpFireTimer h => fireTimer h w
  | OpIngestSettled r => fst (flushBuffer_resume r w)
  end.

Definition run (ops : list Op) (w : World) : World :=
  fold_left (fun w op => step op w) ops w.

(** The world when the modules have just been loaded at clock value [t0]:
    [runIdCounter] is seeded with [Date.now()]. *)
Definition initialWorld (uuid : nat -> string) (iso : Z -> string) (t0 : Z) : World :=
  {| host := {| randomUUID := uuid; toISOString := iso; now := t0; nextHandle := 0;
                timers := ∅; uuidCalls := 0; ingestCalls := []; warnings := [] |};
     clientInstance := None;
     traj := {| eventBuffer := []; flushTimer := None; activeTrajectories := ∅;
                runIdCounter := t0 |};
     lsn := {| toolStartTimes := ∅; toolInputsById := ∅; runIdToSession := ∅;
               lastLLMTextBySession := ∅; llmDebounceTimers := ∅; llmPendingData := ∅;
               unsubscribe := false |} |}.

(** ** Vocabulary of the properties *)

Definition tick (ms : nat) (w : World) : World := step (OpTick ms) w.

(** Every event that was queued and not discarded, in queueing order: the
    batches handed to the client followed by the live buffer. *)
Definition outbox (w : World) : list TrajectoryEvent :=
  concat (ingestCalls (host w)) ++ eventBuffer (traj w).

(** The event belongs to the trajectory whose [runId] is [rid]. *)
Definition ofRun (rid : string) (e : TrajectoryEvent) : bool :=
  match run_id e with
  | JStr s => String.eqb s rid
  | _ => false
  end.

Definition isType (ty : TrajectoryEventType) (e : TrajectoryEvent) : bool :=
  TrajectoryEventType_eqb (event_type e) ty.

Definition isBoundary (e : TrajectoryEvent) : bool :=
  isType task_start e || isType task_end e.

Definition countType (ty : TrajectoryEventType) (l : list TrajectoryEvent) : nat :=
  length (List.filter (isType ty) l).

(** [payload.response.text] of an event. *)
Definition responseText (e : TrajectoryEvent) : option string :=
  match getField "response" (payload e) with
  | JObj fs => asString (getField "text" fs)
  | _ => None
  end.

(** An assistant event that carries only a text fragment. *)
Definition textFragment (text : string) : EventData :=
  {| d_phase := None; d_name := None; d_toolCallId := None;
     d_args := JUndefined; d_result := JUndefined; d_error := JUndefined;
     d_isError := JUndefined; d_text := Some text; d_thinking := None;
     d_model := None; d_provider := None; d_usage := None |}.

(** A lifecycle event with the given phase. *)
Definition lifecyclePhase (phase : string) : EventData :=
  {| d_phase := Some phase; d_name := None; d_toolCallId := None;
     d_args := JUndefined; d_result := JUndefined; d_error := JUndefined;
     d_isError := JUndefined; d_text := None; d_thinking := None;
     d_model := None; d_provider := None; d_usage := None |}.

(** The run identifier is the decimal rendering of a counter value below
    [c]. *)
Definition runBelow (c : Z) (rid : JSValue) : Prop :=
  exists n, rid = JStr (pretty n) /\ n < c.

(** What holds of the run identifiers in every reachable world: those of
    the stored trajectories and of every queued event were drawn from the
    counter. *)
Record RunIdsAllocated (w : World) : Prop := {
  ria_active : forall sk t,
    activeTrajectories (traj w) !! sk = Some t ->
    runBelow (runIdCounter (traj w)) (JStr (runId t));
  ria_buffer :
    Forall (fun e => runBelow (runIdCounter (traj w)) (run_id e)) (eventBuffer (traj w));
  ria_ingest :
    Forall (Forall (fun e => runBelow (runIdCounter (traj w)) (run_id e)))
      (ingestCalls (host w));
}.

(** What holds of the timer handles in every reachable world: the ones in
    use were handed out by [setTimeout]. *)
Record HandlesAllocated (w : World) : Prop := {
  ha_timers : forall h t, timers (host w) !! h = Some t -> (h < nextHandle (host w))%nat;
  ha_flush : forall h, flushTimer (traj w) = Some h -> (h < nextHandle (host w))%nat;
  ha_debounce : forall sk h,
    llmDebounceTimers (lsn w) !! sk = Some h -> (h < nextHandle (host w))%nat;
}.

Definition Reachable (w : World) : Prop :=
  exists uuid iso t0 ops, w = run ops (initialWorld uuid iso t0).

(** Two worlds agree on what decides which events reach the client: the
    client, the state of trajectory.ts and the calls made so far. *)
Definition sameCore (w w' : World) : Prop :=
  clientInstance w' = clientInstance w /\ traj w' = traj w /\
  ingestCalls (host w') = ingestCalls (host w).

(** From [w] to [w'] timer handles were only dropped or freshly handed
    out. *)
Record Allocates (w w' : World) : Prop := {
  al_next : (nextHandle (host w) <= nextHandle (host w'))%nat;
  al_timers : forall h t,
    timers (host w') !! h = Some t ->
    timers (host w) !! h = Some t \/
    (nextHandle (host w) <= h < nextHandle (host w'))%nat;
  al_flush : forall h,
    flushTimer (traj w') = Some h ->
    flushTimer (traj w) = Some h \/
    (nextHandle (host w) <= h < nextHandle (host w'))%nat;
  al_debounce : forall sk h,
    llmDebounceTimers (lsn w') !! sk = Some h ->
    llmDebounceTimers (lsn w) !! sk = Some h \/
    (nextHandle (host w) <= h < nextHandle (host w'))%nat;
}.

(** The timer handle [h] was handed out and is not live any more. *)
Definition Dead (h : nat) (w : World) : Prop :=
  timers (host w) !! h = None /\ (h < nextHandle (host w))%nat.

(** While the trajectory [T] of session [sk] is running: the client is
    there, the store maps [sk] to [T], no other stored or future trajectory
    shares its run identifier, and the events of [T] queued so far are its
    [task_start] followed by events that are neither a start nor an end. *)
Record Tracking (sk : string) (T : ActiveTrajectory) (first : TrajectoryEvent)
    (w : World) : Prop := {
  tr_client : clientInstance w <> None;
  tr_active : activeTrajectories (traj w) !! sk = Some T;
  tr_others : forall sk' t,
    sk' <> sk -> activeTrajectories (traj w) !! sk' = Some t -> runId t <> runId T;
  tr_future : forall n, runIdCounter (traj w) <= n -> pretty n <> runId T;
  tr_events : exists mid,
    List.filter (ofRun (runId T)) (outbox w) = first :: mid /\
    Forall (fun e => isBoundary e = false) mid;
}.

(** The steps that are neither a start, an end or an agent definition nor
    touch the client. *)
Definition ambient (op : Op) : Prop :=
  match op with
  | OpStartTrajectory _ | OpEndTrajectory _ | OpLogAgentDefinition _
  | OpInitMarloClient _ | OpShutdownMarloClient => False
  | _ => True
  end.

(** What may happen while the trajectory of session [sk] is running:
    anything but a start or an end for [sk] itself, or the client being
    shut down. *)
Definition during (sk : string) (op : Op) : Prop :=
  match op with
  | OpStartTrajectory p => sp_sessionKey p <> sk
  | OpEndTrajectory p => ep_sessionKey p <> sk
  | OpShutdownMarloClient => False
  | _ => True
  end.

(** The three logging calls. *)
Definition logOp (op : Op) : Prop :=
  match op with
  | OpLogLLMCall _ | OpLogToolCall _ | OpLogAgentDefinition _ => True
  | _ => False
  end.

(** *** The claims that do not hold as they are written *)

(** One batch holds the whole trajectory [rid]: among its events exactly
    one [task_start], which comes first, and exactly one [task_end], which
    comes last. *)
Definition holdsWholeTrajectory (rid : string) (batch : list TrajectoryEvent) : bool :=
  let own := List.filter (ofRun rid) batch in
  (countType task_start own =? 1)%nat && (countType task_end own =? 1)%nat
  && match head own with Some e => isType task_start e | None => false end
  && match last own with Some e => isType task_end e | None => false end.

(** "For every sequence start, events, end on one session, the delivered
    batch contains exactly one task_start and one task_end of the
    trajectory, first and last among its events." *)
Definition one_batch_per_trajectory (w0 : World) (p : StartParams) (ops : list Op)
    (q : EndParams) : Prop :=
  let w3 := endTrajectory q (run ops (snd (startTrajectory p w0))) in
  exists batch, In batch (ingestCalls (host w3)) /\
    holdsWholeTrajectory (runId (fst (startTrajectory p w0))) batch = true.

(** "When a trajectory ends, any live debounce timer of the session is
    cancelled and the pending text, if present, is emitted as an llm_call
    event." *)
Definition end_flushes_debounce (w : World) (q : EndParams) : Prop :=
  let sk := ep_sessionKey q in
  let w' := endTrajectory q w in
  llmDebounceTimers (lsn w') !! sk = None /\
  (forall h, llmDebounceTimers (lsn w) !! sk = Some h -> timers (host w') !! h = None) /\
  (forall pending, llmPendingData (lsn w) !! sk = Some pending ->
     exists e, In e (outbox w') /\ isType llm_call e = true /\
               responseText e = Some (pendingText pending)).


(** Let the debounce timer registered for [sk], if any, run after the
    settle delay. *)
Definition settle (sk : string) (w : World) : World :=
  let w := tick (Z.to_nat LLM_DEBOUNCE_MS) w in
  match llmDebounceTimers (lsn w) !! sk with
  | Some h => fireTimer h w
  | None => w
  end.

(** The fragments a, ab, abc handled one after the other for session
    [sk], [d1] and [d2] milliseconds apart, no timer firing in between. *)
Definition afterFragments (sk : string) (d1 d2 : nat) (w : World) : World :=
  handleAssistantEvent sk (textFragment "abc")
    (tick d2 (handleAssistantEvent sk (textFragment "ab")
       (tick d1 (handleAssistantEvent sk (textFragment "a") w)))).

(** "For a session with an active trajectory, the fragments a, ab, abc
    within the settle window produce exactly one llm_call event, with the
    text abc." *)
Definition three_fragments_one_event (w : World) (sk : string) (d1 d2 : nat) : Prop :=
  is_Some (activeTrajectories (traj w) !! sk) ->
  clientInstance w <> None ->
  exists e, outbox (settle sk (afterFragments sk d1 d2 w)) = (outbox w ++ [e])%list /\
            event_type e = llm_call /\ responseText e = Some "abc".

(** The text [text] is pending for session [sk] and its debounce timer is
    live and due within the settle delay; the core is that of [w0]. *)
Record Armed (sk text : string) (w0 w : World) : Prop := {
  ar_core : sameCore w0 w;
  ar_pending : exists m p, llmPendingData (lsn w) !! sk = Some (mkPending text m p);
  ar_last : lastLLMTextBySession (lsn w) !! sk = Some text;
  ar_timer : exists h d,
    llmDebounceTimers (lsn w) !! sk = Some h /\
    timers (host w) !! h = Some (mkTimer d (CbLLMDebounce sk)) /\
    d <= now (host w) + LLM_DEBOUNCE_MS;
}.

(** The steps that are not an agent event, a flush of pending LLM events
    or the listener being stopped. *)
Definition quiet (op : Op) : Prop :=
  match op with
  | OpAgentEvent _ | OpFlushPendingLLMEvents _ | OpStopEventListener => False
  | _ => True
  end.

(** ** Concrete worlds and inputs *)

Definition uuid0 (n : nat) : string := "uuid-" +:+ pretty n.
Definition iso0 (t : Z) : string := "T" +:+ pretty t.
Definition client0 : MarloClient :=
  {| apiUrl := "https://marlo.example"; apiKey := "key"; timeoutMs := 10000 |}.

(** Marlo initialised: client present, listener subscribed. *)
Definition world0 : World :=
  startEventListener (initMarloClient client0 (initialWorld uuid0 iso0 1700000000000)).

Definition startS1 : StartParams :=
  {| sp_sessionKey := "s1"; sp_task := "find it"; sp_channel := Some "telegram";
     sp_agentId := None; sp_metadata := Some [("source", JStr "moltbot")] |}.

Definition endS1 : EndParams :=
  {| ep_sessionKey := "s1"; ep_status := success; ep_finalAnswer := Some "done";
     ep_error := None; ep_metadata := None |}.

Definition searchCall : ToolCallParams :=
  {| tp_sessionKey := "s1"; tp_toolName := "search";
     tp_toolInput := JObj [("q", JStr "x")];
     tp_toolOutput := JObj [("hits", JNum 3)]; tp_error := None;
     tp_durationMs := Some 50 |}.

Definition llmCallS1 : LLMCallParams :=
  {| lp_sessionKey := "s1"; lp_messages := [("user", "hi")]; lp_model := Some "m";
     lp_provider := Some "p"; lp_response := Some [("text", JStr "hello")];
     lp_usage := None; lp_reasoning := None; lp_error := None |}.

Definition agentDefS1 : AgentDefinitionParams :=
  {| ap_sessionKey := "s1"; ap_agentId := "moltbot"; ap_name := Some "Moltbot";
     ap_description := None; ap_tools := Some ["search"]; ap_systemPrompt := None;
     ap_parentAgentId := None |}.

Definition assistantText (run sk text : string) : AgentEventPayload :=
  {| ev_runId := run; ev_stream := "assistant"; ev_data := textFragment text;
     ev_sessionKey := Some sk |}.

Definition lifecycleEnd (run sk : string) : AgentEventPayload :=
  {| ev_runId := run; ev_stream := "lifecycle"; ev_data := lifecyclePhase "end";
     ev_sessionKey := Some sk |}.

(** Session s1 has a trajectory running. *)
Definition worldS1 : World := snd (startTrajectory startS1 world0).

(** ... and the text abc has just arrived: pending, debounce timer live. *)
Definition worldS1_streaming : World :=
  step (OpAgentEvent (assistantText "r1" "s1" "abc")) worldS1.

(** ... or the text abcd arrived earlier and its timer has fired. *)
Definition worldS1_settled : World :=
  settle "s1" (step (OpAgentEvent (assistantText "r1" "s1" "abcd")) worldS1).

(** A short run for session s1 with activity of a second session
    interleaved. *)
Definition interleaved : list Op :=
  [ OpLogToolCall searchCall;
    OpStartTrajectory {| sp_sessionKey := "s2"; sp_task := "other"; sp_channel := None;
                         sp_agentId := Some "helper"; sp_metadata := None |};
    OpAgentEvent (assistantText "r1" "s1" "abc");
    OpTick 100;
    OpFireTimer 1;
    OpLogLLMCall llmCallS1;
    OpEndTrajectory {| ep_sessionKey := "s2"; ep_status := cancelled;
                       ep_finalAnswer := None; ep_error := None; ep_metadata := None |};
    OpIngestSettled (IngestThrew "HTTP 500");
    OpLogAgentDefinition agentDefS1 ].

(** ** The rest of trajectory.ts *)

(** [shutdownTrajectoryCapture] up to its [await]: the synchronous part of
    [flushBuffer]. *)
Definition shutdownTrajectoryCapture (w : World) : World * FlushProgress := flushBuffer w.

(** The rest of [shutdownTrajectoryCapture], run once the promise of
    [flushBuffer] is fulfilled: [activeTrajectories.clear()]. *)
Definition shutdownTrajectoryCapture_resume (w : World) : World :=
  updTraj (setActiveTrajectories ∅) w.

(** ** The rest of constants.ts *)

Definition DEFAULT_MARLO_API_URL : string := "https://api.marlo.ai".

Definition ENV_MARLO_ENABLED : string := "MARLO_ENABLED".
Definition ENV_MARLO_API_KEY : string := "MARLO_API_KEY".
Definition ENV_MARLO_API_URL : string := "MARLO_API_URL".
Definition ENV_MARLO_PROJECT_ID : string := "MARLO_PROJECT_ID".
Definition ENV_MARLO_AUTO_ACTIVATE : string := "MARLO_AUTO_ACTIVATE".

Record CaptureDefaults : Type := {
  df_tools : bool;
  df_llmCalls : bool;
  df_reasoning : bool;
  df_responses : bool;
}.

Record PrivacyDefaults : Type := {
  df_redactPII : bool;
  df_excludeChannels : list string;
  df_excludePatterns : list string;
}.

Record LearningsDefaults : Type := {
  df_autoActivate : bool;
  df_maxActive : Z;
  df_injectInPrompt : bool;
}.

Record Defaults : Type := {
  df_capture : CaptureDefaults;
  df_privacy : PrivacyDefaults;
  df_learnings : LearningsDefaults;
}.

Definition DEFAULTS : Defaults :=
  {| df_capture := {| df_tools := true; df_llmCalls := true; df_reasoning := true;
                      df_responses := true |};
     df_privacy := {| df_redactPII := true; df_excludeChannels := [];
                      df_excludePatterns := [] |};
     df_learnings := {| df_autoActivate := false; df_maxActive := 20;
                        df_injectInPrompt := true |} |}.

Record HttpSettings : Type := {
  hs_timeoutMs : Z;
  hs_maxRetries : nat;
}.

Definition HTTP_SETTINGS : HttpSettings := {| hs_timeoutMs := 10000; hs_maxRetries := 2 |}.

Record LearningCacheSettings : Type := {
  ttlMs : Z;
  maxEntries : nat;
}.

Definition LEARNING_CACHE : LearningCacheSettings := {| ttlMs := 60000; maxEntries := 100 |}.

(** ** The rest of types.ts *)

Record MarloCaptureConfig : Type := mkCaptureConfig {
  cc_tools : option bool;
  cc_llmCalls : option bool;
  cc_reasoning : option bool;
  cc_responses : option bool;
}.

Record MarloPrivacyConfig : Type := mkPrivacyConfig {
  pc_redactPII : option bool;
  pc_excludeChannels : option (list string);
  pc_excludePatterns : option (list string);
}.

Record MarloLearningsConfig : Type := mkLearningsConfig {
  lc_autoActivate : option bool;
  lc_maxActive : option Z;
  lc_injectInPrompt : option bool;
}.

Record MarloConfig : Type := mkMarloConfig {
  mc_enabled : option bool;
  mc_apiKey : option string;
  mc_apiUrl : option string;
  mc_projectId : option string;
  mc_agentId : option string;
  mc_capture : option MarloCaptureConfig;
  mc_privacy : option MarloPrivacyConfig;
  mc_learnings : option MarloLearningsConfig;
}.

(** The part of [MoltbotConfig] the integration reads: [config.marlo]. *)
Record MoltbotConfig : Type := mkMoltbotConfig {
  cfg_marlo : option MarloConfig;
}.

Inductive LearningStatus : Type := ln_pending | ln_active | ln_inactive | ln_declined.

(** [Learning].  The confidence is a fraction; the code modelled here only
    stores and returns it. *)
Record Learning : Type := mkLearning {
  ln_learning_id : string;
  ln_learning_key : string;
  ln_version : Z;
  ln_status : LearningStatus;
  ln_agent_id : option string;
  ln_learning : string;
  ln_expected_outcome : option string;
  ln_basis : option string;
  ln_confidence : option Q;
  ln_created_at : string;
  ln_updated_at : string;
}.

Record LearningState : Type := mkLearningState {
  ls_active : list Learning;
  ls_updated_at : option string;
}.

Record MarloScope : Type := mkScope {
  project_id : string;
  org_id : string;
  user_id : string;
}.

(** ** config.ts *)

(** What the configuration code takes from outside the modules: the
    environment [process.env], [isTruthyEnvValue] of infra/env.js, and the
    string methods [trim] and [toLowerCase]. *)
Record Platform : Type := mkPlatform {
  env : gmap string string;
  isTruthyEnvValue : option string -> bool;
  trim : string -> string;
  toLowerCase : string -> string;
}.

(** Optional chaining [o?.f]. *)
Definition opt {A B : Type} (f : A -> option B) (o : option A) : option B :=
  match o with
  | Some a => f a
  | None => None
  end.

(** [s.replace(/\/$/, "")]: one slash at the very end is dropped. *)
Fixpoint stripTrailingSlash (s : string) : string :=
  match s with
  | EmptyString => EmptyString
  | String c EmptyString => if String.eqb s "/" then EmptyString else s
  | String c s' => String c (stripTrailingSlash s')
  end.

Definition isMarloEnabled (P : Platform) (config : option MoltbotConfig) : bool :=
  match env P !! ENV_MARLO_ENABLED with
  | Some envEnabled => isTruthyEnvValue P (Some envEnabled)
  | None =>
      match opt mc_enabled (opt cfg_marlo config) with
      | Some enabled => enabled
      | None => false
      end
  end.

Definition getMarloApiKey (P : Platform) (config : option MoltbotConfig) : option string :=
  let envKey := env P !! ENV_MARLO_API_KEY in
  if truthyStr (trim P <$> envKey) then trim P <$> envKey
  else trim P <$> opt mc_apiKey (opt cfg_marlo config).

Definition getMarloApiUrl (P : Platform) (config : option MoltbotConfig) : string :=
  let envUrl := env P !! ENV_MARLO_API_URL in
  match trim P <$> envUrl with
  | Some (String _ _ as trimmed) => stripTrailingSlash trimmed
  | _ =>
      match trim P <$> opt mc_apiUrl (opt cfg_marlo config) with
      | Some (String _ _ as configUrl) => stripTrailingSlash configUrl
      | _ => DEFAULT_MARLO_API_URL
      end
  end.

(** [config?.marlo ?? {}] *)
Definition emptyMarloConfig : MarloConfig :=
  {| mc_enabled := None; mc_apiKey := None; mc_apiUrl := None; mc_projectId := None;
     mc_agentId := None; mc_capture := None; mc_privacy := None; mc_learnings := None |}.

Definition resolveMarloConfig (P : Platform) (config : option MoltbotConfig) : MarloConfig :=
  let marloConfig := default emptyMarloConfig (opt cfg_marlo config) in
  {| mc_enabled := Some (isMarloEnabled P config);
     mc_apiKey := getMarloApiKey P config;
     mc_apiUrl := Some (getMarloApiUrl P config);
     mc_projectId :=
       match env P !! ENV_MARLO_PROJECT_ID with
       | Some projectId => Some projectId
       | None => mc_projectId marloConfig
       end;
     mc_agentId := mc_agentId marloConfig;
     mc_capture := Some
       {| cc_tools := Some (default (df_tools (df_capture DEFAULTS))
                              (opt cc_tools (mc_capture marloConfig)));
          cc_llmCalls := Some (default (df_llmCalls (df_capture DEFAULTS))
                                 (opt cc_llmCalls (mc_capture marloConfig)));
          cc_reasoning := Some (default (df_reasoning (df_capture DEFAULTS))
                                  (opt cc_reasoning (mc_capture marloConfig)));
          cc_responses := Some (default (df_responses (df_capture DEFAULTS))
                                  (opt cc_responses (mc_capture marloConfig))) |};
     mc_privacy := Some
       {| pc_redactPII := Some (default (df_redactPII (df_privacy DEFAULTS))
                                  (opt pc_redactPII (mc_privacy marloConfig)));
          pc_excludeChannels := Some (default (df_excludeChannels (df_privacy DEFAULTS))
                                        (opt pc_excludeChannels (mc_privacy marloConfig)));
          pc_excludePatterns := Some (default (df_excludePatterns (df_privacy DEFAULTS))
                                        (opt pc_excludePatterns (mc_privacy marloConfig))) |};
     mc_learnings := Some
       {| lc_autoActivate := Some
            (isTruthyEnvValue P (env P !! ENV_MARLO_AUTO_ACTIVATE)
             || default (df_autoActivate (df_learnings DEFAULTS))
                  (opt lc_autoActivate (mc_learnings marloConfig)));
          lc_maxActive := Some (default (df_maxActive (df_learnings DEFAULTS))
                                  (opt lc_maxActive (mc_learnings marloConfig)));
          lc_injectInPrompt := Some (default (df_injectInPrompt (df_learnings DEFAULTS))
                                       (opt lc_injectInPrompt (mc_learnings marloConfig))) |} |}.

(** [list.includes(s)] *)
Definition includes (l : list string) (s : string) : bool := existsb (String.eqb s) l.

Definition isChannelExcluded (P : Platform) (channel : string)
    (config : option MoltbotConfig) : bool :=
  let resolved := resolveMarloConfig P config in
  let excludeChannels := default [] (opt pc_excludeChannels (mc_privacy resolved)) in
  includes excludeChannels (toLowerCase P channel).

(** The character classes of the two patterns of [isValidApiKeyFormat]. *)
Definition isChar (s : string) (c : Ascii.ascii) : bool := String.eqb (String c EmptyString) s.

Definition inRange (lo hi : string) (c : Ascii.ascii) : bool :=
  match lo, hi with
  | String l EmptyString, String h EmptyString =>
      (Ascii.N_of_ascii l <=? Ascii.N_of_ascii c)%N && (Ascii.N_of_ascii c <=? Ascii.N_of_ascii h)%N
  | _, _ => false
  end.

(** [[a-z]] *)
Definition isLower (c : Ascii.ascii) : bool := inRange "a" "z" c.

(** [[a-zA-Z0-9_-]] *)
Definition isKeyChar (c : Ascii.ascii) : bool :=
  inRange "a" "z" c || inRange "A" "Z" c || inRange "0" "9" c
  || isChar "_" c || isChar "-" c.

(** [[a-fA-F0-9]] *)
Definition isHexChar (c : Ascii.ascii) : bool :=
  inRange "a" "f" c || inRange "A" "F" c || inRange "0" "9" c.

Fixpoint allChars (p : Ascii.ascii -> bool) (s : string) : bool :=
  match s with
  | EmptyString => true
  | String c s' => p c && allChars p s'
  end.

(** The rest of [s] after the prefix [pre], if [s] starts with it. *)
Fixpoint afterPrefix (pre s : string) : option string :=
  match pre with
  | EmptyString => Some s
  | String c pre' =>
      match s with
      | EmptyString => None
      | String d s' => if Ascii.eqb c d then afterPrefix pre' s' else None
      end
  end.

(** The rest of [s] after its longest prefix of characters in [p]. *)
Fixpoint dropWhileChar (p : Ascii.ascii -> bool) (s : string) : string :=
  match s with
  | EmptyString => EmptyString
  | String c s' => if p c then dropWhileChar p s' else s
  end.

(** The longest prefix of [s] of characters in [p]. *)
Fixpoint takeWhileChar (p : Ascii.ascii -> bool) (s : string) : string :=
  match s with
  | EmptyString => EmptyString
  | String c s' => if p c then String c (takeWhileChar p s') else EmptyString
  end.

(** [/^marlo_[a-z]+_[a-zA-Z0-9_-]+$/.test(s)].  The underscore is not in
    [[a-z]], so the run of lower-case letters that the pattern matches is
    the longest one. *)
Definition matchesPrefixedKey (s : string) : bool :=
  match afterPrefix "marlo_" s with
  | Some (String c _ as rest) =>
      isLower c &&
      match dropWhileChar isLower rest with
      | String u (String d _ as body) => isChar "_" u && allChars isKeyChar body
      | _ => false
      end
  | _ => false
  end.

(** [/^[a-fA-F0-9]{64}$/.test(s)] *)
Definition matchesHexKey (s : string) : bool :=
  (String.length s =? 64)%nat && allChars isHexChar s.

Definition isValidApiKeyFormat (apiKey : string) : bool :=
  if matchesPrefixedKey apiKey then true
  else if matchesHexKey apiKey then true
  else false.

(** ** The rest of client.ts *)

Record MarloClientOptions : Type := mkClientOptions {
  o_apiUrl : string;
  o_apiKey : string;
  o_timeoutMs : option Z;
}.

(** The constructor of [MarloClient]. *)
Definition newMarloClient (options : MarloClientOptions) : MarloClient :=
  {| apiUrl := stripTrailingSlash (o_apiUrl options);
     apiKey := o_apiKey options;
     timeoutMs := default (hs_timeoutMs HTTP_SETTINGS) (o_timeoutMs options) |}.

(** [client.getActiveLearningsForPrompt], given what [client.getLearnings]
    resolved with ([None] for [null]): [state?.active ?? []]. *)
Definition getActiveLearningsForPrompt (state : option LearningState) : list Learning :=
  match state with
  | Some s => ls_active s
  | None => []
  end.

(** ** capture-hooks.ts *)

Definition isMarloReady (P : Platform) (config : option MoltbotConfig) (w : World) : bool :=
  isMarloEnabled P config &&
  match getMarloClient w with
  | Some _ => true
  | None => false
  end.

Record CaptureContext : Type := mkCaptureContext {
  cx_sessionKey : string;
  cx_channel : string;
  cx_body : string;
  cx_workspaceDir : option string;
  cx_config : option MoltbotConfig;
}.

(** How far a call of the async [startMessageCapture] got before returning
    its promise: it has returned its verdict, or it awaits
    [syncLearningsFile], with the agent identifier it resolved before. *)
Inductive CaptureProgress : Type :=
| CaptureReturned (started : bool)
| CaptureAwaitingSync (workspaceDir : string) (agentId projectId : option string).

(** The call of [startTrajectory] that ends [startMessageCapture]. *)
Definition captureStart (ctx : CaptureContext) (agentId : option string) (w : World)
  : World :=
  snd (startTrajectory
         {| sp_sessionKey := cx_sessionKey ctx;
            sp_task := cx_body ctx;
            sp_channel := Some (cx_channel ctx);
            sp_agentId := agentId;
            sp_metadata := Some [("source", JStr "moltbot")] |} w).

(** [startMessageCapture] up to its [await], if it has one.
    [syncLearningsFile] reads and writes the learnings file and asks the
    client for the learning state; it touches no module state. *)
Definition startMessageCapture (P : Platform) (ctx : CaptureContext) (w : World)
  : World * CaptureProgress :=
  if negb (isMarloReady P (cx_config ctx) w) then (w, CaptureReturned false)
  else if isChannelExcluded P (cx_channel ctx) (cx_config ctx) then (w, CaptureReturned false)
  else if hasActiveTrajectory (cx_sessionKey ctx) w then (w, CaptureReturned false)
  else
    let marloConfig := resolveMarloConfig P (cx_config ctx) in
    let agentId := mc_agentId marloConfig in
    let projectId := mc_projectId marloConfig in
    match cx_workspaceDir ctx with
    | Some (String _ _ as workspaceDir) =>
        match opt lc_injectInPrompt (mc_learnings marloConfig) with
        | Some false => (captureStart ctx agentId w, CaptureReturned true)
        | _ => (w, CaptureAwaitingSync workspaceDir agentId projectId)
        end
    | _ => (captureStart ctx agentId w, CaptureReturned true)
    end.

(** The rest of [startMessageCapture], run when [syncLearningsFile] has
    settled, whichever way. *)
Definition startMessageCapture_resume (ctx : CaptureContext) (agentId : option string)
    (w : World) : World * bool :=
  (captureStart ctx agentId w, true).

(** A call of [startMessageCapture] made in world [w] has returned true,
    leaving world [w1]; [wb] is the world in which it came to start the
    trajectory: [w] itself when the call did not await the learnings sync,
    and otherwise the world in which the sync settled, whatever ran in
    between. *)
Definition captureStarted (P : Platform) (ctx : CaptureContext) (w wb w1 : World) : Prop :=
  match snd (startMessageCapture P ctx w) with
  | CaptureReturned started =>
      started = true /\ wb = w /\ w1 = fst (startMessageCapture P ctx w)
  | CaptureAwaitingSync _ agentId _ =>
      startMessageCapture_resume ctx agentId wb = (w1, true)
  end.

Record EndSuccessParams : Type := mkEndSuccessParams {
  es_sessionKey : string;
  es_response : string;
  es_config : option MoltbotConfig;
}.

Definition endMessageCaptureSuccess (P : Platform) (params : EndSuccessParams) (w : World)
  : World :=
  if negb (isMarloReady P (es_config params) w)
     || negb (hasActiveTrajectory (es_sessionKey params) w)
  then w
  else endTrajectory
         {| ep_sessionKey := es_sessionKey params;
            ep_status := success;
            ep_finalAnswer := Some (es_response params);
            ep_error := None;
            ep_metadata := None |} w.

Record EndErrorParams : Type := mkEndErrorParams {
  ee_sessionKey : string;
  ee_error : string;
  ee_config : option MoltbotConfig;
}.

Definition endMessageCaptureError (P : Platform) (params : EndErrorParams) (w : World)
  : World :=
  if negb (isMarloReady P (ee_config params) w)
     || negb (hasActiveTrajectory (ee_sessionKey params) w)
  then w
  else endTrajectory
         {| ep_sessionKey := ee_sessionKey params;
            ep_status := error;
            ep_finalAnswer := None;
            ep_error := Some (ee_error params);
            ep_metadata := None |} w.

Record CaptureLLMCallParams : Type := mkCaptureLLMCallParams {
  cl_sessionKey : string;
  cl_model : string;
  cl_provider : string;
  cl_messages : option (list (string * string));
  cl_response : option (list (string * JSValue));
  cl_usage : option Usage;
  cl_reasoning : option (list (string * JSValue));
  cl_error : option string;
  cl_config : option MoltbotConfig;
}.

Definition captureAgentLLMCall (P : Platform) (params : CaptureLLMCallParams) (w : World)
  : World :=
  if negb (isMarloReady P (cl_config params) w) then w
  else
    let marloConfig := resolveMarloConfig P (cl_config params) in
    if negb (default false (opt cc_llmCalls (mc_capture marloConfig))) then w
    else logLLMCall
           {| lp_sessionKey := cl_sessionKey params;
              lp_messages := default [] (cl_messages params);
              lp_model := Some (cl_model params);
              lp_provider := Some (cl_provider params);
              lp_response := cl_response params;
              lp_usage := cl_usage params;
              lp_reasoning :=
                if default false (opt cc_reasoning (mc_capture marloConfig))
                then cl_reasoning params else None;
              lp_error := cl_error params |} w.

Record CaptureToolCallParams : Type := mkCaptureToolCallParams {
  ct_sessionKey : string;
  ct_toolName : string;
  ct_toolInput : JSValue;
  ct_toolOutput : JSValue;
  ct_error : option string;
  ct_durationMs : option Z;
  ct_config : option MoltbotConfig;
}.

Definition captureAgentToolCall (P : Platform) (params : CaptureToolCallParams) (w : World)
  : World :=
  if negb (isMarloReady P (ct_config params) w) then w
  else
    let marloConfig := resolveMarloConfig P (ct_config params) in
    if negb (default false (opt cc_tools (mc_capture marloConfig))) then w
    else logToolCall
           {| tp_sessionKey := ct_sessionKey params;
              tp_toolName := ct_toolName params;
              tp_toolInput := ct_toolInput params;
              tp_toolOutput := ct_toolOutput params;
              tp_error := ct_error params;
              tp_durationMs := ct_durationMs params |} w.

(** ** learnings.ts *)

(** A JavaScript [Map] with string keys, in insertion order. *)
Fixpoint mapGet {A : Type} (k : string) (m : list (string * A)) : option A :=
  match m with
  | [] => None
  | (k', v) :: m' => if String.eqb k k' then Some v else mapGet k m'
  end.

(** [m.set(k, v)]: an existing key keeps its place, a new one goes last. *)
Fixpoint mapSet {A : Type} (k : string) (v : A) (m : list (string * A))
  : list (string * A) :=
  match m with
  | [] => [(k, v)]
  | (k', v') :: m' => if String.eqb k k' then (k, v) :: m' else (k', v') :: mapSet k v m'
  end.

Fixpoint mapDelete {A : Type} (k : string) (m : list (string * A)) : list (string * A) :=
  match m with
  | [] => []
  | (k', v') :: m' => if String.eqb k k' then m' else (k', v') :: mapDelete k m'
  end.

Record CacheEntry : Type := mkCacheEntry {
  ce_learnings : list Learning;
  ce_expiresAt : Z;
}.

(** The module state with the module variable of learnings.ts added:
    [learningCache]. *)
Record App : Type := mkApp {
  world : World;
  learningCache : list (string * CacheEntry);
}.

Definition onWorld (f : World -> World) (a : App) : App :=
  mkApp (f (world a)) (learningCache a).

Definition setLearningCache (c : list (string * CacheEntry)) (a : App) : App :=
  mkApp (world a) c.

Record LearningsParams : Type := mkLearningsParams {
  gl_agentId : option string;
  gl_projectId : option string;
  gl_forceRefresh : option bool;
}.

(** [params.projectId ? `${params.projectId}:${agentId}` : agentId], with
    [agentId = params.agentId ?? MOLTBOT_AGENT_ID]. *)
Definition learningKeyOf (agentId projectId : option string) : string :=
  let agentId := default MOLTBOT_AGENT_ID agentId in
  match projectId with
  | Some (String _ _ as projectId) => projectId +:+ ":" +:+ agentId
  | _ => agentId
  end.

(** How far a call of the async [getActiveLearnings] got before returning
    its promise. *)
Inductive LearningsProgress : Type :=
| LearningsReturned (learnings : list Learning)
| LearningsAwaiting (learningKey : string).

(** [getActiveLearnings] up to its [await]; no module variable is written
    on the way. *)
Definition getActiveLearnings (params : LearningsParams) (a : App) : LearningsProgress :=
  let learningKey := learningKeyOf (gl_agentId params) (gl_projectId params) in
  let hit :=
    if default false (gl_forceRefresh params) then None
    else
      match mapGet learningKey (learningCache a) with
      | Some cached =>
          if now (host (world a)) <? ce_expiresAt cached
          then Some (ce_learnings cached) else None
      | None => None
      end in
  match hit with
  | Some learnings => LearningsReturned learnings
  | None =>
      match getMarloClient (world a) with
      | None => LearningsReturned []
      | Some _ => LearningsAwaiting learningKey
      end
  end.

(** The rest of [getActiveLearnings], run when
    [client.getActiveLearningsForPrompt(learningKey)] has resolved with
    [learnings] (that call does not reject). *)
Definition getActiveLearnings_resume (learningKey : string) (learnings : list Learning)
    (a : App) : list Learning * App :=
  let a := setLearningCache
             (mapSet learningKey
                {| ce_learnings := learnings;
                   ce_expiresAt := now (host (world a)) + ttlMs LEARNING_CACHE |}
                (learningCache a)) a in
  let a :=
    if (maxEntries LEARNING_CACHE <? length (learningCache a))%nat then
      match learningCache a with
      | (String _ _ as oldestKey, _) :: _ =>
          setLearningCache (mapDelete oldestKey (learningCache a)) a
      | _ => a
      end
    else a in
  (learnings, a).

Definition clearLearningsCache (a : App) : App := setLearningCache [] a.

Definition invalidateLearningsCache (agentId projectId : option string) (a : App) : App :=
  setLearningCache (mapDelete (learningKeyOf agentId projectId) (learningCache a)) a.

(** ** index.ts *)

(** [log.warn(msg)] *)
Definition warn (msg : string) (w : World) : World :=
  updHost (fun h => setWarnings (warnings h ++ [msg]) h) w.

(** How far a call of the async [initMarlo] got before returning its
    promise. *)
Inductive InitProgress : Type :=
| InitReturned (ok : bool)
| InitAwaitingVerify.

(** [initMarlo] up to its [await]. *)
Definition initMarlo (P : Platform) (config : option MoltbotConfig) (w : World)
  : World * InitProgress :=
  if negb (isMarloEnabled P config) then (w, InitReturned false)
  else
    match getMarloApiKey P config with
    | Some (String _ _ as apiKey) =>
        let apiUrl := getMarloApiUrl P config in
        (initMarloClient
           (newMarloClient {| o_apiUrl := apiUrl; o_apiKey := apiKey; o_timeoutMs := None |})
           w,
         InitAwaitingVerify)
    | _ => (warn "Marlo enabled but no API key configured" w, InitReturned false)
    end.

(** The rest of [initMarlo], run when [client.verifyApiKey()] has resolved
    with [scope] ([None] for [null]; that call does not reject). *)
Definition initMarlo_resume (scope : option MarloScope) (w : World) : World * bool :=
  match scope with
  | None => (shutdownMarloClient (warn "Failed to verify Marlo API key" w), false)
  | Some _ => (startEventListener w, true)
  end.

(** [shutdownMarlo] up to its [await]. *)
Definition shutdownMarlo (a : App) : App * FlushProgress :=
  let w := stopEventListener (world a) in
  let '(w, progress) := shutdownTrajectoryCapture w in
  (mkApp w (learningCache a), progress).

(** The rest of [shutdownMarlo], run when the promise of
    [shutdownTrajectoryCapture] is fulfilled. *)
Definition shutdownMarlo_resume (a : App) : App :=
  onWorld shutdownMarloClient (clearLearningsCache a).

Definition isMarloActive (w : World) : bool :=
  match getMarloClient w with
  | Some _ => true
  | None => false
  end.

(** ** Vocabulary of the further properties *)

(** What holds of the timers in every reachable world.  The timer table
    holds handles that were handed out; the buffer is non-empty exactly
    when the flush timer is set, and stays below [maxSize]; the flush timer
    and the debounce timer of each session are live and due within their
    delay; every live timer is the flush timer or the debounce timer of the
    session its callback names; a session has pending text exactly when it
    has a debounce timer, and the pending text is the last text recorded
    for the session. *)
Record TimersTracked (w : World) : Prop := {
  tt_alloc : forall h t, timers (host w) !! h = Some t -> (h < nextHandle (host w))%nat;
  tt_buffer : eventBuffer (traj w) = [] <-> flushTimer (traj w) = None;
  tt_size : (length (eventBuffer (traj w)) < maxSize BUFFER_SETTINGS)%nat;
  tt_flush : forall h,
    flushTimer (traj w) = Some h ->
    exists d, timers (host w) !! h = Some (mkTimer d CbFlushBuffer) /\
              d <= now (host w) + flushIntervalMs BUFFER_SETTINGS;
  tt_debounce : forall sk h,
    llmDebounceTimers (lsn w) !! sk = Some h ->
    exists d, timers (host w) !! h = Some (mkTimer d (CbLLMDebounce sk)) /\
              d <= now (host w) + LLM_DEBOUNCE_MS;
  tt_owner : forall h t,
    timers (host w) !! h = Some t ->
    match callback t with
    | CbFlushBuffer => flushTimer (traj w) = Some h
    | CbLLMDebounce sk => llmDebounceTimers (lsn w) !! sk = Some h
    end;
  tt_pending : forall sk,
    is_Some (llmPendingData (lsn w) !! sk) <-> is_Some (llmDebounceTimers (lsn w) !! sk);
  tt_last : forall sk p,
    llmPendingData (lsn w) !! sk = Some p ->
    lastLLMTextBySession (lsn w) !! sk = Some (pendingText p);
}.

(** [shutdownMarlo] run to its end under any schedule.  The call runs to
    its [await]; while the promise of [shutdownTrajectoryCapture] is
    pending the operations [between1] run (the ingest call of the last
    flush settling is one of them), then the rest of
    [shutdownTrajectoryCapture] runs; the operations [between2] run before
    the awaiting [shutdownMarlo] goes on, and [cache] is what has become of
    the learnings cache by then; then the rest of [shutdownMarlo] runs. *)
Definition shutdownMarlo_run (between1 between2 : list Op)
    (cache : list (string * CacheEntry)) (a : App) : App :=
  let a1 := fst (shutdownMarlo a) in
  let w2 := shutdownTrajectoryCapture_resume (run between1 (world a1)) in
  shutdownMarlo_resume (mkApp (run between2 w2) cache).

(** What holds of the batches in every reachable world: the buffer is
    below [maxSize], and every batch handed to the client holds at least
    one event and at most [maxSize]. *)
Record BatchesBounded (w : World) : Prop := {
  bb_buffer : (length (eventBuffer (traj w)) < maxSize BUFFER_SETTINGS)%nat;
  bb_batches :
    Forall (fun batch : list TrajectoryEvent =>
              (1 <= length batch <= maxSize BUFFER_SETTINGS)%nat)
      (ingestCalls (host w));
}.
(** A tool signal, and an assistant signal, with the given fields and
    nothing else. *)
Definition toolSignal (phase name id : string) (args result : JSValue) : EventData :=
  {| d_phase := Some phase; d_name := Some name; d_toolCallId := Some id;
     d_args := args; d_result := result; d_error := JUndefined;
     d_isError := JUndefined; d_text := None; d_thinking := None;
     d_model := None; d_provider := None; d_usage := None |}.

Definition assistantSignal (text thinking : option string) (usage : option UsageData)
  : EventData :=
  {| d_phase := None; d_name := None; d_toolCallId := None;
     d_args := JUndefined; d_result := JUndefined; d_error := JUndefined;
     d_isError := JUndefined; d_text := text; d_thinking := thinking;
     d_model := Some "m"; d_provider := Some "p"; d_usage := usage |}.

(** The signal [data] with its thinking left out. *)
Definition withoutThinking (data : EventData) : EventData :=
  {| d_phase := d_phase data; d_name := d_name data; d_toolCallId := d_toolCallId data;
     d_args := d_args data; d_result := d_result data; d_error := d_error data;
     d_isError := d_isError data; d_text := d_text data; d_thinking := None;
     d_model := d_model data; d_provider := d_provider data; d_usage := d_usage data |}.

(** The agent event [e] with the session key [sk] written in. *)
Definition withSessionKey (sk : string) (e : AgentEventPayload) : AgentEventPayload :=
  {| ev_runId := ev_runId e; ev_stream := ev_stream e; ev_data := ev_data e;
     ev_sessionKey := Some sk |}.

(** The phases of a tool signal that close a tool call. *)
Definition terminalPhase (p : option string) : Prop :=
  p = Some "result" \/ p = Some "end" \/ p = Some "error".

(** The state of event-listener.ts when the module has just been loaded. *)
Definition idleListener : ListenerState :=
  {| toolStartTimes := ∅; toolInputsById := ∅; runIdToSession := ∅;
     lastLLMTextBySession := ∅; llmDebounceTimers := ∅; llmPendingData := ∅;
     unsubscribe := false |}.
(** From [w] to [w'] at most one event was queued; the client, the stored
    trajectories, the run counter and the subscription are the same. *)
Record Forwarded (w w' : World) : Prop := {
  fw_client : clientInstance w' = clientInstance w;
  fw_active : activeTrajectories (traj w') = activeTrajectories (traj w);
  fw_counter : runIdCounter (traj w') = runIdCounter (traj w);
  fw_subscribed : unsubscribe (lsn w') = unsubscribe (lsn w);
  fw_runs : runIdToSession (lsn w') = runIdToSession (lsn w);
  fw_queued : clientInstance w <> None ->
    exists queued, outbox w' = (outbox w ++ queued)%list /\ (length queued <= 1)%nat;
}.
(** ** More concrete inputs *)

(** [trim] and [toLowerCase] on ASCII strings, and a reading of
    environment values, for the concrete platform below. *)
Definition isSpaceChar (c : Ascii.ascii) : bool :=
  (Ascii.N_of_ascii c =? 32)%N
  || ((9 <=? Ascii.N_of_ascii c)%N && (Ascii.N_of_ascii c <=? 13)%N).

Fixpoint reverseString (acc s : string) : string :=
  match s with
  | EmptyString => acc
  | String c s' => reverseString (String c acc) s'
  end.

Definition trimAscii (s : string) : string :=
  reverseString ""
    (dropWhileChar isSpaceChar (reverseString "" (dropWhileChar isSpaceChar s))).

Definition lowerChar (c : Ascii.ascii) : Ascii.ascii :=
  if inRange "A" "Z" c then Ascii.ascii_of_N (Ascii.N_of_ascii c + 32) else c.

Fixpoint toLowerCaseAscii (s : string) : string :=
  match s with
  | EmptyString => EmptyString
  | String c s' => String (lowerChar c) (toLowerCaseAscii s')
  end.

Definition truthyEnv0 (v : option string) : bool :=
  match v with
  | Some v => includes ["1"; "true"; "yes"; "on"] (toLowerCaseAscii (trimAscii v))
  | None => false
  end.

(** A platform with an empty environment. *)
Definition platform0 : Platform :=
  {| env := ∅; isTruthyEnvValue := truthyEnv0; trim := trimAscii;
     toLowerCase := toLowerCaseAscii |}.

(** The integration switched on in the configuration, reasoning capture
    switched off, one channel excluded. *)
Definition config0 : MoltbotConfig :=
  {| cfg_marlo := Some
       {| mc_enabled := Some true; mc_apiKey := Some " marlo_sk_abc123 ";
          mc_apiUrl := Some "https://marlo.example/"; mc_projectId := None;
          mc_agentId := None;
          mc_capture := Some {| cc_tools := None; cc_llmCalls := None;
                                cc_reasoning := Some false; cc_responses := None |};
          mc_privacy := Some {| pc_redactPII := None;
                                pc_excludeChannels := Some ["signal"];
                                pc_excludePatterns := None |};
          mc_learnings := None |} |}.

Definition ctxS1 : CaptureContext :=
  {| cx_sessionKey := "s1"; cx_channel := "Telegram"; cx_body := "find it";
     cx_workspaceDir := None; cx_config := Some config0 |}.

(** The same message for an agent with a workspace. *)
Definition ctxS1_workspace : CaptureContext :=
  {| cx_sessionKey := "s1"; cx_channel := "Telegram"; cx_body := "find it";
     cx_workspaceDir := Some "/work"; cx_config := Some config0 |}.

Definition toolStartS1 : EventData :=
  toolSignal "start" "search" "call-1" (JObj [("q", JStr "x")]) JUndefined.

Definition toolResultS1 : EventData :=
  toolSignal "result" "search" "call-1" JUndefined (JObj [("hits", JNum 3)]).

Definition toolErrorS1 : EventData :=
  {| d_phase := Some "error"; d_name := Some "search"; d_toolCallId := Some "call-2";
     d_args := JObj [("q", JStr "y")]; d_result := JStr "timed out";
     d_error := JUndefined; d_isError := JUndefined; d_text := None; d_thinking := None;
     d_model := None; d_provider := None; d_usage := None |}.
(** What holds of the listener in every reachable world: while it is not
    subscribed its state is the one of a freshly loaded module. *)
Definition IdleWhenStopped (w : World) : Prop :=
  unsubscribe (lsn w) = false -> lsn w = idleListener.

(** The trajectory of s1 ended: its two events are with the client. *)
Definition worldS1_ended : World := step (OpEndTrajectory endS1) worldS1.

Definition usageS1 : UsageData :=
  {| ud_inputTokens := Some 12; ud_outputTokens := Some 30 |}.

Definition learningS1 : Learning :=
  {| ln_learning_id := "l-1"; ln_learning_key := "moltbot"; ln_version := 1;
     ln_status := ln_active; ln_agent_id := Some "moltbot";
     ln_learning := "Ask before deleting files";
     ln_expected_outcome := None; ln_basis := None; ln_confidence := None;
     ln_created_at := "T0"; ln_updated_at := "T0" |}.

(** Session s1 streaming, and the learnings of the default agent cached. *)
Definition appS1 : App :=
  {| world := worldS1_streaming;
     learningCache :=
       [("moltbot", {| ce_learnings := [learningS1];
                       ce_expiresAt := 1700000060000 |})] |}.

(** ** Basic facts about trajectory.ts *)

Lemma createEvent_fst trajectory ty pl w :
  fst (createEvent trajectory ty pl w) =
  {| event_id := randomUUID (host w) (uuidCalls (host w));
     run_id := JStr (runId trajectory);
     agent_id := agentId trajectory;
     parent_agent_id := JNull;
     invocation_id := runId trajectory +:+ "-" +:+ taskId trajectory;
     task_id := JStr (taskId trajectory);
     event_type := ty;
     payload := pl;
     created_at := toISOString (host w) (now (host w)) |}.
Proof. reflexivity. Qed.

Lemma createEvent_snd trajectory ty pl w :
  snd (createEvent trajectory ty pl w) =
  updHost (fun r => setUuidCalls (S (uuidCalls r)) r) w.
Proof. reflexivity. Qed.

Lemma createEvent_pair trajectory ty pl w :
  createEvent trajectory ty pl w =
  (fst (createEvent trajectory ty pl w), snd (createEvent trajectory ty pl w)).
Proof. reflexivity. Qed.

Lemma flushBuffer_empty w :
  eventBuffer (traj w) = [] ->
  flushBuffer w =
  (match flushTimer (traj w) with
   | Some h => updTraj (setFlushTimer None) (clearTimeout h w)
   | None => w
   end, FlushReturned).
Proof.
  intros Hb. unfold flushBuffer.
  destruct (flushTimer (traj w)); simpl; now rewrite Hb.
Qed.

Lemma flushBuffer_nonempty w :
  eventBuffer (traj w) <> [] ->
  flushBuffer w =
  let w1 := match flushTimer (traj w) with
            | Some h => updTraj (setFlushTimer None) (clearTimeout h w)
            | None => w
            end in
  let w2 := updTraj (setEventBuffer []) w1 in
  match clientInstance w with
  | None => (w2, FlushReturned)
  | Some _ => (ingestEvents (eventBuffer (traj w)) w2, FlushAwaiting (eventBuffer (traj w)))
  end.
Proof.
  intros Hb. unfold flushBuffer, getMarloClient.
  destruct (flushTimer (traj w)); simpl;
    destruct (eventBuffer (traj w)); try congruence; reflexivity.
Qed.

Lemma flushBuffer_buffer w : eventBuffer (traj (fst (flushBuffer w))) = [].
Proof.
  destruct (eventBuffer (traj w)) as [|e l] eqn:Hb.
  - rewrite flushBuffer_empty by assumption. destruct (flushTimer (traj w)); simpl; assumption.
  - rewrite flushBuffer_nonempty by (rewrite Hb; discriminate). simpl.
    destruct (clientInstance w), (flushTimer (traj w)); reflexivity.
Qed.

Lemma flushBuffer_flushTimer w : flushTimer (traj (fst (flushBuffer w))) = None.
Proof.
  destruct (eventBuffer (traj w)) as [|e l] eqn:Hb.
  - rewrite flushBuffer_empty by assumption. destruct (flushTimer (traj w)) eqn:Hf; simpl; auto.
  - rewrite flushBuffer_nonempty by (rewrite Hb; discriminate). simpl.
    destruct (clientInstance w), (flushTimer (traj w)) eqn:Hf; simpl; auto.
Qed.

Lemma flushBuffer_outbox w :
  clientInstance w <> None -> outbox (fst (flushBuffer w)) = outbox w.
Proof.
  intros Hc. unfold outbox.
  destruct (eventBuffer (traj w)) as [|e l] eqn:Hb.
  - rewrite flushBuffer_empty by assumption.
    destruct (flushTimer (traj w)); simpl; now rewrite Hb.
  - rewrite flushBuffer_nonempty by (rewrite Hb; discriminate). simpl.
    destruct (clientInstance w); [|congruence].
    destruct (flushTimer (traj w)); simpl;
      rewrite concat_app; simpl; rewrite !app_nil_r, ?Hb; reflexivity.
Qed.

(** [bufferEvent] in two steps: queue the event and make sure a flush
    timer is set, then flush if the buffer is full. *)
Lemma bufferEvent_unfold e w :
  bufferEvent e w =
  let w1 := updTraj (fun s => setEventBuffer (eventBuffer s ++ [e]) s) w in
  let w2 := match flushTimer (traj w) with
            | Some _ => w1
            | None =>
                updTraj (setFlushTimer (Some (nextHandle (host w))))
                  (snd (setTimeout CbFlushBuffer (flushIntervalMs BUFFER_SETTINGS) w1))
            end in
  if (maxSize BUFFER_SETTINGS <=? S (length (eventBuffer (traj w))))%nat
  then fst (flushBuffer w2) else w2.
Proof.
  unfold bufferEvent. cbv zeta.
  assert (Hlen : forall l : list TrajectoryEvent, length (l ++ [e]) = S (length l)).
  { intros l. rewrite length_app. simpl. lia. }
  destruct (flushTimer (traj w)) eqn:Hf; cbn [traj updTraj flushTimer setEventBuffer];
    rewrite Hf; cbn [setTimeout updTraj updHost traj setFlushTimer eventBuffer host
                     setEventBuffer fst snd];
    rewrite Hlen; reflexivity.
Qed.

(** ** Logging without a trajectory *)

(** C3: for a session key with no active trajectory, [logLLMCall],
    [logToolCall] and [logAgentDefinition] return the world they were
    given: no event is created (no identifier is drawn), nothing is queued,
    the buffer and every other piece of state are unchanged.  The functions
    are total, so nothing is thrown. *)
Theorem log_without_trajectory_is_noop (w : World) (sk : string) :
  activeTrajectories (traj w) !! sk = None ->
  (forall p, lp_sessionKey p = sk -> logLLMCall p w = w) /\
  (forall p, tp_sessionKey p = sk -> logToolCall p w = w) /\
  (forall p, ap_sessionKey p = sk -> logAgentDefinition p w = w).
Proof.
  intros Hnone. repeat split; intros p <-.
  - unfold logLLMCall. now rewrite Hnone.
  - unfold logToolCall. now rewrite Hnone.
  - unfold logAgentDefinition. now rewrite Hnone.
Qed.

(** ** The batch buffer *)

Lemma fireTimer_flush h d w :
  timers (host w) !! h = Some (mkTimer d CbFlushBuffer) ->
  fireTimer h w =
  if d <=? now (host w) then fst (flushBuffer (clearTimeout h w)) else w.
Proof. intros Ht. unfold fireTimer. rewrite Ht. reflexivity. Qed.

Lemma bufferEvent_below e w :
  (S (length (eventBuffer (traj w))) < maxSize BUFFER_SETTINGS)%nat ->
  eventBuffer (traj (bufferEvent e w)) = (eventBuffer (traj w) ++ [e])%list /\
  ingestCalls (host (bufferEvent e w)) = ingestCalls (host w) /\
  clientInstance (bufferEvent e w) = clientInstance w /\
  lsn (bufferEvent e w) = lsn w.
Proof.
  intros Hlt. rewrite bufferEvent_unfold. cbv zeta.
  destruct (Nat.leb_spec (maxSize BUFFER_SETTINGS) (S (length (eventBuffer (traj w)))))
    as [Hle|_]; [lia|].
  destruct (flushTimer (traj w)); repeat split; reflexivity.
Qed.

(** C6: [bufferEvent] appends the event; if no flush timer is set it sets
    one, due after [flushIntervalMs] = 5000 ms; when the buffer has reached
    [maxSize] = 100 it flushes at once, whatever the timer state, and
    cancels the timer; below that size the events stay in the buffer, and
    the flush timer hands them to the client when it fires, which it does
    not do before it is due. *)
Theorem bufferEvent_schedules_and_flushes (e : TrajectoryEvent) (w : World) :
  let w' := bufferEvent e w in
  let queued := (eventBuffer (traj w) ++ [e])%list in
  let handle := default (nextHandle (host w)) (flushTimer (traj w)) in
  let armed :=
    match flushTimer (traj w) with
    | Some _ => timers (host w)
    | None => <[nextHandle (host w) := mkTimer (now (host w) + 5000) CbFlushBuffer]>
                (timers (host w))
    end in
  let sent :=
    match clientInstance w with
    | Some _ => (ingestCalls (host w) ++ [queued])%list
    | None => ingestCalls (host w)
    end in
  if (length queued <? 100)%nat
  then eventBuffer (traj w') = queued /\
       ingestCalls (host w') = ingestCalls (host w) /\
       flushTimer (traj w') = Some handle /\
       timers (host w') = armed /\
       match armed !! handle with
       | Some (mkTimer d CbFlushBuffer) =>
           forall ms,
             let w'' := fireTimer handle (tick ms w') in
             if d <=? now (host w) + Z.of_nat ms
             then eventBuffer (traj w'') = [] /\ ingestCalls (host w'') = sent
             else w'' = tick ms w'
       | _ => True
       end
  else eventBuffer (traj w') = [] /\
       ingestCalls (host w') = sent /\
       flushTimer (traj w') = None /\
       timers (host w') = delete handle armed.
Proof.
  intros w' queued handle armed sent.
  assert (Hlen : length queued = S (length (eventBuffer (traj w)))).
  { unfold queued. rewrite length_app. simpl. lia. }
  assert (Hne : queued <> []) by (unfold queued; destruct (eventBuffer (traj w)); discriminate).
  subst w'. rewrite bufferEvent_unfold. cbv zeta.
  change (maxSize BUFFER_SETTINGS) with 100%nat.
  change (flushIntervalMs BUFFER_SETTINGS) with 5000.
  rewrite Hlen.
  destruct (Nat.ltb_spec (S (length (eventBuffer (traj w)))) 100) as [Hlt|Hge].
  - (* below the threshold *)
    destruct (Nat.leb_spec 100 (S (length (eventBuffer (traj w))))) as [Hle|_]; [lia|].
    destruct (flushTimer (traj w)) as [h|] eqn:Hf; subst handle armed; simpl.
    + repeat split; try reflexivity; try assumption.
      destruct (timers (host w) !! h) as [[d [|sk]]|] eqn:Ht; try exact I.
      intros ms. rewrite (fireTimer_flush h d) by exact Ht. simpl.
      destruct (d <=? now (host w) + Z.of_nat ms); [|reflexivity].
      split; [apply flushBuffer_buffer|].
      rewrite flushBuffer_nonempty by exact Hne. simpl. rewrite Hf. simpl.
      subst sent. unfold ingestEvents. destruct (clientInstance w); reflexivity.
    + repeat split; try reflexivity.
      rewrite lookup_insert_eq.
      intros ms.
      rewrite (fireTimer_flush _ (now (host w) + 5000)) by (simpl; apply lookup_insert_eq).
      simpl.
      destruct (now (host w) + 5000 <=? now (host w) + Z.of_nat ms); [|reflexivity].
      split; [apply flushBuffer_buffer|].
      rewrite flushBuffer_nonempty by exact Hne. simpl.
      subst sent. unfold ingestEvents. destruct (clientInstance w); reflexivity.
  - (* the buffer is full *)
    destruct (Nat.leb_spec 100 (S (length (eventBuffer (traj w))))) as [_|Hlt]; [|lia].
    destruct (flushTimer (traj w)) as [h|] eqn:Hf; subst handle armed sent; simpl.
    + rewrite flushBuffer_nonempty by exact Hne. simpl. rewrite Hf. simpl.
      unfold ingestEvents. destruct (clientInstance w); repeat split; reflexivity.
    + rewrite flushBuffer_nonempty by exact Hne. simpl.
      unfold ingestEvents. destruct (clientInstance w); repeat split; reflexivity.
Qed.

(** C7: [flushBuffer] cancels the flush timer; with an empty buffer it does
    nothing else and sends nothing; otherwise it takes the buffer contents,
    leaves an empty buffer behind and hands the contents to the client as
    one batch, so that an event queued while the call is awaited starts a
    fresh buffer and the batch in flight is untouched.  When the awaited
    call throws, the promise of [flushBuffer] is still fulfilled, a warning
    is logged, and neither the buffer nor any other module state changes:
    the batch is not queued again. *)
Theorem flushBuffer_swaps_and_swallows (w : World) :
  let w' := fst (flushBuffer w) in
  let cancelled :=
    match flushTimer (traj w) with
    | Some h => updTraj (setFlushTimer None) (clearTimeout h w)
    | None => w
    end in
  flushTimer (traj w') = None /\
  timers (host w') = timers (host cancelled) /\
  (forall h, flushTimer (traj w) = Some h -> timers (host w') !! h = None) /\
  eventBuffer (traj w') = [] /\
  match eventBuffer (traj w) with
  | [] => flushBuffer w = (cancelled, FlushReturned)
  | batch =>
      match clientInstance w with
      | Some _ => snd (flushBuffer w) = FlushAwaiting batch /\
                  ingestCalls (host w') = (ingestCalls (host w) ++ [batch])%list
      | None => snd (flushBuffer w) = FlushReturned /\
                ingestCalls (host w') = ingestCalls (host w)
      end
  end /\
  (forall e, eventBuffer (traj (bufferEvent e w')) = [e] /\
             ingestCalls (host (bufferEvent e w')) = ingestCalls (host w')) /\
  (forall err w2,
     let w3 := fst (flushBuffer_resume (IngestThrew err) w2) in
     snd (flushBuffer_resume (IngestThrew err) w2) = Fulfilled /\
     traj w3 = traj w2 /\ lsn w3 = lsn w2 /\ clientInstance w3 = clientInstance w2 /\
     ingestCalls (host w3) = ingestCalls (host w2) /\
     timers (host w3) = timers (host w2) /\
     warnings (host w3) =
       (warnings (host w2) ++ ["Failed to flush events to Marlo: " +:+ err])%list).
Proof.
  intros w' cancelled.
  assert (Hbuf : eventBuffer (traj w') = []) by apply flushBuffer_buffer.
  assert (Hft : flushTimer (traj w') = None) by apply flushBuffer_flushTimer.
  assert (Htm : timers (host w') = timers (host cancelled)).
  { subst w' cancelled.
    destruct (eventBuffer (traj w)) as [|e0 l] eqn:Hb.
    - rewrite flushBuffer_empty by assumption. reflexivity.
    - rewrite flushBuffer_nonempty by (rewrite Hb; discriminate). simpl.
      destruct (clientInstance w), (flushTimer (traj w)); reflexivity. }
  split; [exact Hft|]. split; [exact Htm|]. split.
  { intros h Hh. rewrite Htm. subst cancelled. rewrite Hh. simpl. apply lookup_delete_eq. }
  split; [exact Hbuf|]. split.
  { subst w' cancelled. destruct (eventBuffer (traj w)) as [|e0 l] eqn:Hb.
    - apply flushBuffer_empty. assumption.
    - rewrite flushBuffer_nonempty by (rewrite Hb; discriminate). simpl. rewrite Hb.
      destruct (clientInstance w), (flushTimer (traj w)); split; reflexivity. }
  split.
  - intros e.
    destruct (bufferEvent_below e w') as (H1 & H2 & _).
    { rewrite Hbuf. simpl. lia. }
    rewrite H1, Hbuf. split; [reflexivity|assumption].
  - intros err w2. simpl. repeat split; reflexivity.
Qed.

(** ** Invariants, step by step *)

Lemma sameCore_refl w : sameCore w w.
Proof. repeat split. Qed.

Lemma sameCore_trans w1 w2 w3 : sameCore w1 w2 -> sameCore w2 w3 -> sameCore w1 w3.
Proof. intros (A1 & A2 & A3) (B1 & B2 & B3). repeat split; congruence. Qed.

Lemma sameCore_updLsn f w : sameCore w (updLsn f w).
Proof. repeat split. Qed.

Lemma sameCore_updHost f w :
  (forall h, ingestCalls (f h) = ingestCalls h) -> sameCore w (updHost f w).
Proof. intros Hf. repeat split. simpl. apply Hf. Qed.

Lemma sameCore_clearTimeout h w : sameCore w (clearTimeout h w).
Proof. apply sameCore_updHost. reflexivity. Qed.

Lemma sameCore_setTimeout cb d w : sameCore w (snd (setTimeout cb d w)).
Proof. apply sameCore_updHost. reflexivity. Qed.

(** Whatever is preserved by the pieces the listener is made of is
    preserved by the listener, the timers and the clock. *)
Section ListenerSteps.

Variable Inv : World -> Prop.
Hypothesis Inv_lsn : forall f w,
  (forall s, llmDebounceTimers (f s) = llmDebounceTimers s /\
             lastLLMTextBySession (f s) = lastLLMTextBySession s) ->
  Inv w -> Inv (updLsn f w).
Hypothesis Inv_record : forall sk text w,
  Inv w ->
  Inv (updLsn (fun s => setLastLLMTextBySession
                 (<[sk := text]> (lastLLMTextBySession s)) s) w).
Hypothesis Inv_unrecord : forall sk w,
  Inv w ->
  Inv (updLsn (fun s => setLastLLMTextBySession
                 (delete sk (lastLLMTextBySession s)) s) w).
Hypothesis Inv_unrecordAll : forall w,
  Inv w -> Inv (updLsn (setLastLLMTextBySession ∅) w).
Hypothesis Inv_host : forall f w,
  (forall h, nextHandle (f h) = nextHandle h /\ timers (f h) = timers h /\
             ingestCalls (f h) = ingestCalls h) ->
  Inv w -> Inv (updHost f w).
Hypothesis Inv_clearTimeout : forall h w, Inv w -> Inv (clearTimeout h w).
Hypothesis Inv_forget : forall sk w,
  Inv w ->
  Inv (updLsn (fun s => setLlmDebounceTimers (delete sk (llmDebounceTimers s)) s) w).
Hypothesis Inv_forgetAll : forall w, Inv w -> Inv (updLsn (setLlmDebounceTimers ∅) w).
Hypothesis Inv_arm : forall sk w,
  Inv w ->
  Inv (updLsn (fun s => setLlmDebounceTimers
                 (<[sk := nextHandle (host w)]> (llmDebounceTimers s)) s)
         (snd (setTimeout (CbLLMDebounce sk) LLM_DEBOUNCE_MS w))).
Hypothesis Inv_logLLMCall : forall p w, Inv w -> Inv (logLLMCall p w).
Hypothesis Inv_logToolCall : forall p w, Inv w -> Inv (logToolCall p w).
Hypothesis Inv_flushBuffer : forall w, Inv w -> Inv (fst (flushBuffer w)).

Ltac neutral := apply Inv_lsn; [intros ?; split; reflexivity|].

Lemma Inv_handleToolEvent sk data w : Inv w -> Inv (handleToolEvent sk data w).
Proof.
  intros HI. unfold handleToolEvent.
  destruct (d_name data) as [[|c name]|]; try assumption.
  destruct (phaseIs (d_phase data) "start").
  { destruct (d_toolCallId data) as [[|c' id]|]; try assumption.
    neutral. neutral. assumption. }
  destruct (phaseIs (d_phase data) "result" || phaseIs (d_phase data) "end"
            || phaseIs (d_phase data) "error"); try assumption.
  destruct (if truthyStr (d_toolCallId data)
            then toolStartTimes (lsn w) !! default "" (d_toolCallId data)
            else None) as [t0|];
    destruct (truthyStr (d_toolCallId data));
    apply Inv_logToolCall; repeat neutral; assumption.
Qed.

Lemma Inv_llmDebounceFired sk w : Inv w -> Inv (llmDebounceFired sk w).
Proof.
  intros HI. unfold llmDebounceFired.
  destruct (llmPendingData (lsn w) !! sk); apply Inv_forget; try assumption.
  neutral. now apply Inv_logLLMCall.
Qed.

Lemma Inv_handleAssistantEvent sk data w : Inv w -> Inv (handleAssistantEvent sk data w).
Proof.
  intros HI. unfold handleAssistantEvent.
  destruct (usageReported (d_usage data)); [now apply Inv_logLLMCall|].
  destruct (negb (truthyStr (d_text data)) && negb (truthyStr (d_thinking data)));
    [assumption|].
  destruct (truthyStr (d_thinking data) && negb (truthyStr (d_text data)));
    [now apply Inv_logLLMCall|].
  destruct (d_text data) as [[|c text]|]; try assumption.
  destruct (startsWith _ _); [assumption|].
  cbn [updLsn lsn llmDebounceTimers setLlmPendingData setLastLLMTextBySession].
  destruct (llmDebounceTimers (lsn w) !! sk);
    refine (Inv_arm sk _ _); try apply Inv_clearTimeout;
    apply Inv_record; neutral; assumption.
Qed.

Lemma Inv_handleLifecycleEvent rid sk data w :
  Inv w -> Inv (handleLifecycleEvent rid sk data w).
Proof.
  intros HI. unfold handleLifecycleEvent.
  destruct (phaseIs _ _); [neutral|]; assumption.
Qed.

Lemma Inv_handleAgentEvent e w : Inv w -> Inv (handleAgentEvent e w).
Proof.
  intros HI. unfold handleAgentEvent.
  destruct (getMarloClient w); [|assumption].
  set (w1 := match ev_sessionKey e with
             | Some (String _ _ as sk) => _
             | _ => w
             end).
  assert (H1 : Inv w1).
  { subst w1. destruct (ev_sessionKey e) as [[|c s]|]; try assumption.
    neutral. assumption. }
  clearbody w1.
  destruct (match ev_sessionKey e with
            | Some sk => Some sk
            | None => runIdToSession (lsn w1) !! ev_runId e
            end) as [[|c r]|]; try assumption.
  destruct (negb (hasActiveTrajectory _ w1)); [assumption|].
  destruct (String.eqb (ev_stream e) "tool"); [now apply Inv_handleToolEvent|].
  destruct (String.eqb (ev_stream e) "assistant"); [now apply Inv_handleAssistantEvent|].
  destruct (String.eqb (ev_stream e) "lifecycle"); [now apply Inv_handleLifecycleEvent|].
  assumption.
Qed.

Lemma Inv_startEventListener w : Inv w -> Inv (startEventListener w).
Proof.
  intros HI. unfold startEventListener.
  destruct (unsubscribe (lsn w)); [|neutral]; assumption.
Qed.

Lemma Inv_clearAll (m : gmap string nat) w :
  Inv w -> Inv (map_fold (fun _ timer w => clearTimeout timer w) w m).
Proof.
  intros HI. apply (map_fold_weak_ind (fun r _ => Inv r)); [assumption|].
  intros k h m' r _ IH. now apply Inv_clearTimeout.
Qed.

Lemma Inv_stopEventListener w : Inv w -> Inv (stopEventListener w).
Proof.
  intros HI. unfold stopEventListener.
  destruct (unsubscribe (lsn w)); [|assumption].
  neutral. apply Inv_forgetAll. apply Inv_clearAll.
  apply Inv_unrecordAll. do 4 neutral. assumption.
Qed.

Lemma Inv_flushPendingLLMEvents sk w : Inv w -> Inv (flushPendingLLMEvents sk w).
Proof.
  intros HI. unfold flushPendingLLMEvents.
  set (w1 := match llmDebounceTimers (lsn w) !! sk with
             | Some timer => _
             | None => w
             end).
  assert (H1 : Inv w1).
  { subst w1. destruct (llmDebounceTimers (lsn w) !! sk); [|assumption].
    now apply Inv_forget, Inv_clearTimeout. }
  clearbody w1. apply Inv_unrecord.
  destruct (llmPendingData (lsn w1) !! sk); [|assumption].
  neutral. now apply Inv_logLLMCall.
Qed.

Lemma Inv_fireTimer h w : Inv w -> Inv (fireTimer h w).
Proof.
  intros HI. unfold fireTimer.
  destruct (timers (host w) !! h) as [[d cb]|]; [|assumption].
  simpl. destruct (d <=? now (host w)); [|assumption].
  destruct cb; simpl.
  - now apply Inv_flushBuffer, Inv_clearTimeout.
  - now apply Inv_llmDebounceFired, Inv_clearTimeout.
Qed.

Lemma Inv_flushBuffer_resume r w : Inv w -> Inv (fst (flushBuffer_resume r w)).
Proof.
  intros HI. destruct r; [assumption|]. simpl.
  apply Inv_host; [|exact HI]. intros h. repeat split.
Qed.

Lemma Inv_step_ambient op w : ambient op -> Inv w -> Inv (step op w).
Proof.
  intros Hop HI. destruct op; simpl in Hop; try contradiction; simpl.
  - now apply Inv_logLLMCall.
  - now apply Inv_logToolCall.
  - now apply Inv_flushBuffer.
  - destruct (unsubscribe (lsn w)); [now apply Inv_handleAgentEvent|assumption].
  - now apply Inv_startEventListener.
  - now apply Inv_stopEventListener.
  - now apply Inv_flushPendingLLMEvents.
  - apply Inv_host; [|exact HI]. intros h. repeat split.
  - now apply Inv_fireTimer.
  - now apply Inv_flushBuffer_resume.
Qed.

End ListenerSteps.

(** The case of an invariant that only looks at the core. *)
Section CoreInvariant.

Variable Inv : World -> Prop.
Hypothesis Inv_frame : forall w w', sameCore w w' -> Inv w -> Inv w'.
Hypothesis Inv_logLLMCall : forall p w, Inv w -> Inv (logLLMCall p w).
Hypothesis Inv_logToolCall : forall p w, Inv w -> Inv (logToolCall p w).
Hypothesis Inv_flushBuffer : forall w, Inv w -> Inv (fst (flushBuffer w)).

Lemma core_step_ambient op w : ambient op -> Inv w -> Inv (step op w).
Proof.
  apply Inv_step_ambient; try assumption.
  - intros f w0 _. apply Inv_frame, sameCore_updLsn.
  - intros sk text w0. apply Inv_frame, sameCore_updLsn.
  - intros sk w0. apply Inv_frame, sameCore_updLsn.
  - intros w0. apply Inv_frame, sameCore_updLsn.
  - intros f w0 Hf. apply Inv_frame, sameCore_updHost. intros h. apply Hf.
  - intros h w0. apply Inv_frame, sameCore_clearTimeout.
  - intros sk w0. apply Inv_frame, sameCore_updLsn.
  - intros w0. apply Inv_frame, sameCore_updLsn.
  - intros sk w0. apply Inv_frame.
    eapply sameCore_trans; [apply sameCore_setTimeout|apply sameCore_updLsn].
Qed.

End CoreInvariant.

(** ** What queueing and flushing leave alone *)

Lemma flushBuffer_core w :
  clientInstance (fst (flushBuffer w)) = clientInstance w /\
  activeTrajectories (traj (fst (flushBuffer w))) = activeTrajectories (traj w) /\
  runIdCounter (traj (fst (flushBuffer w))) = runIdCounter (traj w) /\
  lsn (fst (flushBuffer w)) = lsn w.
Proof.
  destruct (eventBuffer (traj w)) as [|e l] eqn:Hb.
  - rewrite flushBuffer_empty by assumption.
    destruct (flushTimer (traj w)); repeat split; reflexivity.
  - rewrite flushBuffer_nonempty by (rewrite Hb; discriminate). simpl.
    destruct (clientInstance w) eqn:Hc, (flushTimer (traj w));
      simpl; rewrite ?Hc; repeat split; reflexivity.
Qed.

Lemma bufferEvent_core e w :
  clientInstance (bufferEvent e w) = clientInstance w /\
  activeTrajectories (traj (bufferEvent e w)) = activeTrajectories (traj w) /\
  runIdCounter (traj (bufferEvent e w)) = runIdCounter (traj w) /\
  lsn (bufferEvent e w) = lsn w.
Proof.
  rewrite bufferEvent_unfold. cbv zeta.
  destruct (_ <=? _)%nat.
  - match goal with |- context [flushBuffer ?x] =>
      destruct (flushBuffer_core x) as (H1 & H2 & H3 & H4) end.
    rewrite H1, H2, H3, H4.
    destruct (flushTimer (traj w)); repeat split; reflexivity.
  - destruct (flushTimer (traj w)); repeat split; reflexivity.
Qed.

Lemma flushBuffer_uuidCalls w :
  uuidCalls (host (fst (flushBuffer w))) = uuidCalls (host w).
Proof.
  destruct (eventBuffer (traj w)) as [|e l] eqn:Hb.
  - rewrite flushBuffer_empty by assumption. destruct (flushTimer (traj w)); reflexivity.
  - rewrite flushBuffer_nonempty by (rewrite Hb; discriminate). simpl.
    destruct (clientInstance w), (flushTimer (traj w)); reflexivity.
Qed.

Lemma bufferEvent_uuidCalls e w :
  uuidCalls (host (bufferEvent e w)) = uuidCalls (host w).
Proof.
  rewrite bufferEvent_unfold. cbv zeta.
  destruct (_ <=? _)%nat; rewrite ?flushBuffer_uuidCalls;
    destruct (flushTimer (traj w)); reflexivity.
Qed.

Lemma bufferEvent_outbox e w :
  clientInstance w <> None -> outbox (bufferEvent e w) = (outbox w ++ [e])%list.
Proof.
  intros Hc. rewrite bufferEvent_unfold. cbv zeta.
  assert (Hpush : forall w1, clientInstance w1 = clientInstance w ->
            ingestCalls (host w1) = ingestCalls (host w) ->
            eventBuffer (traj w1) = (eventBuffer (traj w) ++ [e])%list ->
            outbox w1 = (outbox w ++ [e])%list).
  { intros w1 _ Hi Hb. unfold outbox. rewrite Hi, Hb. apply app_assoc. }
  destruct (_ <=? _)%nat.
  - rewrite flushBuffer_outbox.
    + destruct (flushTimer (traj w)); apply Hpush; reflexivity.
    + destruct (flushTimer (traj w)); exact Hc.
  - destruct (flushTimer (traj w)); apply Hpush; reflexivity.
Qed.

(** Whatever the timer state and the buffer size, queueing an event and
    then flushing hands the client one batch: the buffer contents followed
    by the event. *)
Lemma bufferEvent_then_flush e
    (f : gmap string ActiveTrajectory -> gmap string ActiveTrajectory) w :
  clientInstance w <> None ->
  ingestCalls (host (fst (flushBuffer
     (updTraj (fun s => setActiveTrajectories (f (activeTrajectories s)) s)
        (bufferEvent e w))))) =
  (ingestCalls (host w) ++ [eventBuffer (traj w) ++ [e]])%list.
Proof.
  intros Hc. rewrite bufferEvent_unfold. cbv zeta.
  assert (Hne : (eventBuffer (traj w) ++ [e])%list <> [])
    by (destruct (eventBuffer (traj w)); discriminate).
  destruct (clientInstance w) as [c|] eqn:Hcl; [clear Hc|congruence].
  destruct (_ <=? _)%nat.
  - rewrite (flushBuffer_empty (updTraj _ _)) by (simpl; apply flushBuffer_buffer).
    cbn [fst traj updTraj flushTimer setActiveTrajectories]. rewrite flushBuffer_flushTimer.
    cbn [host updTraj].
    rewrite flushBuffer_nonempty
      by (destruct (flushTimer (traj w)); exact Hne).
    destruct (flushTimer (traj w)) eqn:Hf; simpl; rewrite ?Hf, Hcl; reflexivity.
  - rewrite flushBuffer_nonempty
      by (destruct (flushTimer (traj w)); exact Hne).
    destruct (flushTimer (traj w)) eqn:Hf; simpl; rewrite ?Hf, Hcl; reflexivity.
Qed.

Lemma ofRun_createEvent rid t ty pl w :
  ofRun rid (fst (createEvent t ty pl w)) = String.eqb (runId t) rid.
Proof. reflexivity. Qed.

Lemma isBoundary_createEvent t ty pl w :
  isBoundary (fst (createEvent t ty pl w)) =
  TrajectoryEventType_eqb ty task_start || TrajectoryEventType_eqb ty task_end.
Proof. reflexivity. Qed.

(** ** The events of a running trajectory *)

Section TrackingSteps.

Variables (sk : string) (T : ActiveTrajectory) (first : TrajectoryEvent).

Lemma tracking_frame w w' : sameCore w w' -> Tracking sk T first w -> Tracking sk T first w'.
Proof.
  intros (Hc & Ht & Hi) [A B C D E].
  split; rewrite ?Hc, ?Ht; try assumption.
  unfold outbox. rewrite Hi, Ht. exact E.
Qed.

Lemma tracking_bufferEvent e w :
  (ofRun (runId T) e = true -> isBoundary e = false) ->
  Tracking sk T first w -> Tracking sk T first (bufferEvent e w).
Proof.
  intros He [A B C D (mid & E1 & E2)].
  destruct (bufferEvent_core e w) as (H1 & H2 & H3 & _).
  split; rewrite ?H1, ?H2, ?H3; try assumption.
  rewrite bufferEvent_outbox by assumption.
  rewrite List.filter_app. simpl.
  destruct (ofRun (runId T) e) eqn:Hof.
  - exists (mid ++ [e])%list. rewrite E1. split; [reflexivity|].
    apply Forall_app. split; [assumption|]. constructor; [auto|constructor].
  - exists mid. rewrite app_nil_r. split; assumption.
Qed.

Lemma tracking_emit s t ty pl w :
  activeTrajectories (traj w) !! s = Some t ->
  (s = sk ->
   TrajectoryEventType_eqb ty task_start || TrajectoryEventType_eqb ty task_end = false) ->
  Tracking sk T first w ->
  Tracking sk T first (bufferEvent (fst (createEvent t ty pl w)) (snd (createEvent t ty pl w))).
Proof.
  intros Hs Hty HT. apply tracking_bufferEvent.
  - rewrite ofRun_createEvent, isBoundary_createEvent. intros Heq.
    apply String.eqb_eq in Heq. apply Hty.
    destruct (decide (s = sk)) as [|Hne]; [assumption|].
    exfalso. exact (tr_others _ _ _ _ HT s t Hne Hs Heq).
  - eapply tracking_frame; [|exact HT]. rewrite createEvent_snd.
    apply sameCore_updHost. reflexivity.
Qed.

Lemma tracking_logLLMCall p w : Tracking sk T first w -> Tracking sk T first (logLLMCall p w).
Proof.
  intros HT. unfold logLLMCall.
  destruct (activeTrajectories (traj w) !! lp_sessionKey p) as [t|] eqn:Hs; [|assumption].
  rewrite createEvent_pair. now apply (tracking_emit (lp_sessionKey p)).
Qed.

Lemma tracking_logToolCall p w : Tracking sk T first w -> Tracking sk T first (logToolCall p w).
Proof.
  intros HT. unfold logToolCall.
  destruct (activeTrajectories (traj w) !! tp_sessionKey p) as [t|] eqn:Hs; [|assumption].
  rewrite createEvent_pair. now apply (tracking_emit (tp_sessionKey p)).
Qed.

Lemma tracking_logAgentDefinition p w :
  Tracking sk T first w -> Tracking sk T first (logAgentDefinition p w).
Proof.
  intros HT. unfold logAgentDefinition.
  destruct (activeTrajectories (traj w) !! ap_sessionKey p) as [t|] eqn:Hs; [|assumption].
  rewrite createEvent_pair. now apply (tracking_emit (ap_sessionKey p)).
Qed.

Lemma tracking_flushBuffer w :
  Tracking sk T first w -> Tracking sk T first (fst (flushBuffer w)).
Proof.
  intros [A B C D E].
  destruct (flushBuffer_core w) as (H1 & H2 & H3 & _).
  split; rewrite ?H1, ?H2, ?H3; try assumption.
  now rewrite flushBuffer_outbox.
Qed.

Lemma tracking_store (f : gmap string ActiveTrajectory -> gmap string ActiveTrajectory) w :
  f (activeTrajectories (traj w)) !! sk = Some T ->
  (forall sk' t, sk' <> sk -> f (activeTrajectories (traj w)) !! sk' = Some t ->
                 runId t <> runId T) ->
  Tracking sk T first w ->
  Tracking sk T first (updTraj (fun s => setActiveTrajectories (f (activeTrajectories s)) s) w).
Proof. intros Hsk Hoth [A B C D E]. split; assumption. Qed.

Lemma tracking_startTrajectory p w :
  sp_sessionKey p <> sk ->
  Tracking sk T first w -> Tracking sk T first (snd (startTrajectory p w)).
Proof.
  intros Hne HT. unfold startTrajectory.
  cbn [generateRunId generateTaskId nextUUID fst snd].
  rewrite createEvent_pair. cbn [snd].
  apply tracking_bufferEvent.
  { rewrite ofRun_createEvent. cbn [runId]. intros Heq. apply String.eqb_eq in Heq.
    exfalso. refine (tr_future _ _ _ _ HT _ _ Heq). lia. }
  eapply tracking_frame; [rewrite createEvent_snd; apply sameCore_updHost; reflexivity|].
  destruct HT as [A B C D E]. split; simpl; try assumption.
  - now rewrite lookup_insert_ne.
  - intros sk' t Hsk'. rewrite lookup_insert. case_decide.
    + intros [= <-]. simpl. apply D. lia.
    + now apply C.
  - intros n Hn. apply D. lia.
Qed.

Lemma tracking_endTrajectory p w :
  ep_sessionKey p <> sk ->
  Tracking sk T first w -> Tracking sk T first (endTrajectory p w).
Proof.
  intros Hne HT. unfold endTrajectory.
  destruct (activeTrajectories (traj w) !! ep_sessionKey p) as [t|] eqn:Hs; [|assumption].
  rewrite createEvent_pair. apply tracking_flushBuffer.
  match goal with |- context [bufferEvent ?e ?w1] =>
    assert (HB : Tracking sk T first (bufferEvent e w1)) end.
  { apply (tracking_emit (ep_sessionKey p)); [assumption|congruence|assumption]. }
  revert HB. generalize (bufferEvent (fst (createEvent t task_end
    [("status", JStr (statusName (ep_status p)));
     ("final_answer", optStr (ep_finalAnswer p));
     ("error", optStr (ep_error p));
     ("metadata", optObj (ep_metadata p))] w)) (snd (createEvent t task_end
    [("status", JStr (statusName (ep_status p)));
     ("final_answer", optStr (ep_finalAnswer p));
     ("error", optStr (ep_error p));
     ("metadata", optObj (ep_metadata p))] w))).
  intros w2 HB.
  apply (tracking_store (delete (ep_sessionKey p))); [| |exact HB].
  - rewrite lookup_delete_ne by assumption. apply (tr_active _ _ _ _ HB).
  - intros sk' t' Hsk'. rewrite lookup_delete. case_decide; [discriminate|].
    now apply (tr_others _ _ _ _ HB).
Qed.

Lemma tracking_step op w :
  during sk op -> Tracking sk T first w -> Tracking sk T first (step op w).
Proof.
  intros Hop HT.
  destruct op; try (apply (core_step_ambient (Tracking sk T first));
    [exact tracking_frame|exact tracking_logLLMCall|exact tracking_logToolCall
    |exact tracking_flushBuffer|exact I|exact HT]); simpl in Hop |- *.
  - now apply tracking_startTrajectory.
  - now apply tracking_endTrajectory.
  - now apply tracking_logAgentDefinition.
  - destruct HT as [A B C D E]. split; try assumption. discriminate.
  - contradiction.
Qed.

Lemma tracking_run ops w :
  Forall (during sk) ops -> Tracking sk T first w -> Tracking sk T first (run ops w).
Proof.
  intros Hops. revert w. induction Hops as [|op ops Hop _ IH]; intros w HT; [assumption|].
  simpl. apply IH. now apply tracking_step.
Qed.

End TrackingSteps.

(** ** Run identifiers come from the counter *)

Lemma runBelow_mono c c' v : c <= c' -> runBelow c v -> runBelow c' v.
Proof. intros Hle (n & Hn & Hlt). exists n. split; [assumption|lia]. Qed.

Lemma runBelow_ofRun c n v :
  c <= n -> runBelow c v -> forall e, run_id e = v -> ofRun (pretty n) e = false.
Proof.
  intros Hle (m & -> & Hlt) e He. unfold ofRun. rewrite He.
  apply String.eqb_neq. intros Heq. apply (inj pretty) in Heq. lia.
Qed.

Lemma ria_proj w w' :
  activeTrajectories (traj w') = activeTrajectories (traj w) ->
  runIdCounter (traj w') = runIdCounter (traj w) ->
  eventBuffer (traj w') = eventBuffer (traj w) ->
  ingestCalls (host w') = ingestCalls (host w) ->
  RunIdsAllocated w -> RunIdsAllocated w'.
Proof. intros H1 H2 H3 H4 [A B C]. split; rewrite ?H1, ?H2, ?H3, ?H4; assumption. Qed.

Lemma ria_frame w w' : sameCore w w' -> RunIdsAllocated w -> RunIdsAllocated w'.
Proof. intros (_ & Ht & Hi). apply ria_proj; congruence. Qed.

Lemma ria_flushBuffer w : RunIdsAllocated w -> RunIdsAllocated (fst (flushBuffer w)).
Proof.
  intros [A B C].
  destruct (flushBuffer_core w) as (_ & H2 & H3 & _).
  split; rewrite ?H2, ?H3; try assumption.
  - rewrite flushBuffer_buffer. constructor.
  - destruct (eventBuffer (traj w)) as [|e l] eqn:Hb.
    + rewrite flushBuffer_empty by assumption.
      destruct (flushTimer (traj w)); exact C.
    + rewrite flushBuffer_nonempty by (rewrite Hb; discriminate). simpl.
      destruct (clientInstance w), (flushTimer (traj w)); simpl; try exact C;
        apply Forall_app; (split; [exact C|]); constructor;
        solve [rewrite Hb; exact B | constructor].
Qed.

Lemma ria_bufferEvent e w :
  runBelow (runIdCounter (traj w)) (run_id e) ->
  RunIdsAllocated w -> RunIdsAllocated (bufferEvent e w).
Proof.
  intros He HR. rewrite bufferEvent_unfold. cbv zeta.
  assert (Hpush : forall w1,
            activeTrajectories (traj w1) = activeTrajectories (traj w) ->
            runIdCounter (traj w1) = runIdCounter (traj w) ->
            eventBuffer (traj w1) = (eventBuffer (traj w) ++ [e])%list ->
            ingestCalls (host w1) = ingestCalls (host w) ->
            RunIdsAllocated w1).
  { intros w1 H1 H2 H3 H4. destruct HR as [A B C].
    split; rewrite ?H1, ?H2, ?H3, ?H4; try assumption.
    apply Forall_app. split; [assumption|]. constructor; [assumption|constructor]. }
  destruct (_ <=? _)%nat; [apply ria_flushBuffer|];
    destruct (flushTimer (traj w)); apply Hpush; reflexivity.
Qed.

Lemma ria_emit s t ty pl w :
  activeTrajectories (traj w) !! s = Some t ->
  RunIdsAllocated w ->
  RunIdsAllocated (bufferEvent (fst (createEvent t ty pl w)) (snd (createEvent t ty pl w))).
Proof.
  intros Hs HR. apply ria_bufferEvent.
  - apply (ria_active _ HR s t Hs).
  - eapply ria_frame; [|exact HR]. rewrite createEvent_snd.
    apply sameCore_updHost. reflexivity.
Qed.

Lemma ria_logLLMCall p w : RunIdsAllocated w -> RunIdsAllocated (logLLMCall p w).
Proof.
  intros HR. unfold logLLMCall.
  destruct (activeTrajectories (traj w) !! lp_sessionKey p) as [t|] eqn:Hs; [|assumption].
  rewrite createEvent_pair. now apply (ria_emit (lp_sessionKey p)).
Qed.

Lemma ria_logToolCall p w : RunIdsAllocated w -> RunIdsAllocated (logToolCall p w).
Proof.
  intros HR. unfold logToolCall.
  destruct (activeTrajectories (traj w) !! tp_sessionKey p) as [t|] eqn:Hs; [|assumption].
  rewrite createEvent_pair. now apply (ria_emit (tp_sessionKey p)).
Qed.

Lemma ria_logAgentDefinition p w :
  RunIdsAllocated w -> RunIdsAllocated (logAgentDefinition p w).
Proof.
  intros HR. unfold logAgentDefinition.
  destruct (activeTrajectories (traj w) !! ap_sessionKey p) as [t|] eqn:Hs; [|assumption].
  rewrite createEvent_pair. now apply (ria_emit (ap_sessionKey p)).
Qed.

Lemma startTrajectory_fst p w :
  fst (startTrajectory p w) =
  {| runId := pretty (runIdCounter (traj w));
     sessionKey := sp_sessionKey p;
     taskId := randomUUID (host w) (uuidCalls (host w));
     agentId := default MOLTBOT_AGENT_ID (sp_agentId p);
     startedAt := now (host w);
     events := [] |}.
Proof. reflexivity. Qed.

(** The world in which [startTrajectory] creates and queues its
    [task_start] event: counter advanced, task identifier drawn, trajectory
    stored. *)
Lemma startTrajectory_snd p w :
  exists pl,
    snd (startTrajectory p w) =
    let T := fst (startTrajectory p w) in
    let w1 := updTraj (fun s => setActiveTrajectories
                         (<[sp_sessionKey p := T]> (activeTrajectories s)) s)
                (updHost (fun r => setUuidCalls (S (uuidCalls r)) r)
                   (updTraj (setRunIdCounter (runIdCounter (traj w) + 1)) w)) in
    bufferEvent (fst (createEvent T task_start pl w1)) (snd (createEvent T task_start pl w1)).
Proof. eexists. reflexivity. Qed.

Lemma ria_startTrajectory p w :
  RunIdsAllocated w -> RunIdsAllocated (snd (startTrajectory p w)).
Proof.
  intros [A B C]. destruct (startTrajectory_snd p w) as (pl & ->). cbv zeta.
  apply (ria_emit (sp_sessionKey p)); [simpl; apply lookup_insert_eq|].
  split; simpl.
  - intros s t. rewrite lookup_insert. case_decide.
    + intros [= <-]. exists (runIdCounter (traj w)). split; [reflexivity|lia].
    + intros Hs. eapply runBelow_mono; [|exact (A s t Hs)]. lia.
  - eapply Forall_impl; [exact B|]. intros e. apply runBelow_mono. lia.
  - eapply Forall_impl; [exact C|]. intros b Hb.
    eapply Forall_impl; [exact Hb|]. intros e. apply runBelow_mono. lia.
Qed.

Lemma ria_endTrajectory p w : RunIdsAllocated w -> RunIdsAllocated (endTrajectory p w).
Proof.
  intros HR. unfold endTrajectory.
  destruct (activeTrajectories (traj w) !! ep_sessionKey p) as [t|] eqn:Hs; [|assumption].
  rewrite createEvent_pair. apply ria_flushBuffer.
  match goal with |- context [bufferEvent ?e ?w1] =>
    assert (HB : RunIdsAllocated (bufferEvent e w1))
      by (now apply (ria_emit (ep_sessionKey p)));
    revert HB; generalize (bufferEvent e w1) end.
  intros w2 [A B C]. split; simpl; try assumption.
  intros s t'. rewrite lookup_delete. case_decide; [discriminate|apply A].
Qed.

Lemma ria_step op w : RunIdsAllocated w -> RunIdsAllocated (step op w).
Proof.
  intros HR.
  destruct op; try (apply (core_step_ambient RunIdsAllocated);
    [exact ria_frame|exact ria_logLLMCall|exact ria_logToolCall
    |exact ria_flushBuffer|exact I|exact HR]); simpl.
  - now apply ria_startTrajectory.
  - now apply ria_endTrajectory.
  - now apply ria_logAgentDefinition.
  - revert HR. now apply ria_proj.
  - revert HR. now apply ria_proj.
Qed.

Lemma ria_run ops w : RunIdsAllocated w -> RunIdsAllocated (run ops w).
Proof.
  revert w. induction ops as [|op ops IH]; intros w HR; [assumption|].
  simpl. apply IH. now apply ria_step.
Qed.

Lemma ria_initialWorld uuid iso t0 : RunIdsAllocated (initialWorld uuid iso t0).
Proof. split; simpl; [intros s t; rewrite lookup_empty; discriminate|constructor..]. Qed.

Lemma reachable_runIdsAllocated w : Reachable w -> RunIdsAllocated w.
Proof. intros (uuid & iso & t0 & ops & ->). apply ria_run, ria_initialWorld. Qed.

(** ** One start and one end per trajectory *)

Lemma tracking_after_start p w :
  RunIdsAllocated w -> clientInstance w <> None ->
  exists first,
    event_type first = task_start /\
    Tracking (sp_sessionKey p) (fst (startTrajectory p w)) first (snd (startTrajectory p w)).
Proof.
  intros [A B C] Hc. destruct (startTrajectory_snd p w) as (pl & ->). cbv zeta.
  set (T := fst (startTrajectory p w)).
  match goal with |- context [bufferEvent ?e ?w1] => exists e; set (w2 := w1) end.
  split; [reflexivity|].
  assert (Hfresh : forall v, runBelow (runIdCounter (traj w)) v ->
            forall e, run_id e = v -> ofRun (runId T) e = false).
  { intros v Hv. apply (runBelow_ofRun (runIdCounter (traj w))); [lia|assumption]. }
  destruct (bufferEvent_core (fst (createEvent T task_start pl
              (updTraj (fun s => setActiveTrajectories
                          (<[sp_sessionKey p := T]> (activeTrajectories s)) s)
                 (updHost (fun r => setUuidCalls (S (uuidCalls r)) r)
                    (updTraj (setRunIdCounter (runIdCounter (traj w) + 1)) w))))) w2)
    as (H1 & H2 & H3 & _).
  split; rewrite ?H1, ?H2, ?H3; subst w2.
  - assumption.
  - simpl. apply lookup_insert_eq.
  - simpl. intros s t Hs. rewrite lookup_insert_ne by congruence. intros Ht.
    destruct (A s t Ht) as (n & [= Hn] & Hlt). rewrite Hn.
    intros Heq. apply (inj pretty) in Heq. lia.
  - simpl. intros n Hn Heq. apply (inj pretty) in Heq. lia.
  - rewrite bufferEvent_outbox by assumption.
    exists []. split; [|constructor].
    rewrite List.filter_app. cbn [List.filter].
    rewrite ofRun_createEvent, String.eqb_refl.
    replace (List.filter (ofRun (runId T)) (outbox _)) with (@nil TrajectoryEvent);
      [reflexivity|].
    match goal with |- _ = List.filter _ (outbox ?x) => change (outbox x) with (outbox w) end.
    unfold outbox. rewrite List.filter_app.
    assert (Hnone : forall l, Forall (fun e => runBelow (runIdCounter (traj w)) (run_id e)) l ->
              List.filter (ofRun (runId T)) l = []).
    { induction 1 as [|e l He _ IH]; [reflexivity|]. cbn [List.filter].
      now rewrite (Hfresh _ He e eq_refl). }
    rewrite (Hnone _ B), app_nil_r. symmetry.
    induction C as [|b bs Hb _ IH]; [reflexivity|]. cbn [concat].
    now rewrite List.filter_app, (Hnone _ Hb), IH.
Qed.

(** C1, as it holds: take any world whose run identifiers were drawn from
    the counter (every reachable world is one) and in which the client is
    initialised; start a trajectory for a session, let anything happen but
    another start or an end for that session or a client shutdown (log
    calls, agent events, timers, flushes, traffic of other sessions), then
    end it.  Nothing is left in the buffer, and among all the events handed
    to the client, batch after batch, those of the trajectory are its
    [task_start], then events that are neither a start nor an end, then its
    [task_end]; the last batch handed over ends with that [task_end]. *)
Theorem trajectory_delimited_across_batches
    (w0 : World) (p : StartParams) (ops : list Op) (q : EndParams) :
  RunIdsAllocated w0 ->
  clientInstance w0 <> None ->
  ep_sessionKey q = sp_sessionKey p ->
  Forall (during (sp_sessionKey p)) ops ->
  let T := fst (startTrajectory p w0) in
  let w3 := endTrajectory q (run ops (snd (startTrajectory p w0))) in
  eventBuffer (traj w3) = [] /\
  activeTrajectories (traj w3) !! sp_sessionKey p = None /\
  exists first mid final batch,
    List.filter (ofRun (runId T)) (concat (ingestCalls (host w3)))
      = (first :: mid ++ [final])%list /\
    event_type first = task_start /\
    event_type final = task_end /\
    Forall (fun e => isBoundary e = false) mid /\
    last (ingestCalls (host w3)) = Some batch /\
    last batch = Some final.
Proof.
  intros HR Hc Hq Hops T w3.
  destruct (tracking_after_start p w0 HR Hc) as (first & Hfirst & HT0).
  pose proof (tracking_run _ _ _ ops _ Hops HT0) as HT.
  fold T in HT. subst w3.
  set (w2 := run ops (snd (startTrajectory p w0))) in *.
  unfold endTrajectory. rewrite Hq, (tr_active _ _ _ _ HT).
  rewrite createEvent_pair.
  set (final := fst (createEvent T task_end _ w2)).
  set (w2' := snd (createEvent T task_end _ w2)).
  assert (Hc2 : clientInstance w2' <> None) by exact (tr_client _ _ _ _ HT).
  assert (Hout : outbox w2' = outbox w2) by reflexivity.
  split; [apply flushBuffer_buffer|]. split.
  { destruct (flushBuffer_core (updTraj (fun s => setActiveTrajectories
                (delete (sp_sessionKey p) (activeTrajectories s)) s)
                (bufferEvent final w2'))) as (_ & H2 & _).
    rewrite H2. simpl. apply lookup_delete_eq. }
  destruct (tr_events _ _ _ _ HT) as (mid & Hmid & Hlog).
  exists first, mid, final, (eventBuffer (traj w2') ++ [final])%list.
  assert (Hcat : concat (ingestCalls (host (fst (flushBuffer
             (updTraj (fun s => setActiveTrajectories
                (delete (sp_sessionKey p) (activeTrajectories s)) s)
                (bufferEvent final w2')))))) = (outbox w2 ++ [final])%list).
  { rewrite (bufferEvent_then_flush final (delete (sp_sessionKey p)) w2' Hc2).
    rewrite concat_app. simpl. rewrite app_nil_r, <- Hout. unfold outbox.
    now rewrite app_assoc. }
  split; [|split; [exact Hfirst|split; [reflexivity|split; [exact Hlog|split]]]].
  - rewrite Hcat, List.filter_app, Hmid. simpl.
    unfold final at 1. rewrite ofRun_createEvent, String.eqb_refl. reflexivity.
  - rewrite (bufferEvent_then_flush final (delete (sp_sessionKey p)) w2' Hc2).
    apply last_snoc.
  - apply last_snoc.
Qed.

(** ** Short trajectories go out in one batch *)

Lemma fresh_run_unqueued w (l : list TrajectoryEvent) :
  Forall (fun e => runBelow (runIdCounter (traj w)) (run_id e)) l ->
  List.filter (ofRun (pretty (runIdCounter (traj w)))) l = [].
Proof.
  induction 1 as [|e l He _ IH]; [reflexivity|]. cbn [List.filter].
  rewrite (runBelow_ofRun (runIdCounter (traj w)) _ _ (Z.le_refl _) He e eq_refl).
  exact IH.
Qed.

Lemma fresh_run_undelivered w :
  RunIdsAllocated w ->
  List.filter (ofRun (pretty (runIdCounter (traj w)))) (concat (ingestCalls (host w))) = [].
Proof.
  intros HR. induction (ria_ingest _ HR) as [|b bs Hb _ IH]; [reflexivity|].
  cbn [concat]. now rewrite List.filter_app, (fresh_run_unqueued w b Hb), IH.
Qed.

Lemma emit_below t ty pl w :
  (S (length (eventBuffer (traj w))) < maxSize BUFFER_SETTINGS)%nat ->
  let w' := bufferEvent (fst (createEvent t ty pl w)) (snd (createEvent t ty pl w)) in
  ingestCalls (host w') = ingestCalls (host w) /\
  length (eventBuffer (traj w')) = S (length (eventBuffer (traj w))).
Proof.
  intros Hlt w'. subst w'.
  destruct (bufferEvent_below (fst (createEvent t ty pl w)) (snd (createEvent t ty pl w)))
    as (Hb & Hi & _); [exact Hlt|].
  rewrite Hb, Hi, length_app. simpl. split; [reflexivity|lia].
Qed.

Lemma logOp_below op w :
  logOp op ->
  (S (length (eventBuffer (traj w))) < maxSize BUFFER_SETTINGS)%nat ->
  ingestCalls (host (step op w)) = ingestCalls (host w) /\
  (length (eventBuffer (traj (step op w))) <= S (length (eventBuffer (traj w))))%nat.
Proof.
  intros Hop Hlt. destruct op; simpl in Hop; try contradiction; cbn [step].
  - unfold logLLMCall.
    destruct (activeTrajectories (traj w) !! lp_sessionKey p); [|split; [reflexivity|lia]].
    rewrite createEvent_pair.
    match goal with |- context [createEvent ?t ?ty ?pl w] =>
      destruct (emit_below t ty pl w Hlt) as (-> & ->) end.
    split; [reflexivity|lia].
  - unfold logToolCall.
    destruct (activeTrajectories (traj w) !! tp_sessionKey p); [|split; [reflexivity|lia]].
    rewrite createEvent_pair.
    match goal with |- context [createEvent ?t ?ty ?pl w] =>
      destruct (emit_below t ty pl w Hlt) as (-> & ->) end.
    split; [reflexivity|lia].
  - unfold logAgentDefinition.
    destruct (activeTrajectories (traj w) !! ap_sessionKey p); [|split; [reflexivity|lia]].
    rewrite createEvent_pair.
    match goal with |- context [createEvent ?t ?ty ?pl w] =>
      destruct (emit_below t ty pl w Hlt) as (-> & ->) end.
    split; [reflexivity|lia].
Qed.

Lemma logOps_below ops w :
  Forall logOp ops ->
  (length (eventBuffer (traj w)) + length ops < maxSize BUFFER_SETTINGS)%nat ->
  ingestCalls (host (run ops w)) = ingestCalls (host w) /\
  (length (eventBuffer (traj (run ops w)))
   <= length (eventBuffer (traj w)) + length ops)%nat.
Proof.
  intros Hops. revert w. induction Hops as [|op ops Hop _ IH]; intros w Hlen.
  - simpl. split; [reflexivity|lia].
  - cbn [length run fold_left] in Hlen |- *.
    destruct (logOp_below op w Hop) as (Hi & Hb); [lia|].
    destruct (IH (step op w)) as (Hi' & Hb'); [lia|].
    unfold run in Hi', Hb'. rewrite Hi', Hi. split; [reflexivity|lia].
Qed.

Lemma logOp_during sk op : logOp op -> during sk op.
Proof. destruct op; simpl; tauto. Qed.

Lemma countType_quiet ty (l : list TrajectoryEvent) :
  Forall (fun e => isType ty e = false) l -> countType ty l = 0%nat.
Proof.
  unfold countType. induction 1 as [|e l He _ IH]; [reflexivity|].
  cbn [List.filter]. now rewrite He.
Qed.

Lemma holdsWholeTrajectory_delimited rid batch first mid final :
  List.filter (ofRun rid) batch = (first :: mid ++ [final])%list ->
  event_type first = task_start ->
  event_type final = task_end ->
  Forall (fun e => isBoundary e = false) mid ->
  holdsWholeTrajectory rid batch = true.
Proof.
  intros Hf H1 H2 Hmid. unfold holdsWholeTrajectory. rewrite Hf. cbv zeta.
  assert (Hs : Forall (fun e => isType task_start e = false) mid).
  { eapply Forall_impl; [exact Hmid|]. intros e He. unfold isBoundary in He.
    now apply Bool.orb_false_iff in He. }
  assert (He : Forall (fun e => isType task_end e = false) mid).
  { eapply Forall_impl; [exact Hmid|]. intros e He. unfold isBoundary in He.
    now apply Bool.orb_false_iff in He. }
  assert (Hn1 : countType task_start (first :: mid ++ [final]) = 1%nat).
  { unfold countType. cbn [List.filter]. unfold isType at 1. rewrite H1.
    cbn [TrajectoryEventType_eqb].
    rewrite List.filter_app. cbn [List.filter]. unfold isType at 2. rewrite H2.
    cbn [TrajectoryEventType_eqb]. rewrite app_nil_r. cbn [length].
    f_equal. exact (countType_quiet task_start mid Hs). }
  assert (Hn2 : countType task_end (first :: mid ++ [final]) = 1%nat).
  { unfold countType. cbn [List.filter]. unfold isType at 1. rewrite H1.
    cbn [TrajectoryEventType_eqb].
    rewrite List.filter_app. cbn [List.filter]. unfold isType at 2. rewrite H2.
    cbn [TrajectoryEventType_eqb]. rewrite length_app. cbn [length].
    change (length (List.filter (isType task_end) mid)) with (countType task_end mid).
    rewrite (countType_quiet task_end mid He). reflexivity. }
  rewrite Hn1, Hn2. cbn [head]. rewrite app_comm_cons, last_snoc.
  unfold isType. rewrite H1, H2. reflexivity.
Qed.

(** When nothing but logging calls happens between start and end and the
    buffer does not fill up on the way, [endTrajectory] hands the client one
    batch that holds the whole trajectory. *)
Lemma short_trajectory_single_batch (w0 : World) (p : StartParams) (ops : list Op)
    (q : EndParams) :
  RunIdsAllocated w0 ->
  clientInstance w0 <> None ->
  ep_sessionKey q = sp_sessionKey p ->
  Forall logOp ops ->
  (length (eventBuffer (traj w0)) + length ops + 2 <= maxSize BUFFER_SETTINGS)%nat ->
  let T := fst (startTrajectory p w0) in
  let w3 := endTrajectory q (run ops (snd (startTrajectory p w0))) in
  exists batch,
    ingestCalls (host w3) = (ingestCalls (host w0) ++ [batch])%list /\
    holdsWholeTrajectory (runId T) batch = true.
Proof.
  intros HR Hc Hq Hops Hlen T w3.
  assert (Hdur : Forall (during (sp_sessionKey p)) ops).
  { eapply Forall_impl; [exact Hops|]. intros op. apply logOp_during. }
  destruct (tracking_after_start p w0 HR Hc) as (first & Hfirst & HT0).
  pose proof (tracking_run _ _ _ ops _ Hdur HT0) as HT. fold T in HT.
  (* nothing is handed over before the end *)
  assert (H1 : ingestCalls (host (snd (startTrajectory p w0))) = ingestCalls (host w0) /\
               length (eventBuffer (traj (snd (startTrajectory p w0))))
               = S (length (eventBuffer (traj w0)))).
  { destruct (startTrajectory_snd p w0) as (pl & ->). cbv zeta.
    match goal with |- context [createEvent ?t ?ty ?pl ?w1] =>
      destruct (emit_below t ty pl w1) as (-> & ->) end.
    - cbn [traj updTraj updHost eventBuffer setActiveTrajectories setRunIdCounter]. lia.
    - split; reflexivity. }
  destruct H1 as (Hi1 & Hb1).
  destruct (logOps_below ops (snd (startTrajectory p w0)) Hops) as (Hi2 & _); [lia|].
  set (w2 := run ops (snd (startTrajectory p w0))) in *.
  assert (Hcalls : exists final,
            event_type final = task_end /\ ofRun (runId T) final = true /\
            ingestCalls (host w3)
            = (ingestCalls (host w0) ++ [eventBuffer (traj w2) ++ [final]])%list).
  { subst w3. unfold endTrajectory. rewrite Hq, (tr_active _ _ _ _ HT).
    rewrite createEvent_pair. eexists. split; [|split].
    2: { rewrite ofRun_createEvent. apply String.eqb_refl. }
    1: reflexivity.
    rewrite bufferEvent_then_flush by exact (tr_client _ _ _ _ HT).
    cbn [snd createEvent generateEventId nextUUID]. simpl. now rewrite Hi2, Hi1. }
  destruct Hcalls as (final & Hfin & Hown & Hcalls).
  exists (eventBuffer (traj w2) ++ [final])%list. split; [exact Hcalls|].
  destruct (tr_events _ _ _ _ HT) as (mid & Hmid & Hlog).
  apply (holdsWholeTrajectory_delimited _ _ first mid final); try assumption.
  rewrite List.filter_app. cbn [List.filter]. rewrite Hown.
  unfold outbox in Hmid. rewrite List.filter_app, Hi2, Hi1 in Hmid.
  unfold T in Hmid at 1. rewrite startTrajectory_fst in Hmid. cbn [runId] in Hmid.
  rewrite (fresh_run_undelivered w0 HR) in Hmid. cbn [app] in Hmid.
  fold T in Hmid. rewrite Hmid. reflexivity.
Qed.

(** ** Timer handles are never reused *)

Lemma alloc_refl w : Allocates w w.
Proof. split; auto. Qed.

Lemma alloc_trans w1 w2 w3 : Allocates w1 w2 -> Allocates w2 w3 -> Allocates w1 w3.
Proof.
  intros [A1 A2 A3 A4] [B1 B2 B3 B4]. split.
  - lia.
  - intros h t H. destruct (B2 h t H) as [H'|H']; [|right; lia].
    destruct (A2 h t H') as [H''|H'']; [now left|right; lia].
  - intros h H. destruct (B3 h H) as [H'|H']; [|right; lia].
    destruct (A3 h H') as [H''|H'']; [now left|right; lia].
  - intros sk h H. destruct (B4 sk h H) as [H'|H']; [|right; lia].
    destruct (A4 sk h H') as [H''|H'']; [now left|right; lia].
Qed.

(** Nothing was handed out and no handle was put anywhere new. *)
Lemma alloc_shrink w w' :
  nextHandle (host w') = nextHandle (host w) ->
  (forall h t, timers (host w') !! h = Some t -> timers (host w) !! h = Some t) ->
  (forall h, flushTimer (traj w') = Some h -> flushTimer (traj w) = Some h) ->
  (forall sk h, llmDebounceTimers (lsn w') !! sk = Some h ->
                llmDebounceTimers (lsn w) !! sk = Some h) ->
  Allocates w w'.
Proof. intros H1 H2 H3 H4. split; [lia|auto..]. Qed.

Lemma alloc_updLsn f w :
  (forall s, llmDebounceTimers (f s) = llmDebounceTimers s) -> Allocates w (updLsn f w).
Proof. intros Hf. apply alloc_shrink; simpl; auto. intros sk h. now rewrite Hf. Qed.

Lemma alloc_updLsn_neutral f w :
  (forall s, llmDebounceTimers (f s) = llmDebounceTimers s /\
             lastLLMTextBySession (f s) = lastLLMTextBySession s) ->
  Allocates w (updLsn f w).
Proof. intros Hf. apply alloc_updLsn. intros s. apply Hf. Qed.

Lemma alloc_updHost f w :
  (forall h, nextHandle (f h) = nextHandle h /\ timers (f h) = timers h /\
             ingestCalls (f h) = ingestCalls h) ->
  Allocates w (updHost f w).
Proof.
  intros Hf. destruct (Hf (host w)) as (H1 & H2 & _).
  apply alloc_shrink; simpl; auto. intros h t. now rewrite H2.
Qed.

Lemma alloc_updTraj f w :
  (forall s, flushTimer (f s) = flushTimer s) -> Allocates w (updTraj f w).
Proof. intros Hf. apply alloc_shrink; simpl; auto. intros h. now rewrite Hf. Qed.

Lemma alloc_clearTimeout h w : Allocates w (clearTimeout h w).
Proof.
  apply alloc_shrink; simpl; auto.
  intros h' t. rewrite lookup_delete_Some. tauto.
Qed.

Lemma alloc_forget sk w :
  Allocates w (updLsn (fun s => setLlmDebounceTimers (delete sk (llmDebounceTimers s)) s) w).
Proof.
  apply alloc_shrink; simpl; auto.
  intros sk' h. rewrite lookup_delete_Some. tauto.
Qed.

Lemma alloc_forgetAll w : Allocates w (updLsn (setLlmDebounceTimers ∅) w).
Proof.
  apply alloc_shrink; simpl; auto.
  intros sk' h. rewrite lookup_empty. discriminate.
Qed.

Lemma alloc_arm sk w :
  Allocates w
    (updLsn (fun s => setLlmDebounceTimers
               (<[sk := nextHandle (host w)]> (llmDebounceTimers s)) s)
       (snd (setTimeout (CbLLMDebounce sk) LLM_DEBOUNCE_MS w))).
Proof.
  split; simpl.
  - lia.
  - intros h t. rewrite lookup_insert_Some. intros [[<- _]|[_ H]]; [right; lia|now left].
  - auto.
  - intros sk' h. rewrite lookup_insert_Some. intros [[_ <-]|[_ H]]; [right; lia|now left].
Qed.

Lemma alloc_flushBuffer w : Allocates w (fst (flushBuffer w)).
Proof.
  destruct (flushBuffer_core w) as (_ & _ & _ & Hl).
  apply alloc_shrink.
  - destruct (eventBuffer (traj w)) as [|e l] eqn:Hb.
    + rewrite flushBuffer_empty by assumption. destruct (flushTimer (traj w)); reflexivity.
    + rewrite flushBuffer_nonempty by (rewrite Hb; discriminate). simpl.
      destruct (clientInstance w), (flushTimer (traj w)); reflexivity.
  - intros h t.
    destruct (eventBuffer (traj w)) as [|e l] eqn:Hb.
    + rewrite flushBuffer_empty by assumption.
      destruct (flushTimer (traj w)); simpl; [rewrite lookup_delete_Some|]; tauto.
    + rewrite flushBuffer_nonempty by (rewrite Hb; discriminate). simpl.
      destruct (clientInstance w), (flushTimer (traj w)); simpl;
        rewrite ?lookup_delete_Some; tauto.
  - intros h. rewrite flushBuffer_flushTimer. discriminate.
  - intros sk h. now rewrite Hl.
Qed.

Lemma alloc_bufferEvent e w : Allocates w (bufferEvent e w).
Proof.
  rewrite bufferEvent_unfold. cbv zeta.
  set (w2 := match flushTimer (traj w) with Some _ => _ | None => _ end).
  assert (H2 : Allocates w w2).
  { subst w2. destruct (flushTimer (traj w)) eqn:Hf.
    - apply alloc_updTraj. reflexivity.
    - split; simpl.
      + lia.
      + intros h t. rewrite lookup_insert_Some.
        intros [[<- _]|[_ H]]; [right; lia|now left].
      + intros h [= <-]. right. lia.
      + auto. }
  destruct (_ <=? _)%nat; [|exact H2].
  eapply alloc_trans; [exact H2|apply alloc_flushBuffer].
Qed.

Lemma alloc_emit t ty pl w :
  Allocates w (bufferEvent (fst (createEvent t ty pl w)) (snd (createEvent t ty pl w))).
Proof.
  eapply alloc_trans; [|apply alloc_bufferEvent].
  rewrite createEvent_snd. apply alloc_updHost. intros h. repeat split.
Qed.

Lemma alloc_logLLMCall p w : Allocates w (logLLMCall p w).
Proof.
  unfold logLLMCall. destruct (_ !! _); [|apply alloc_refl].
  rewrite createEvent_pair. apply alloc_emit.
Qed.

Lemma alloc_logToolCall p w : Allocates w (logToolCall p w).
Proof.
  unfold logToolCall. destruct (_ !! _); [|apply alloc_refl].
  rewrite createEvent_pair. apply alloc_emit.
Qed.

Lemma alloc_logAgentDefinition p w : Allocates w (logAgentDefinition p w).
Proof.
  unfold logAgentDefinition. destruct (_ !! _); [|apply alloc_refl].
  rewrite createEvent_pair. apply alloc_emit.
Qed.

Lemma alloc_startTrajectory p w : Allocates w (snd (startTrajectory p w)).
Proof.
  destruct (startTrajectory_snd p w) as (pl & ->). cbv zeta.
  eapply alloc_trans; [|apply alloc_emit].
  apply alloc_shrink; simpl; auto.
Qed.

Lemma alloc_endTrajectory p w : Allocates w (endTrajectory p w).
Proof.
  unfold endTrajectory. destruct (_ !! _); [|apply alloc_refl].
  rewrite createEvent_pair.
  eapply alloc_trans; [|apply alloc_flushBuffer].
  eapply alloc_trans; [apply alloc_emit|].
  apply alloc_updTraj. reflexivity.
Qed.

Lemma alloc_step op w : Allocates w (step op w).
Proof.
  destruct op;
    try (apply (Inv_step_ambient (Allocates w)); [..|exact I|apply alloc_refl];
         intros; (eapply alloc_trans; [eassumption|]);
         solve [ now apply alloc_updLsn_neutral | now apply alloc_updLsn
               | now apply alloc_updHost
               | apply alloc_clearTimeout | apply alloc_forget | apply alloc_forgetAll
               | apply alloc_arm | apply alloc_logLLMCall | apply alloc_logToolCall
               | apply alloc_flushBuffer ]); simpl.
  - apply alloc_startTrajectory.
  - apply alloc_endTrajectory.
  - apply alloc_logAgentDefinition.
  - apply alloc_shrink; auto.
  - apply alloc_shrink; auto.
Qed.

Lemma ha_alloc w w' : Allocates w w' -> HandlesAllocated w -> HandlesAllocated w'.
Proof.
  intros [A1 A2 A3 A4] [B1 B2 B3]. split.
  - intros h t H. destruct (A2 h t H) as [H'|H']; [apply B1 in H'|]; lia.
  - intros h H. destruct (A3 h H) as [H'|H']; [apply B2 in H'|]; lia.
  - intros sk h H. destruct (A4 sk h H) as [H'|H']; [apply B3 in H'|]; lia.
Qed.

Lemma dead_alloc h w w' : Allocates w w' -> Dead h w -> Dead h w'.
Proof.
  intros [A1 A2 A3 A4] [B1 B2]. split; [|lia].
  destruct (timers (host w') !! h) as [t|] eqn:Ht; [|reflexivity].
  destruct (A2 h t Ht) as [H'|H']; [congruence|lia].
Qed.

Lemma ha_step op w : HandlesAllocated w -> HandlesAllocated (step op w).
Proof. apply ha_alloc, alloc_step. Qed.

Lemma ha_run ops w : HandlesAllocated w -> HandlesAllocated (run ops w).
Proof.
  revert w. induction ops as [|op ops IH]; intros w HR; [assumption|].
  simpl. apply IH. now apply ha_step.
Qed.

Lemma ha_initialWorld uuid iso t0 : HandlesAllocated (initialWorld uuid iso t0).
Proof. split; simpl; intros *; rewrite ?lookup_empty; discriminate. Qed.

Lemma reachable_handlesAllocated w : Reachable w -> HandlesAllocated w.
Proof. intros (uuid & iso & t0 & ops & ->). apply ha_run, ha_initialWorld. Qed.

(** ** Logged LLM calls *)

Lemma logLLMCall_core p w :
  clientInstance (logLLMCall p w) = clientInstance w /\
  activeTrajectories (traj (logLLMCall p w)) = activeTrajectories (traj w) /\
  runIdCounter (traj (logLLMCall p w)) = runIdCounter (traj w) /\
  lsn (logLLMCall p w) = lsn w.
Proof.
  unfold logLLMCall. destruct (_ !! _); [|repeat split].
  rewrite createEvent_pair.
  match goal with |- context [bufferEvent ?e ?w1] =>
    destruct (bufferEvent_core e w1) as (-> & -> & -> & ->) end.
  repeat split.
Qed.

Lemma logLLMCall_active p w T :
  activeTrajectories (traj w) !! lp_sessionKey p = Some T ->
  clientInstance w <> None ->
  exists e,
    outbox (logLLMCall p w) = (outbox w ++ [e])%list /\
    event_type e = llm_call /\
    run_id e = JStr (runId T) /\
    responseText e = lp_response p ≫= (fun fs => asString (getField "text" fs)).
Proof.
  intros Hs Hc. unfold logLLMCall. rewrite Hs, createEvent_pair.
  eexists. split; [|split; [|split]].
  - rewrite bufferEvent_outbox by exact Hc. reflexivity.
  - reflexivity.
  - reflexivity.
  - unfold responseText. simpl. destruct (lp_response p); reflexivity.
Qed.

Lemma logLLMCall_inactive p w :
  activeTrajectories (traj w) !! lp_sessionKey p = None -> logLLMCall p w = w.
Proof. intros Hs. unfold logLLMCall. now rewrite Hs. Qed.

(** ** Flushing pending LLM events *)

(** The explicit flush that C2 speaks of does what it says:
    [flushPendingLLMEvents] cancels the live debounce timer
    of the session, drops the pending entry and the last-text record, and,
    when the session still has an active trajectory, queues the pending
    text at once as one llm_call event of that trajectory; without an
    active trajectory the pending text is dropped.  ([endTrajectory] does
    none of this; the flush has to be requested before the trajectory is
    ended.) *)
Theorem flushPendingLLMEvents_settles (w : World) (sk : string) :
  HandlesAllocated w ->
  let w' := flushPendingLLMEvents sk w in
  llmDebounceTimers (lsn w') !! sk = None /\
  (forall h, llmDebounceTimers (lsn w) !! sk = Some h -> timers (host w') !! h = None) /\
  llmPendingData (lsn w') !! sk = None /\
  lastLLMTextBySession (lsn w') !! sk = None /\
  match llmPendingData (lsn w) !! sk, activeTrajectories (traj w) !! sk with
  | Some pending, Some T =>
      clientInstance w <> None ->
      exists e,
        outbox w' = (outbox w ++ [e])%list /\
        event_type e = llm_call /\
        run_id e = JStr (runId T) /\
        responseText e = Some (pendingText pending)
  | _, _ => outbox w' = outbox w
  end.
Proof.
  intros HA w'. subst w'. unfold flushPendingLLMEvents.
  set (w1 := match llmDebounceTimers (lsn w) !! sk with
             | Some timer => _
             | None => w
             end).
  assert (H1 : sameCore w w1 /\ llmDebounceTimers (lsn w1) !! sk = None /\
               llmPendingData (lsn w1) = llmPendingData (lsn w) /\
               forall h, llmDebounceTimers (lsn w) !! sk = Some h -> Dead h w1).
  { subst w1. destruct (llmDebounceTimers (lsn w) !! sk) as [h|] eqn:Hh.
    - split; [|split; [|split]].
      + eapply sameCore_trans; [apply sameCore_clearTimeout|apply sameCore_updLsn].
      + simpl. apply lookup_delete_eq.
      + reflexivity.
      + intros h' [= <-]. split; simpl; [apply lookup_delete_eq|].
        exact (ha_debounce _ HA sk h Hh).
    - split; [apply sameCore_refl|]. split; [assumption|]. split; [reflexivity|].
      discriminate. }
  destruct H1 as ((Hc1 & Ht1 & Hi1) & Hd1 & Hp1 & Hdead). clearbody w1.
  rewrite Hp1.
  set (w2 := match llmPendingData (lsn w) !! sk with
             | Some pending => _
             | None => w1
             end).
  assert (H2 : Allocates w1 w2 /\
               llmDebounceTimers (lsn w2) = llmDebounceTimers (lsn w1) /\
               llmPendingData (lsn w2) !! sk = None).
  { subst w2. destruct (llmPendingData (lsn w) !! sk) as [pd|] eqn:Hpd.
    - destruct (logLLMCall_core
        {| lp_sessionKey := sk; lp_messages := []; lp_model := pendingModel pd;
           lp_provider := pendingProvider pd;
           lp_response := Some [("text", JStr (pendingText pd))];
           lp_usage := None; lp_reasoning := None; lp_error := None |} w1)
        as (_ & _ & _ & Hl).
      split; [|split].
      + eapply alloc_trans; [apply alloc_logLLMCall|]. now apply alloc_updLsn.
      + simpl. now rewrite Hl.
      + simpl. apply lookup_delete_eq.
    - split; [apply alloc_refl|]. split; [reflexivity|]. now rewrite Hp1. }
  destruct H2 as (Hal & Hd2 & Hp2).
  split; [simpl; now rewrite Hd2|]. split.
  { intros h Hh. simpl.
    exact (proj1 (dead_alloc h w1 w2 Hal (Hdead h Hh))). }
  split; [exact Hp2|]. split; [simpl; apply lookup_delete_eq|].
  assert (Hout1 : outbox w1 = outbox w) by (unfold outbox; now rewrite Hi1, Ht1).
  subst w2.
  destruct (llmPendingData (lsn w) !! sk) as [pd|] eqn:Hpd; [|exact Hout1].
  destruct (activeTrajectories (traj w) !! sk) as [T|] eqn:HT.
  - intros Hc.
    destruct (logLLMCall_active
        {| lp_sessionKey := sk; lp_messages := []; lp_model := pendingModel pd;
           lp_provider := pendingProvider pd;
           lp_response := Some [("text", JStr (pendingText pd))];
           lp_usage := None; lp_reasoning := None; lp_error := None |} w1 T)
      as (e & He1 & He2 & He3 & He4).
    { simpl. now rewrite Ht1. }
    { now rewrite Hc1. }
    exists e. rewrite <- Hout1. repeat split; assumption.
  - rewrite logLLMCall_inactive by (simpl; now rewrite Ht1). exact Hout1.
Qed.

(** ** Starting over an active trajectory *)

(** C4: when the session already has an active trajectory, [startTrajectory]
    replaces it in the store by a new one, whose run identifier is the next
    counter value and so differs from the old one in every world whose run
    identifiers were drawn from the counter; the other sessions keep
    theirs; exactly one event is made (two identifiers are drawn, the task
    identifier and one event identifier) and queued, the [task_start] of the
    new trajectory, so no [task_end] is made for the one that was
    replaced. *)
Theorem startTrajectory_overwrites (w : World) (p : StartParams) (T0 : ActiveTrajectory) :
  activeTrajectories (traj w) !! sp_sessionKey p = Some T0 ->
  let T := fst (startTrajectory p w) in
  let w' := snd (startTrajectory p w) in
  activeTrajectories (traj w') !! sp_sessionKey p = Some T /\
  runId T = pretty (runIdCounter (traj w)) /\
  (RunIdsAllocated w -> runId T <> runId T0 /\ T <> T0) /\
  (forall sk, sk <> sp_sessionKey p ->
     activeTrajectories (traj w') !! sk = activeTrajectories (traj w) !! sk) /\
  uuidCalls (host w') = S (S (uuidCalls (host w))) /\
  (clientInstance w <> None ->
   exists e,
     outbox w' = (outbox w ++ [e])%list /\
     event_type e = task_start /\
     run_id e = JStr (runId T)).
Proof.
  intros H0 T w'.
  assert (Hact : activeTrajectories (traj w') =
                 <[sp_sessionKey p := T]> (activeTrajectories (traj w))).
  { subst w'. destruct (startTrajectory_snd p w) as (pl & ->). cbv zeta.
    match goal with |- context [bufferEvent ?e ?w1] =>
      destruct (bufferEvent_core e w1) as (_ & -> & _) end.
    reflexivity. }
  split; [rewrite Hact; apply lookup_insert_eq|]. split; [reflexivity|]. split.
  { intros HR.
    assert (Hrid : runId T <> runId T0).
    { destruct (ria_active _ HR _ _ H0) as (n & [= Hn] & Hlt).
      rewrite Hn. unfold T. rewrite startTrajectory_fst. simpl.
      intros Heq. apply (inj pretty) in Heq. lia. }
    split; [exact Hrid|]. intros Heq. apply Hrid. now rewrite Heq. }
  split; [intros sk Hsk; rewrite Hact; now apply lookup_insert_ne|].
  split.
  { subst w'. destruct (startTrajectory_snd p w) as (pl & ->). cbv zeta.
    rewrite bufferEvent_uuidCalls. reflexivity. }
  intros Hc. subst w'. destruct (startTrajectory_snd p w) as (pl & ->). cbv zeta. fold T.
  eexists. split; [|split].
  - rewrite bufferEvent_outbox by exact Hc. reflexivity.
  - reflexivity.
  - reflexivity.
Qed.

(** ** Run identifiers on the wire *)

(** C9, where the code departs from it: the run identifier of a trajectory
    is the decimal string of the counter value, every event made by
    [createEvent] carries that string in [run_id], and a string is not an
    integer.  The counter itself advances by one with every
    [startTrajectory], so successive trajectories get strictly increasing
    counter values. *)
Theorem run_id_is_a_decimal_string (p : StartParams) (w : World) :
  let T := fst (startTrajectory p w) in
  let w' := snd (startTrajectory p w) in
  runId T = pretty (runIdCounter (traj w)) /\
  runIdCounter (traj w') = runIdCounter (traj w) + 1 /\
  runIdCounter (traj w) < runIdCounter (traj w') /\
  (forall ty pl w0,
     run_id (fst (createEvent T ty pl w0)) = JStr (pretty (runIdCounter (traj w))) /\
     isInteger (run_id (fst (createEvent T ty pl w0))) = false) /\
  (clientInstance w <> None ->
   exists e, outbox w' = (outbox w ++ [e])%list /\ event_type e = task_start /\
             isInteger (run_id e) = false).
Proof.
  intros T w'.
  assert (Hcnt : runIdCounter (traj w') = runIdCounter (traj w) + 1).
  { subst w'. destruct (startTrajectory_snd p w) as (pl & ->). cbv zeta.
    match goal with |- context [bufferEvent ?e ?w1] =>
      destruct (bufferEvent_core e w1) as (_ & _ & -> & _) end.
    reflexivity. }
  split; [reflexivity|]. split; [exact Hcnt|]. split; [lia|]. split.
  - intros ty pl w0. split; reflexivity.
  - intros Hc. subst w'. destruct (startTrajectory_snd p w) as (pl & ->). cbv zeta.
    eexists. split; [|split].
    + rewrite bufferEvent_outbox by exact Hc. reflexivity.
    + reflexivity.
    + reflexivity.
Qed.

(** In every reachable world, no event handed to the client has an integer
    [run_id]. *)
Lemma ingested_run_id_not_integer w batch e :
  RunIdsAllocated w -> In batch (ingestCalls (host w)) -> In e batch ->
  isInteger (run_id e) = false.
Proof.
  intros HR Hb He.
  pose proof (ria_ingest _ HR) as HF.
  rewrite Forall_forall in HF. apply list_elem_of_In in Hb. specialize (HF _ Hb).
  rewrite Forall_forall in HF. apply list_elem_of_In in He.
  destruct (HF _ He) as (n & -> & _). reflexivity.
Qed.

(** ** Debouncing assistant text *)

Lemma fragment_discard sk c rest w :
  startsWith (default "" (lastLLMTextBySession (lsn w) !! sk)) (String c rest) = true ->
  handleAssistantEvent sk (textFragment (String c rest)) w = w.
Proof. intros H. unfold handleAssistantEvent. simpl. now rewrite H. Qed.

Lemma fragment_accept sk c rest w0 w :
  sameCore w0 w ->
  startsWith (default "" (lastLLMTextBySession (lsn w) !! sk)) (String c rest) = false ->
  Armed sk (String c rest) w0 (handleAssistantEvent sk (textFragment (String c rest)) w).
Proof.
  intros (Hc & Ht & Hi) H. unfold handleAssistantEvent. simpl. rewrite H.
  destruct (llmDebounceTimers (lsn w) !! sk) as [old|]; split; simpl.
  all: try (repeat split; assumption).
  all: try (exists None, None; apply lookup_insert_eq).
  all: try apply lookup_insert_eq.
  all: exists (nextHandle (host w)), (now (host w) + LLM_DEBOUNCE_MS);
       rewrite !lookup_insert_eq; repeat split; lia.
Qed.

Lemma armed_tick sk text w0 w ms : Armed sk text w0 w -> Armed sk text w0 (tick ms w).
Proof.
  intros [(Hc & Ht & Hi) B C (h & d & D1 & D2 & D3)]. split; simpl.
  - repeat split; assumption.
  - exact B.
  - exact C.
  - exists h, d. repeat split; try assumption. lia.
Qed.

Lemma armed_next sk text c rest w0 w :
  Armed sk text w0 w ->
  startsWith text (String c rest) = false ->
  Armed sk (String c rest) w0 (handleAssistantEvent sk (textFragment (String c rest)) w).
Proof.
  intros HA H. apply fragment_accept; [exact (ar_core _ _ _ _ HA)|].
  now rewrite (ar_last _ _ _ _ HA).
Qed.

Lemma armed_settle sk text w0 w T :
  Armed sk text w0 w ->
  activeTrajectories (traj w0) !! sk = Some T ->
  clientInstance w0 <> None ->
  exists e,
    outbox (settle sk w) = (outbox w0 ++ [e])%list /\
    event_type e = llm_call /\
    run_id e = JStr (runId T) /\
    responseText e = Some text /\
    llmDebounceTimers (lsn (settle sk w)) !! sk = None /\
    llmPendingData (lsn (settle sk w)) !! sk = None.
Proof.
  intros [(Hc & Ht & Hi) (m & p & B) C (h & d & D1 & D2 & D3)] HT Hcl.
  unfold settle. cbv zeta.
  change (llmDebounceTimers (lsn (tick (Z.to_nat LLM_DEBOUNCE_MS) w)))
    with (llmDebounceTimers (lsn w)).
  rewrite D1. unfold fireTimer.
  change (timers (host (tick (Z.to_nat LLM_DEBOUNCE_MS) w))) with (timers (host w)).
  rewrite D2. cbn [due callback].
  replace (d <=? now (host (tick (Z.to_nat LLM_DEBOUNCE_MS) w))) with true
    by (symmetry; apply Z.leb_le; simpl; unfold LLM_DEBOUNCE_MS in *; lia).
  cbn [runCallback]. unfold llmDebounceFired.
  set (w1 := clearTimeout h (tick (Z.to_nat LLM_DEBOUNCE_MS) w)).
  change (llmPendingData (lsn w1)) with (llmPendingData (lsn w)). rewrite B.
  set (call := {| lp_sessionKey := sk; lp_messages := []; lp_model := _;
                  lp_provider := _; lp_response := _; lp_usage := None;
                  lp_reasoning := None; lp_error := None |}).
  destruct (logLLMCall_active call w1 T) as (e & He1 & He2 & He3 & He4).
  { simpl. now rewrite Ht. }
  { simpl. now rewrite Hc. }
  destruct (logLLMCall_core call w1) as (_ & _ & _ & Hl).
  exists e. split; [|split; [|split; [|split; [|split]]]]; try assumption.
  - change (outbox (updLsn _ (updLsn _ (logLLMCall call w1))))
      with (outbox (logLLMCall call w1)).
    rewrite He1. f_equal. unfold outbox. simpl. now rewrite Hi, Ht.
  - simpl. apply lookup_delete_eq.
  - simpl. apply lookup_delete_eq.
Qed.

Lemma afterFragments_armed sk d1 d2 w :
  startsWith (default "" (lastLLMTextBySession (lsn w) !! sk)) "abc" = false ->
  Armed sk "abc" w (afterFragments sk d1 d2 w).
Proof.
  intros Habc. unfold afterFragments.
  destruct (startsWith (default "" (lastLLMTextBySession (lsn w) !! sk)) "a") eqn:Ha.
  - rewrite (fragment_discard sk _ _ w Ha).
    destruct (startsWith (default "" (lastLLMTextBySession (lsn w) !! sk)) "ab") eqn:Hab.
    + rewrite (fragment_discard sk _ _ (tick d1 w) Hab).
      apply fragment_accept; [repeat split|exact Habc].
    + apply (armed_next sk "ab"); [|reflexivity]. apply armed_tick.
      apply fragment_accept; [repeat split|exact Hab].
  - apply (armed_next sk "ab"); [|reflexivity]. apply armed_tick.
    apply (armed_next sk "a"); [|reflexivity]. apply armed_tick.
    apply fragment_accept; [apply sameCore_refl|exact Ha].
Qed.

(** C5, as it holds: for a session with an active trajectory whose recorded
    last text does not start with abc (in particular when nothing is
    recorded), the fragments a, ab, abc handled with no debounce timer
    firing in between queue nothing, and once the settle delay has passed
    the one live debounce timer of the session queues exactly one llm_call
    event, of that trajectory, with the text abc; no timer and no pending
    text are left for the session. *)
Theorem three_fragments_settle_once
    (w : World) (sk : string) (T : ActiveTrajectory) (d1 d2 : nat) :
  activeTrajectories (traj w) !! sk = Some T ->
  clientInstance w <> None ->
  startsWith (default "" (lastLLMTextBySession (lsn w) !! sk)) "abc" = false ->
  let w3 := afterFragments sk d1 d2 w in
  outbox w3 = outbox w /\
  exists e,
    outbox (settle sk w3) = (outbox w ++ [e])%list /\
    event_type e = llm_call /\
    run_id e = JStr (runId T) /\
    responseText e = Some "abc" /\
    llmDebounceTimers (lsn (settle sk w3)) !! sk = None /\
    llmPendingData (lsn (settle sk w3)) !! sk = None.
Proof.
  intros HT Hc Hlast w3.
  pose proof (afterFragments_armed sk d1 d2 w Hlast) as HA. fold w3 in HA.
  split.
  - destruct (ar_core _ _ _ _ HA) as (_ & Ht & Hi). unfold outbox. now rewrite Ht, Hi.
  - exact (armed_settle sk "abc" w w3 T HA HT Hc).
Qed.

(** ** The last-text record *)

Lemma handleAssistantEvent_stale sk data last c text w :
  lastLLMTextBySession (lsn w) !! sk = Some last ->
  d_text data = Some (String c text) ->
  usageReported (d_usage data) = false ->
  startsWith last (String c text) = true ->
  handleAssistantEvent sk data w = w.
Proof.
  intros Hl Ht Hu Hs. unfold handleAssistantEvent.
  rewrite Hu, Ht. cbn [truthyStr negb andb].
  rewrite Bool.andb_false_r, Hl. simpl. now rewrite Hs.
Qed.

Lemma lsn_flushBuffer w : lsn (fst (flushBuffer w)) = lsn w.
Proof. apply flushBuffer_core. Qed.

Lemma lsn_emit t ty pl w :
  lsn (bufferEvent (fst (createEvent t ty pl w)) (snd (createEvent t ty pl w))) = lsn w.
Proof.
  match goal with |- context [bufferEvent ?e ?w1] =>
    destruct (bufferEvent_core e w1) as (_ & _ & _ & ->) end.
  reflexivity.
Qed.

Lemma lsn_logToolCall p w : lsn (logToolCall p w) = lsn w.
Proof.
  unfold logToolCall. destruct (activeTrajectories (traj w) !! tp_sessionKey p);
    [|reflexivity].
  rewrite createEvent_pair. apply lsn_emit.
Qed.

Lemma lsn_logAgentDefinition p w : lsn (logAgentDefinition p w) = lsn w.
Proof.
  unfold logAgentDefinition. destruct (activeTrajectories (traj w) !! ap_sessionKey p);
    [|reflexivity].
  rewrite createEvent_pair. apply lsn_emit.
Qed.

Lemma lastText_llmDebounceFired sk w :
  lastLLMTextBySession (lsn (llmDebounceFired sk w)) = lastLLMTextBySession (lsn w).
Proof.
  unfold llmDebounceFired. destruct (llmPendingData (lsn w) !! sk); [|reflexivity].
  simpl. match goal with |- context [logLLMCall ?p ?w1] =>
    destruct (logLLMCall_core p w1) as (_ & _ & _ & ->) end.
  reflexivity.
Qed.

Lemma lastText_fireTimer h w :
  lastLLMTextBySession (lsn (fireTimer h w)) = lastLLMTextBySession (lsn w).
Proof.
  unfold fireTimer. destruct (timers (host w) !! h) as [[d cb]|]; [|reflexivity].
  cbn [due callback]. destruct (d <=? now (host w)); [|reflexivity].
  destruct cb; cbn [runCallback].
  - now rewrite lsn_flushBuffer.
  - now rewrite lastText_llmDebounceFired.
Qed.

Lemma lastText_quiet_step op w :
  quiet op ->
  lastLLMTextBySession (lsn (step op w)) = lastLLMTextBySession (lsn w).
Proof.
  intros Hq. destruct op; simpl in Hq; try contradiction; cbn [step].
  - destruct (startTrajectory_snd p w) as (pl & ->). cbv zeta. now rewrite lsn_emit.
  - unfold endTrajectory. destruct (_ !! _); [|reflexivity].
    rewrite createEvent_pair, lsn_flushBuffer. cbn [lsn updTraj]. now rewrite lsn_emit.
  - now destruct (logLLMCall_core p w) as (_ & _ & _ & ->).
  - now rewrite lsn_logToolCall.
  - now rewrite lsn_logAgentDefinition.
  - now rewrite lsn_flushBuffer.
  - unfold startEventListener. now destruct (unsubscribe (lsn w)).
  - reflexivity.
  - reflexivity.
  - reflexivity.
  - apply lastText_fireTimer.
  - now destruct r.
Qed.

(** An agent event may replace the record of a session but never removes
    it. *)
Lemma record_survives_agent_event sk e w :
  is_Some (lastLLMTextBySession (lsn w) !! sk) ->
  is_Some (lastLLMTextBySession (lsn (handleAgentEvent e w)) !! sk).
Proof.
  apply (Inv_handleAgentEvent
           (fun w => is_Some (lastLLMTextBySession (lsn w) !! sk))).
  - intros f w0 Hf. simpl. now rewrite (proj2 (Hf (lsn w0))).
  - intros s text w0. simpl. rewrite lookup_insert. case_decide; eauto.
  - intros h w0. exact id.
  - intros s w0. exact id.
  - intros p w0. now destruct (logLLMCall_core p w0) as (_ & _ & _ & ->).
  - intros p w0. now rewrite lsn_logToolCall.
Qed.

(** C10: the last-text record of a session is left as it is when the
    debounce timer fires and emits (and by every step other than an agent
    event, [flushPendingLLMEvents] and [stopEventListener]; an agent event
    may replace a record by a newer text but never removes one); while the
    record is there, a text fragment for the session that the recorded text
    starts with is discarded: the world is unchanged, so nothing is queued
    and no debounce timer is started; [flushPendingLLMEvents] removes the
    record of the session, and [stopEventListener], when the listener is
    subscribed, removes all records. *)
Theorem last_text_outlives_settlement (w : World) (sk : string) :
  lastLLMTextBySession (lsn (llmDebounceFired sk w)) = lastLLMTextBySession (lsn w) /\
  (forall h, lastLLMTextBySession (lsn (fireTimer h w)) = lastLLMTextBySession (lsn w)) /\
  (forall op, quiet op ->
     lastLLMTextBySession (lsn (step op w)) = lastLLMTextBySession (lsn w)) /\
  (forall e, is_Some (lastLLMTextBySession (lsn w) !! sk) ->
     is_Some (lastLLMTextBySession (lsn (step (OpAgentEvent e) w)) !! sk)) /\
  (forall data last c text,
     lastLLMTextBySession (lsn w) !! sk = Some last ->
     d_text data = Some (String c text) ->
     usageReported (d_usage data) = false ->
     startsWith last (String c text) = true ->
     handleAssistantEvent sk data w = w) /\
  lastLLMTextBySession (lsn (flushPendingLLMEvents sk w)) !! sk = None /\
  (unsubscribe (lsn w) = true -> lastLLMTextBySession (lsn (stopEventListener w)) = ∅).
Proof.
  split; [apply lastText_llmDebounceFired|].
  split; [intros h; apply lastText_fireTimer|].
  split; [intros op; apply lastText_quiet_step|].
  split.
  { intros e Hrec. simpl. destruct (unsubscribe (lsn w)); [|exact Hrec].
    now apply record_survives_agent_event. }
  split; [intros data last c text; apply handleAssistantEvent_stale|].
  split.
  - unfold flushPendingLLMEvents. simpl. apply lookup_delete_eq.
  - intros Hsub. unfold stopEventListener. rewrite Hsub. simpl.
    apply (map_fold_weak_ind (fun r _ => lastLLMTextBySession (lsn r) = ∅)).
    + reflexivity.
    + intros k h m r _ IH. exact IH.
Qed.

(** ** The run-to-session map *)



(** ** The properties at concrete inputs *)

Lemma world0_reachable :
  world0 = run [OpInitMarloClient client0; OpStartEventListener]
             (initialWorld uuid0 iso0 1700000000000).
Proof. reflexivity. Qed.

Lemma worldS1_reachable :
  worldS1 = run [OpInitMarloClient client0; OpStartEventListener; OpStartTrajectory startS1]
              (initialWorld uuid0 iso0 1700000000000).
Proof. vm_compute. reflexivity. Qed.

Lemma worldS1_streaming_reachable :
  worldS1_streaming =
  run [OpInitMarloClient client0; OpStartEventListener; OpStartTrajectory startS1;
       OpAgentEvent (assistantText "r1" "s1" "abc")]
    (initialWorld uuid0 iso0 1700000000000).
Proof. vm_compute. reflexivity. Qed.

Lemma worldS1_settled_reachable :
  worldS1_settled =
  run [OpInitMarloClient client0; OpStartEventListener; OpStartTrajectory startS1;
       OpAgentEvent (assistantText "r1" "s1" "abcd"); OpTick 100; OpFireTimer 1]
    (initialWorld uuid0 iso0 1700000000000).
Proof. vm_compute. reflexivity. Qed.

(** With 99 tool calls between start and end the buffer fills up on the
    way: the client gets one batch of 100 events that has the [task_start]
    and a second batch that has only the [task_end]. *)
Lemma one_batch_counterexample :
  ~ one_batch_per_trajectory world0 startS1 (repeat (OpLogToolCall searchCall) 99) endS1.
Proof.
  unfold one_batch_per_trajectory. intros (batch & Hin & Hb).
  assert (H : existsb (holdsWholeTrajectory (runId (fst (startTrajectory startS1 world0))))
                (ingestCalls (host (endTrajectory endS1
                   (run (repeat (OpLogToolCall searchCall) 99)
                      (snd (startTrajectory startS1 world0)))))) = true).
  { apply existsb_exists. exists batch. split; assumption. }
  vm_compute in H. discriminate.
Qed.

Example one_batch_counterexample_batches :
  map (map event_type)
    (ingestCalls (host (endTrajectory endS1
       (run (repeat (OpLogToolCall searchCall) 99) (snd (startTrajectory startS1 world0))))))
  = [task_start :: repeat tool_call 99; [task_end]].
Proof. vm_compute. reflexivity. Qed.

Lemma trajectory_delimited_witness :
  RunIdsAllocated world0 /\
  clientInstance world0 <> None /\
  ep_sessionKey endS1 = sp_sessionKey startS1 /\
  Forall (during (sp_sessionKey startS1)) interleaved /\
  let T := fst (startTrajectory startS1 world0) in
  let w3 := endTrajectory endS1 (run interleaved (snd (startTrajectory startS1 world0))) in
  eventBuffer (traj w3) = [] /\
  activeTrajectories (traj w3) !! sp_sessionKey startS1 = None /\
  exists first mid final batch,
    List.filter (ofRun (runId T)) (concat (ingestCalls (host w3)))
      = (first :: mid ++ [final])%list /\
    event_type first = task_start /\
    event_type final = task_end /\
    Forall (fun e => isBoundary e = false) mid /\
    last (ingestCalls (host w3)) = Some batch /\
    last batch = Some final.
Proof.
  assert (HR : RunIdsAllocated world0).
  { rewrite world0_reachable. apply ria_run, ria_initialWorld. }
  assert (Hc : clientInstance world0 <> None) by (simpl; discriminate).
  assert (Hops : Forall (during (sp_sessionKey startS1)) interleaved).
  { unfold interleaved. repeat constructor; simpl; discriminate. }
  split; [exact HR|]. split; [exact Hc|]. split; [reflexivity|]. split; [exact Hops|].
  exact (trajectory_delimited_across_batches world0 startS1 interleaved endS1
           HR Hc eq_refl Hops).
Defined.

(** The text abc is pending when the trajectory is ended: the debounce timer
    stays live, and when it fires the trajectory is gone and the text is
    dropped. *)
Lemma end_keeps_debounce_counterexample :
  ~ end_flushes_debounce worldS1_streaming endS1.
Proof.
  unfold end_flushes_debounce. intros (H & _).
  vm_compute in H. discriminate.
Qed.

Example text_lost_when_ended_mid_stream :
  let w := settle "s1" (endTrajectory endS1 worldS1_streaming) in
  map event_type (concat (ingestCalls (host w))) = [task_start; task_end] /\
  eventBuffer (traj w) = [] /\
  llmPendingData (lsn w) !! "s1" = None.
Proof. vm_compute. repeat split. Qed.

Lemma flushPendingLLMEvents_witness :
  HandlesAllocated worldS1_streaming /\
  let w := worldS1_streaming in
  let sk := "s1" in
  let w' := flushPendingLLMEvents sk w in
  llmDebounceTimers (lsn w') !! sk = None /\
  (forall h, llmDebounceTimers (lsn w) !! sk = Some h -> timers (host w') !! h = None) /\
  llmPendingData (lsn w') !! sk = None /\
  lastLLMTextBySession (lsn w') !! sk = None /\
  match llmPendingData (lsn w) !! sk, activeTrajectories (traj w) !! sk with
  | Some pending, Some T =>
      clientInstance w <> None ->
      exists e,
        outbox w' = (outbox w ++ [e])%list /\
        event_type e = llm_call /\
        run_id e = JStr (runId T) /\
        responseText e = Some (pendingText pending)
  | _, _ => outbox w' = outbox w
  end.
Proof.
  assert (HA : HandlesAllocated worldS1_streaming).
  { rewrite worldS1_streaming_reachable. apply ha_run, ha_initialWorld. }
  split; [exact HA|].
  exact (flushPendingLLMEvents_settles worldS1_streaming "s1" HA).
Defined.

Example flush_before_end_keeps_the_text :
  map (fun e => (event_type e, responseText e))
    (concat (ingestCalls (host
       (endTrajectory endS1 (flushPendingLLMEvents "s1" worldS1_streaming)))))
  = [(task_start, None); (llm_call, Some "abc"); (task_end, None)].
Proof. vm_compute. reflexivity. Qed.

Lemma log_without_trajectory_witness :
  activeTrajectories (traj world0) !! "s1" = None /\
  (forall p, lp_sessionKey p = "s1" -> logLLMCall p world0 = world0) /\
  (forall p, tp_sessionKey p = "s1" -> logToolCall p world0 = world0) /\
  (forall p, ap_sessionKey p = "s1" -> logAgentDefinition p world0 = world0).
Proof.
  split; [reflexivity|].
  exact (log_without_trajectory_is_noop world0 "s1" eq_refl).
Defined.

Lemma startTrajectory_overwrites_witness :
  activeTrajectories (traj worldS1) !! sp_sessionKey startS1
    = Some (fst (startTrajectory startS1 world0)) /\
  let T0 := fst (startTrajectory startS1 world0) in
  let T := fst (startTrajectory startS1 worldS1) in
  let w' := snd (startTrajectory startS1 worldS1) in
  activeTrajectories (traj w') !! sp_sessionKey startS1 = Some T /\
  runId T = pretty (runIdCounter (traj worldS1)) /\
  (RunIdsAllocated worldS1 -> runId T <> runId T0 /\ T <> T0) /\
  (forall sk, sk <> sp_sessionKey startS1 ->
     activeTrajectories (traj w') !! sk = activeTrajectories (traj worldS1) !! sk) /\
  uuidCalls (host w') = S (S (uuidCalls (host worldS1))) /\
  (clientInstance worldS1 <> None ->
   exists e,
     outbox w' = (outbox worldS1 ++ [e])%list /\
     event_type e = task_start /\
     run_id e = JStr (runId T)).
Proof.
  assert (H0 : activeTrajectories (traj worldS1) !! sp_sessionKey startS1
               = Some (fst (startTrajectory startS1 world0))) by (vm_compute; reflexivity).
  split; [exact H0|].
  exact (startTrajectory_overwrites worldS1 startS1 _ H0).
Defined.

Example double_start_leaves_first_run_open :
  map (fun e => (event_type e, run_id e))
    (concat (ingestCalls (host
       (endTrajectory endS1 (snd (startTrajectory startS1 worldS1))))))
  = [(task_start, JStr "1700000000000"); (task_start, JStr "1700000000001");
     (task_end, JStr "1700000000001")].
Proof. vm_compute. reflexivity. Qed.

(** The text abcd was streamed and settled earlier for the session; the
    record of it is still there, the fragments a, ab, abc are all dropped
    and no event comes out of them. *)
Lemma stale_record_counterexample :
  ~ three_fragments_one_event worldS1_settled "s1" 10 10.
Proof.
  unfold three_fragments_one_event. intros H.
  destruct H as (e & He & _).
  - eexists. vm_compute. reflexivity.
  - vm_compute. discriminate.
  - apply (f_equal (@length _)) in He. rewrite length_app in He.
    vm_compute in He. discriminate.
Qed.

Lemma three_fragments_witness :
  activeTrajectories (traj worldS1) !! "s1" = Some (fst (startTrajectory startS1 world0)) /\
  clientInstance worldS1 <> None /\
  startsWith (default "" (lastLLMTextBySession (lsn worldS1) !! "s1")) "abc" = false /\
  let w := worldS1 in
  let T := fst (startTrajectory startS1 world0) in
  let w3 := afterFragments "s1" 10 20 w in
  outbox w3 = outbox w /\
  exists e,
    outbox (settle "s1" w3) = (outbox w ++ [e])%list /\
    event_type e = llm_call /\
    run_id e = JStr (runId T) /\
    responseText e = Some "abc" /\
    llmDebounceTimers (lsn (settle "s1" w3)) !! "s1" = None /\
    llmPendingData (lsn (settle "s1" w3)) !! "s1" = None.
Proof.
  assert (HT : activeTrajectories (traj worldS1) !! "s1"
               = Some (fst (startTrajectory startS1 world0))) by (vm_compute; reflexivity).
  assert (Hc : clientInstance worldS1 <> None) by (vm_compute; discriminate).
  assert (Hl : startsWith (default "" (lastLLMTextBySession (lsn worldS1) !! "s1")) "abc"
               = false) by (vm_compute; reflexivity).
  split; [exact HT|]. split; [exact Hc|]. split; [exact Hl|].
  exact (three_fragments_settle_once worldS1 "s1" _ 10 20 HT Hc Hl).
Defined.



Example lifecycle_end_after_end_stays :
  let w := step (OpAgentEvent (lifecycleEnd "r1" "s1"))
             (endTrajectory endS1 worldS1_streaming) in
  runIdToSession (lsn w) !! "r1" = Some "s1".
Proof. vm_compute. reflexivity. Qed.

Example run_id_on_the_wire :
  map run_id (concat (ingestCalls (host (endTrajectory endS1 worldS1))))
  = [JStr "1700000000000"; JStr "1700000000000"] /\
  forallb (fun e => negb (isInteger (run_id e)))
    (concat (ingestCalls (host (endTrajectory endS1 worldS1)))) = true.
Proof. vm_compute. split; reflexivity. Qed.

(** The scenario of the specification: a search tool call started and
    finished 50 ms later inside one trajectory. *)
Example search_scenario :
  let toolEvent phase result :=
    {| ev_runId := "r1"; ev_stream := "tool";
       ev_data := {| d_phase := Some phase; d_name := Some "search";
                     d_toolCallId := Some "call-1";
                     d_args := JObj [("q", JStr "x")]; d_result := result;
                     d_error := JUndefined; d_isError := JUndefined; d_text := None;
                     d_thinking := None; d_model := None; d_provider := None;
                     d_usage := None |};
       ev_sessionKey := Some "s1" |} in
  let w := endTrajectory endS1
             (run [OpAgentEvent (toolEvent "start" JUndefined); OpTick 50;
                   OpAgentEvent (toolEvent "result" (JObj [("hits", JNum 3)]))] worldS1) in
  map (fun e => (event_type e, getField "tool_name" (payload e),
                 getField "tool_input" (payload e), getField "tool_output" (payload e),
                 getField "duration_ms" (payload e), getField "status" (payload e)))
    (concat (ingestCalls (host w)))
  = [(task_start, JUndefined, JUndefined, JUndefined, JUndefined, JUndefined);
     (tool_call, JStr "search", JObj [("q", JStr "x")], JObj [("hits", JNum 3)], JNum 50,
      JUndefined);
     (task_end, JUndefined, JUndefined, JUndefined, JUndefined, JStr "success")].
Proof. vm_compute. reflexivity. Qed.

(** ** Timers stay tracked *)

Lemma tt_frame w w' :
  (nextHandle (host w) <= nextHandle (host w'))%nat ->
  timers (host w') = timers (host w) ->
  now (host w) <= now (host w') ->
  eventBuffer (traj w') = eventBuffer (traj w) ->
  flushTimer (traj w') = flushTimer (traj w) ->
  llmDebounceTimers (lsn w') = llmDebounceTimers (lsn w) ->
  llmPendingData (lsn w') = llmPendingData (lsn w) ->
  lastLLMTextBySession (lsn w') = lastLLMTextBySession (lsn w) ->
  TimersTracked w -> TimersTracked w'.
Proof.
  intros En Et Ew Eb Ef Ed Ep El [A B S F D O P L].
  constructor; rewrite ?Et, ?Eb, ?Ef, ?Ed, ?Ep, ?El; try assumption.
  - intros h t Ht. specialize (A h t Ht). lia.
  - intros h Hh. destruct (F h Hh) as (d & Hd & Hle). exists d. split; [assumption|lia].
  - intros sk h Hh. destruct (D sk h Hh) as (d & Hd & Hle). exists d. split; [assumption|lia].
Qed.

(** The flush timer is cancelled and the buffer emptied. *)
Lemma tt_cancel_flush w w' :
  (nextHandle (host w) <= nextHandle (host w'))%nat ->
  timers (host w') =
    match flushTimer (traj w) with
    | Some h => delete h (timers (host w))
    | None => timers (host w)
    end ->
  now (host w') = now (host w) ->
  eventBuffer (traj w') = [] ->
  flushTimer (traj w') = None ->
  llmDebounceTimers (lsn w') = llmDebounceTimers (lsn w) ->
  llmPendingData (lsn w') = llmPendingData (lsn w) ->
  lastLLMTextBySession (lsn w') = lastLLMTextBySession (lsn w) ->
  TimersTracked w -> TimersTracked w'.
Proof.
  intros En Et Ew Eb Ef Ed Ep El [A B S F D O P L].
  assert (Hsub : forall h t, timers (host w') !! h = Some t -> timers (host w) !! h = Some t).
  { intros h t. rewrite Et. destruct (flushTimer (traj w)); [|tauto].
    rewrite lookup_delete_Some. tauto. }
  constructor; rewrite ?Eb, ?Ef, ?Ed, ?Ep, ?El, ?Ew; try assumption.
  - intros h t Ht. specialize (A h t (Hsub h t Ht)). lia.
  - tauto.
  - simpl. lia.
  - discriminate.
  - intros sk h Hh. destruct (D sk h Hh) as (d & Hd & Hle). exists d. split; [|assumption].
    rewrite Et. destruct (flushTimer (traj w)) as [hf|] eqn:Hf; [|assumption].
    rewrite lookup_delete_ne; [assumption|].
    intros ->. destruct (F h eq_refl) as (d' & Hd' & _). congruence.
  - intros h t Ht. specialize (O h t (Hsub h t Ht)).
    destruct (callback t) eqn:Hc; [|assumption].
    rewrite Et in Ht. rewrite O in Ht. rewrite lookup_delete_eq in Ht. discriminate.
Qed.

(** An event is queued; the flush timer is set if it was not. *)
Lemma tt_queue w w' :
  nextHandle (host w') =
    match flushTimer (traj w) with
    | Some _ => nextHandle (host w)
    | None => S (nextHandle (host w))
    end ->
  timers (host w') =
    match flushTimer (traj w) with
    | Some _ => timers (host w)
    | None => <[nextHandle (host w) :=
                  mkTimer (now (host w) + flushIntervalMs BUFFER_SETTINGS) CbFlushBuffer]>
                (timers (host w))
    end ->
  now (host w') = now (host w) ->
  eventBuffer (traj w') <> [] ->
  (length (eventBuffer (traj w')) < maxSize BUFFER_SETTINGS)%nat ->
  flushTimer (traj w') = Some (default (nextHandle (host w)) (flushTimer (traj w))) ->
  llmDebounceTimers (lsn w') = llmDebounceTimers (lsn w) ->
  llmPendingData (lsn w') = llmPendingData (lsn w) ->
  lastLLMTextBySession (lsn w') = lastLLMTextBySession (lsn w) ->
  TimersTracked w -> TimersTracked w'.
Proof.
  intros En Et Ew Eb Es Ef Ed Ep El [A B S F D O P L].
  destruct (flushTimer (traj w)) as [hf|] eqn:Hf; simpl in Ef.
  - constructor; rewrite ?Et, ?En, ?Ef, ?Ed, ?Ep, ?El, ?Ew; try assumption.
    split; [contradiction|discriminate].
  - assert (Hfresh : timers (host w) !! nextHandle (host w) = None).
    { destruct (timers (host w) !! nextHandle (host w)) as [t|] eqn:Ht; [|reflexivity].
      specialize (A _ _ Ht). lia. }
    constructor; rewrite ?Et, ?En, ?Ef, ?Ed, ?Ep, ?El, ?Ew; try assumption.
    + intros h t. rewrite lookup_insert_Some. intros [[<- _]|[_ Ht]]; [lia|].
      specialize (A h t Ht). lia.
    + split; [contradiction|discriminate].
    + intros h [= <-]. eexists. rewrite lookup_insert_eq. split; [reflexivity|lia].
    + intros sk h Hh. destruct (D sk h Hh) as (d & Hd & Hle). exists d. split; [|assumption].
      rewrite lookup_insert_ne; [assumption|]. intros <-. congruence.
    + intros h t. rewrite lookup_insert_Some. intros [[<- <-]|[Hne Ht]]; [reflexivity|].
      specialize (O h t Ht). destruct (callback t); [congruence|assumption].
Qed.

Lemma tt_flushBuffer w : TimersTracked w -> TimersTracked (fst (flushBuffer w)).
Proof.
  intros HT. apply (tt_cancel_flush w); try assumption.
  - destruct (eventBuffer (traj w)) as [|e l] eqn:Hb.
    + rewrite flushBuffer_empty by assumption. destruct (flushTimer (traj w)); simpl; lia.
    + rewrite flushBuffer_nonempty by (rewrite Hb; discriminate). simpl.
      destruct (clientInstance w), (flushTimer (traj w)); simpl; lia.
  - destruct (eventBuffer (traj w)) as [|e l] eqn:Hb.
    + rewrite flushBuffer_empty by assumption. destruct (flushTimer (traj w)); reflexivity.
    + rewrite flushBuffer_nonempty by (rewrite Hb; discriminate). simpl.
      destruct (clientInstance w), (flushTimer (traj w)); reflexivity.
  - destruct (eventBuffer (traj w)) as [|e l] eqn:Hb.
    + rewrite flushBuffer_empty by assumption. destruct (flushTimer (traj w)); reflexivity.
    + rewrite flushBuffer_nonempty by (rewrite Hb; discriminate). simpl.
      destruct (clientInstance w), (flushTimer (traj w)); reflexivity.
  - apply flushBuffer_buffer.
  - apply flushBuffer_flushTimer.
  - now rewrite lsn_flushBuffer.
  - now rewrite lsn_flushBuffer.
  - now rewrite lsn_flushBuffer.
Qed.

Lemma tt_bufferEvent e w : TimersTracked w -> TimersTracked (bufferEvent e w).
Proof.
  intros HT. rewrite bufferEvent_unfold. cbv zeta.
  assert (Hne : (eventBuffer (traj w) ++ [e])%list <> [])
    by (destruct (eventBuffer (traj w)); discriminate).
  assert (Hlen : length (eventBuffer (traj w) ++ [e])%list = S (length (eventBuffer (traj w)))).
  { rewrite length_app. simpl. lia. }
  destruct (Nat.leb_spec (maxSize BUFFER_SETTINGS) (S (length (eventBuffer (traj w)))))
    as [Hfull|Hroom].
  - assert (Hfresh : timers (host w) !! nextHandle (host w) = None).
    { destruct (timers (host w) !! nextHandle (host w)) as [t|] eqn:Ht; [|reflexivity].
      apply (tt_alloc w HT) in Ht. lia. }
    apply (tt_cancel_flush w); try assumption;
      try apply flushBuffer_buffer; try apply flushBuffer_flushTimer;
      try (rewrite lsn_flushBuffer; destruct (flushTimer (traj w)); reflexivity);
      rewrite flushBuffer_nonempty by (destruct (flushTimer (traj w)); exact Hne);
      destruct (flushTimer (traj w)) as [hf|] eqn:Hf; simpl; rewrite ?Hf;
      destruct (clientInstance w); simpl; try lia; try reflexivity;
      now rewrite delete_insert_id.
  - apply (tt_queue w); try assumption;
      destruct (flushTimer (traj w)) as [hf|] eqn:Hf; try reflexivity;
      try exact Hne; try (simpl; rewrite ?Hf; reflexivity);
      change (length (eventBuffer (traj w) ++ [e]) < maxSize BUFFER_SETTINGS)%nat;
      rewrite Hlen; exact Hroom.
Qed.

Lemma tt_emit t ty pl w :
  TimersTracked w ->
  TimersTracked (bufferEvent (fst (createEvent t ty pl w)) (snd (createEvent t ty pl w))).
Proof.
  intros HT. apply tt_bufferEvent. rewrite createEvent_snd.
  apply (tt_frame w); try reflexivity; try assumption; simpl; lia.
Qed.

Lemma tt_logLLMCall p w : TimersTracked w -> TimersTracked (logLLMCall p w).
Proof.
  intros HT. unfold logLLMCall.
  destruct (activeTrajectories (traj w) !! lp_sessionKey p); [|assumption].
  rewrite createEvent_pair. now apply tt_emit.
Qed.

Lemma tt_logToolCall p w : TimersTracked w -> TimersTracked (logToolCall p w).
Proof.
  intros HT. unfold logToolCall.
  destruct (activeTrajectories (traj w) !! tp_sessionKey p); [|assumption].
  rewrite createEvent_pair. now apply tt_emit.
Qed.

Lemma tt_logAgentDefinition p w :
  TimersTracked w -> TimersTracked (logAgentDefinition p w).
Proof.
  intros HT. unfold logAgentDefinition.
  destruct (activeTrajectories (traj w) !! ap_sessionKey p); [|assumption].
  rewrite createEvent_pair. now apply tt_emit.
Qed.

Lemma tt_updTraj_store (f : gmap string ActiveTrajectory -> gmap string ActiveTrajectory) w :
  TimersTracked w ->
  TimersTracked (updTraj (fun s => setActiveTrajectories (f (activeTrajectories s)) s) w).
Proof. intros HT. apply (tt_frame w); try reflexivity; try assumption; simpl; lia. Qed.

Lemma tt_startTrajectory p w : TimersTracked w -> TimersTracked (snd (startTrajectory p w)).
Proof.
  intros HT. destruct (startTrajectory_snd p w) as (pl & ->). cbv zeta.
  apply tt_emit. apply tt_updTraj_store.
  apply (tt_frame w); try reflexivity; try assumption; simpl; lia.
Qed.

Lemma tt_endTrajectory p w : TimersTracked w -> TimersTracked (endTrajectory p w).
Proof.
  intros HT. unfold endTrajectory.
  destruct (activeTrajectories (traj w) !! ep_sessionKey p); [|assumption].
  rewrite createEvent_pair.
  apply tt_flushBuffer.
  apply (tt_updTraj_store (delete (ep_sessionKey p))).
  now apply tt_emit.
Qed.
(** *** The listener's side *)

Lemma tt_updLsn f w :
  (forall s, llmDebounceTimers (f s) = llmDebounceTimers s /\
             llmPendingData (f s) = llmPendingData s /\
             lastLLMTextBySession (f s) = lastLLMTextBySession s) ->
  TimersTracked w -> TimersTracked (updLsn f w).
Proof.
  intros Hf HT. destruct (Hf (lsn w)) as (H1 & H2 & H3).
  apply (tt_frame w); try reflexivity; try assumption; simpl; lia.
Qed.

(** trajectory.ts never reads the state of the listener. *)
Lemma flushBuffer_updLsn f w :
  flushBuffer (updLsn f w) = (updLsn f (fst (flushBuffer w)), snd (flushBuffer w)).
Proof.
  unfold flushBuffer, getMarloClient. simpl.
  destruct (flushTimer (traj w)); simpl;
    destruct (eventBuffer (traj w)); simpl; try reflexivity;
    destruct (clientInstance w); reflexivity.
Qed.

Lemma bufferEvent_updLsn e f w : bufferEvent e (updLsn f w) = updLsn f (bufferEvent e w).
Proof.
  rewrite !bufferEvent_unfold. cbv zeta.
  change (eventBuffer (traj (updLsn f w))) with (eventBuffer (traj w)).
  change (flushTimer (traj (updLsn f w))) with (flushTimer (traj w)).
  destruct (_ <=? _)%nat.
  - destruct (flushTimer (traj w)).
    + change (updTraj ?g (updLsn f w)) with (updLsn f (updTraj g w)).
      now rewrite flushBuffer_updLsn.
    + match goal with
      | |- fst (flushBuffer ?x) = updLsn f (fst (flushBuffer ?y)) =>
          change x with (updLsn f y)
      end.
      now rewrite flushBuffer_updLsn.
  - destruct (flushTimer (traj w)); reflexivity.
Qed.

Lemma logLLMCall_updLsn p f w : logLLMCall p (updLsn f w) = updLsn f (logLLMCall p w).
Proof.
  unfold logLLMCall. change (traj (updLsn f w)) with (traj w).
  destruct (activeTrajectories (traj w) !! lp_sessionKey p) as [t|]; [|reflexivity].
  match goal with
  | |- context [createEvent t ?ty ?pl w] =>
      exact (bufferEvent_updLsn (fst (createEvent t ty pl w)) f (snd (createEvent t ty pl w)))
  end.
Qed.

(** The debounce timer of a session is cancelled and its pending text
    dropped. *)
Lemma tt_cancel_debounce sk w w' :
  nextHandle (host w') = nextHandle (host w) ->
  timers (host w') =
    match llmDebounceTimers (lsn w) !! sk with
    | Some h => delete h (timers (host w))
    | None => timers (host w)
    end ->
  now (host w') = now (host w) ->
  eventBuffer (traj w') = eventBuffer (traj w) ->
  flushTimer (traj w') = flushTimer (traj w) ->
  (forall sk', llmDebounceTimers (lsn w') !! sk' =
               if decide (sk = sk') then None else llmDebounceTimers (lsn w) !! sk') ->
  (forall sk', llmPendingData (lsn w') !! sk' =
               if decide (sk = sk') then None else llmPendingData (lsn w) !! sk') ->
  (forall sk', sk <> sk' ->
               lastLLMTextBySession (lsn w') !! sk' = lastLLMTextBySession (lsn w) !! sk') ->
  TimersTracked w -> TimersTracked w'.
Proof.
  intros En Et Ew Eb Ef Ed Ep El [A B S F D O P L].
  assert (Hsub : forall h t, timers (host w') !! h = Some t -> timers (host w) !! h = Some t).
  { intros h t. rewrite Et. destruct (llmDebounceTimers (lsn w) !! sk); [|tauto].
    rewrite lookup_delete_Some. tauto. }
  constructor; rewrite ?En, ?Eb, ?Ef, ?Ew; try assumption.
  - intros h t Ht. exact (A h t (Hsub h t Ht)).
  - intros hf Hf. destruct (F hf Hf) as (d & Hd & Hle). exists d. split; [|assumption].
    rewrite Et. destruct (llmDebounceTimers (lsn w) !! sk) as [h|] eqn:Hm; [|assumption].
    rewrite lookup_delete_ne; [assumption|].
    intros ->. destruct (D sk hf Hm) as (d' & Hd' & _). congruence.
  - intros sk' h. rewrite Ed. destruct (decide (sk = sk')) as [|Hne]; [discriminate|].
    intros Hh. destruct (D sk' h Hh) as (d & Hd & Hle). exists d. split; [|assumption].
    rewrite Et. destruct (llmDebounceTimers (lsn w) !! sk) as [h0|] eqn:Hm; [|assumption].
    rewrite lookup_delete_ne; [assumption|].
    intros ->. destruct (D sk h Hm) as (d' & Hd' & _). congruence.
  - intros h t Ht. specialize (O h t (Hsub h t Ht)).
    destruct (callback t) as [|sk'] eqn:Hc; [assumption|].
    rewrite Ed. destruct (decide (sk = sk')) as [<-|Hne]; [|assumption].
    rewrite Et, O in Ht. rewrite lookup_delete_eq in Ht. discriminate.
  - intros sk'. rewrite Ed, Ep. destruct (decide (sk = sk')); [|apply P].
    split; intros [x Hx]; discriminate.
  - intros sk' p. rewrite Ep. destruct (decide (sk = sk')) as [|Hne]; [discriminate|].
    rewrite El by assumption. apply L.
Qed.

(** Text is accepted for a session: its debounce timer is set anew. *)
Lemma tt_arm_debounce sk p w w' :
  nextHandle (host w') = S (nextHandle (host w)) ->
  timers (host w') =
    <[nextHandle (host w) := mkTimer (now (host w) + LLM_DEBOUNCE_MS) (CbLLMDebounce sk)]>
      (match llmDebounceTimers (lsn w) !! sk with
       | Some h => delete h (timers (host w))
       | None => timers (host w)
       end) ->
  now (host w') = now (host w) ->
  eventBuffer (traj w') = eventBuffer (traj w) ->
  flushTimer (traj w') = flushTimer (traj w) ->
  llmDebounceTimers (lsn w') = <[sk := nextHandle (host w)]> (llmDebounceTimers (lsn w)) ->
  llmPendingData (lsn w') = <[sk := p]> (llmPendingData (lsn w)) ->
  lastLLMTextBySession (lsn w') = <[sk := pendingText p]> (lastLLMTextBySession (lsn w)) ->
  TimersTracked w -> TimersTracked w'.
Proof.
  intros En Et Ew Eb Ef Ed Ep El [A B S F D O P L].
  set (old := match llmDebounceTimers (lsn w) !! sk with
              | Some h => delete h (timers (host w))
              | None => timers (host w)
              end) in *.
  assert (Hsub : forall h t, old !! h = Some t -> timers (host w) !! h = Some t).
  { intros h t. subst old. destruct (llmDebounceTimers (lsn w) !! sk); [|tauto].
    rewrite lookup_delete_Some. tauto. }
  assert (Hkeep : forall h t, timers (host w) !! h = Some t ->
            llmDebounceTimers (lsn w) !! sk <> Some h -> old !! h = Some t).
  { intros h t Ht Hn. subst old. destruct (llmDebounceTimers (lsn w) !! sk) as [h0|]; [|assumption].
    rewrite lookup_delete_ne; [assumption|congruence]. }
  constructor; rewrite ?En, ?Et, ?Eb, ?Ef, ?Ed, ?Ep, ?El, ?Ew; try assumption.
  - intros h t. rewrite lookup_insert_Some. intros [[<- _]|[_ Ht]]; [lia|].
    specialize (A h t (Hsub h t Ht)). lia.
  - intros hf Hf. destruct (F hf Hf) as (d & Hd & Hle). exists d. split; [|assumption].
    rewrite lookup_insert_ne.
    + apply Hkeep; [assumption|]. intros Hm. destruct (D sk hf Hm) as (d' & Hd' & _). congruence.
    + intros <-. specialize (A _ _ Hd). lia.
  - intros sk' h. rewrite lookup_insert_Some. intros [[<- <-]|[Hne Hh]].
    + eexists. rewrite lookup_insert_eq. split; [reflexivity|lia].
    + destruct (D sk' h Hh) as (d & Hd & Hle). exists d. split; [|assumption].
      rewrite lookup_insert_ne.
      * apply Hkeep; [assumption|]. intros Hm.
        destruct (D sk h Hm) as (d' & Hd' & _). congruence.
      * intros <-. specialize (A _ _ Hd). lia.
  - intros h t. rewrite lookup_insert_Some. intros [[<- <-]|[Hne Ht]].
    + simpl. apply lookup_insert_eq.
    + assert (Ht' := Hsub h t Ht). specialize (O h t Ht').
      destruct (callback t) as [|sk'] eqn:Hc; [assumption|].
      rewrite lookup_insert_ne; [assumption|].
      intros <-. subst old. rewrite O in Ht. rewrite lookup_delete_eq in Ht. discriminate.
  - intros sk'. destruct (decide (sk = sk')) as [<-|Hne].
    + rewrite !lookup_insert_eq. split; intros _; eexists; reflexivity.
    + rewrite !lookup_insert_ne by assumption. apply P.
  - intros sk' q. destruct (decide (sk = sk')) as [<-|Hne].
    + rewrite !lookup_insert_eq. congruence.
    + rewrite !lookup_insert_ne by assumption. apply L.
Qed.

Lemma tt_handleToolEvent sk data w :
  TimersTracked w -> TimersTracked (handleToolEvent sk data w).
Proof.
  intros HT. unfold handleToolEvent.
  destruct (d_name data) as [[|c name]|]; try assumption.
  destruct (phaseIs (d_phase data) "start").
  { destruct (d_toolCallId data) as [[|c' id]|]; try assumption.
    apply tt_updLsn; [intros s; repeat split|].
    apply tt_updLsn; [intros s; repeat split|]. assumption. }
  destruct (phaseIs (d_phase data) "result" || phaseIs (d_phase data) "end"
            || phaseIs (d_phase data) "error"); try assumption.
  destruct (if truthyStr (d_toolCallId data)
            then toolStartTimes (lsn w) !! default "" (d_toolCallId data)
            else None) as [t0|];
    destruct (truthyStr (d_toolCallId data));
    apply tt_logToolCall;
    repeat (apply tt_updLsn; [intros s; repeat split|]); assumption.
Qed.

Lemma tt_handleAssistantEvent sk data w :
  TimersTracked w -> TimersTracked (handleAssistantEvent sk data w).
Proof.
  intros HT. unfold handleAssistantEvent.
  destruct (usageReported (d_usage data)); [now apply tt_logLLMCall|].
  destruct (negb (truthyStr (d_text data)) && negb (truthyStr (d_thinking data)));
    [assumption|].
  destruct (truthyStr (d_thinking data) && negb (truthyStr (d_text data)));
    [now apply tt_logLLMCall|].
  destruct (d_text data) as [[|c text]|]; try assumption.
  destruct (startsWith _ _); [assumption|].
  apply (tt_arm_debounce sk (mkPending (String c text) (d_model data) (d_provider data)) w);
    try assumption;
    cbn [updLsn lsn llmDebounceTimers setLlmPendingData setLastLLMTextBySession];
    destruct (llmDebounceTimers (lsn w) !! sk); reflexivity.
Qed.

Lemma tt_handleAgentEvent e w : TimersTracked w -> TimersTracked (handleAgentEvent e w).
Proof.
  intros HT. unfold handleAgentEvent.
  destruct (getMarloClient w); [|assumption].
  set (w1 := match ev_sessionKey e with
             | Some (String _ _ as sk) => _
             | _ => w
             end).
  assert (H1 : TimersTracked w1).
  { subst w1. destruct (ev_sessionKey e) as [[|c s]|]; try assumption.
    apply tt_updLsn; [intros s0; repeat split|]. assumption. }
  clearbody w1.
  destruct (match ev_sessionKey e with
            | Some sk => Some sk
            | None => runIdToSession (lsn w1) !! ev_runId e
            end) as [[|c r]|]; try assumption.
  destruct (negb (hasActiveTrajectory _ w1)); [assumption|].
  destruct (String.eqb (ev_stream e) "tool"); [now apply tt_handleToolEvent|].
  destruct (String.eqb (ev_stream e) "assistant"); [now apply tt_handleAssistantEvent|].
  destruct (String.eqb (ev_stream e) "lifecycle"); [|assumption].
  unfold handleLifecycleEvent. destruct (phaseIs _ _); [|assumption].
  apply tt_updLsn; [intros s0; repeat split|]. assumption.
Qed.
(** The debounce callback, with the bookkeeping moved before the log call. *)
Lemma llmDebounceFired_unfold sk w :
  llmDebounceFired sk w =
  match llmPendingData (lsn w) !! sk with
  | Some pending =>
      logLLMCall
        {| lp_sessionKey := sk; lp_messages := [];
           lp_model := pendingModel pending; lp_provider := pendingProvider pending;
           lp_response := Some [("text", JStr (pendingText pending))];
           lp_usage := None; lp_reasoning := None; lp_error := None |}
        (updLsn (fun s => setLlmDebounceTimers (delete sk (llmDebounceTimers s)) s)
           (updLsn (fun s => setLlmPendingData (delete sk (llmPendingData s)) s) w))
  | None => updLsn (fun s => setLlmDebounceTimers (delete sk (llmDebounceTimers s)) s) w
  end.
Proof.
  unfold llmDebounceFired. destruct (llmPendingData (lsn w) !! sk); [|reflexivity].
  symmetry. etransitivity; [apply logLLMCall_updLsn|]. f_equal. apply logLLMCall_updLsn.
Qed.

Lemma flushPendingLLMEvents_unfold sk w :
  flushPendingLLMEvents sk w =
  let w1 :=
    updLsn (fun s => setLastLLMTextBySession (delete sk (lastLLMTextBySession s)) s)
      (updLsn (fun s => setLlmPendingData (delete sk (llmPendingData s)) s)
         (updLsn (fun s => setLlmDebounceTimers (delete sk (llmDebounceTimers s)) s)
            (match llmDebounceTimers (lsn w) !! sk with
             | Some timer => clearTimeout timer w
             | None => w
             end))) in
  match llmPendingData (lsn w) !! sk with
  | Some pending =>
      logLLMCall
        {| lp_sessionKey := sk; lp_messages := [];
           lp_model := pendingModel pending; lp_provider := pendingProvider pending;
           lp_response := Some [("text", JStr (pendingText pending))];
           lp_usage := None; lp_reasoning := None; lp_error := None |} w1
  | None => w1
  end.
Proof.
  unfold flushPendingLLMEvents. cbv zeta.
  destruct (llmDebounceTimers (lsn w) !! sk) as [h|] eqn:Hm;
    cbn [lsn updLsn clearTimeout updHost llmPendingData setLlmDebounceTimers];
    destruct (llmPendingData (lsn w) !! sk) as [pending|] eqn:Hp.
  - symmetry. etransitivity; [apply logLLMCall_updLsn|]. f_equal.
    etransitivity; [apply logLLMCall_updLsn|]. reflexivity.
  - unfold updLsn, setLlmDebounceTimers, setLlmPendingData, setLastLLMTextBySession.
    cbn [lsn llmDebounceTimers llmPendingData lastLLMTextBySession toolStartTimes
         toolInputsById runIdToSession unsubscribe host clientInstance traj
         clearTimeout updHost].
    rewrite (delete_id (llmPendingData (lsn w))) by assumption.
    destruct w as [hw cw tw [a b c d e f g]]; reflexivity.
  - symmetry. etransitivity; [apply logLLMCall_updLsn|]. f_equal.
    etransitivity; [apply logLLMCall_updLsn|]. f_equal. f_equal.
    unfold updLsn, setLlmDebounceTimers. cbn [lsn llmDebounceTimers].
    rewrite (delete_id (llmDebounceTimers (lsn w))) by assumption.
    destruct w as [hw cw tw [a b c d e f g]]; reflexivity.
  - unfold updLsn, setLlmDebounceTimers, setLlmPendingData, setLastLLMTextBySession.
    cbn [lsn llmDebounceTimers llmPendingData lastLLMTextBySession toolStartTimes
         toolInputsById runIdToSession unsubscribe host clientInstance traj].
    rewrite (delete_id (llmDebounceTimers (lsn w))) by assumption.
    rewrite (delete_id (llmPendingData (lsn w))) by assumption.
    destruct w as [hw cw tw [a b c d e f g]]; reflexivity.
Qed.

Lemma tt_fireTimer h w : TimersTracked w -> TimersTracked (fireTimer h w).
Proof.
  intros HT. unfold fireTimer.
  destruct (timers (host w) !! h) as [[d cb]|] eqn:Ht; [|assumption].
  simpl. destruct (d <=? now (host w)); [|assumption].
  assert (Ho := tt_owner w HT h _ Ht). simpl in Ho.
  destruct cb as [|sk]; simpl.
  - (* the flush timer *)
    apply (tt_cancel_flush w); try assumption;
      try apply flushBuffer_buffer; try apply flushBuffer_flushTimer;
      try (rewrite lsn_flushBuffer; reflexivity).
    + destruct (eventBuffer (traj w)) as [|e l] eqn:Hb.
      * rewrite flushBuffer_empty by assumption. simpl. rewrite Ho. simpl. lia.
      * rewrite flushBuffer_nonempty by (simpl; rewrite Hb; discriminate). simpl.
        rewrite Ho. destruct (clientInstance w); simpl; lia.
    + rewrite Ho.
      destruct (eventBuffer (traj w)) as [|e l] eqn:Hb.
      * rewrite flushBuffer_empty by assumption. simpl. rewrite Ho. simpl.
        apply delete_delete_eq.
      * rewrite flushBuffer_nonempty by (simpl; rewrite Hb; discriminate). simpl.
        rewrite Ho. destruct (clientInstance w); simpl; apply delete_delete_eq.
    + destruct (eventBuffer (traj w)) as [|e l] eqn:Hb.
      * rewrite flushBuffer_empty by assumption. simpl. rewrite Ho. reflexivity.
      * rewrite flushBuffer_nonempty by (simpl; rewrite Hb; discriminate). simpl.
        rewrite Ho. destruct (clientInstance w); reflexivity.
  - (* the debounce timer of [sk] *)
    rewrite llmDebounceFired_unfold.
    assert (HT' : TimersTracked
              (updLsn (fun s => setLlmDebounceTimers (delete sk (llmDebounceTimers s)) s)
                 (updLsn (fun s => setLlmPendingData (delete sk (llmPendingData s)) s)
                    (clearTimeout h w)))).
    { apply (tt_cancel_debounce sk w); try assumption; try reflexivity.
      - simpl. now rewrite Ho.
      - intros sk'. simpl. apply lookup_delete.
      - intros sk'. simpl. apply lookup_delete. }
    change (llmPendingData (lsn (clearTimeout h w))) with (llmPendingData (lsn w)).
    destruct (llmPendingData (lsn w) !! sk) as [pending|] eqn:Hp.
    + now apply tt_logLLMCall.
    + destruct (tt_pending w HT sk) as [_ Hx].
      destruct Hx as [x Hx]; [eexists; exact Ho|]. congruence.
Qed.

Lemma tt_flushPendingLLMEvents sk w :
  TimersTracked w -> TimersTracked (flushPendingLLMEvents sk w).
Proof.
  intros HT. rewrite flushPendingLLMEvents_unfold. cbv zeta.
  match goal with
  | |- TimersTracked match _ with Some _ => logLLMCall _ ?x | None => _ end =>
      assert (HT' : TimersTracked x)
  end.
  { apply (tt_cancel_debounce sk w); try assumption;
      try (destruct (llmDebounceTimers (lsn w) !! sk); reflexivity).
    - intros sk'. destruct (llmDebounceTimers (lsn w) !! sk); simpl; apply lookup_delete.
    - intros sk'. destruct (llmDebounceTimers (lsn w) !! sk); simpl; apply lookup_delete.
    - intros sk' Hne.
      destruct (llmDebounceTimers (lsn w) !! sk); simpl; now apply lookup_delete_ne. }
  destruct (llmPendingData (lsn w) !! sk); [now apply tt_logLLMCall|assumption].
Qed.

(** What the loop of [stopEventListener] over the debounce timers does:
    the timers named in the map are gone, nothing else changes. *)
Lemma clearAll_spec (m : gmap string nat) w :
  let w' := map_fold (fun _ timer w => clearTimeout timer w) w m in
  traj w' = traj w /\ lsn w' = lsn w /\ clientInstance w' = clientInstance w /\
  nextHandle (host w') = nextHandle (host w) /\ now (host w') = now (host w) /\
  ingestCalls (host w') = ingestCalls (host w) /\
  uuidCalls (host w') = uuidCalls (host w) /\
  warnings (host w') = warnings (host w) /\
  (forall h t, timers (host w') !! h = Some t <->
               timers (host w) !! h = Some t /\ forall sk, m !! sk <> Some h).
Proof.
  cbv zeta.
  apply (map_fold_weak_ind (fun (r : World) (m : gmap string nat) =>
    traj r = traj w /\ lsn r = lsn w /\ clientInstance r = clientInstance w /\
    nextHandle (host r) = nextHandle (host w) /\ now (host r) = now (host w) /\
    ingestCalls (host r) = ingestCalls (host w) /\
    uuidCalls (host r) = uuidCalls (host w) /\
    warnings (host r) = warnings (host w) /\
    (forall h t, timers (host r) !! h = Some t <->
                 timers (host w) !! h = Some t /\ forall sk, m !! sk <> Some h))).
  - repeat split; try tauto.
    intros sk. rewrite lookup_empty. discriminate.
  - intros sk h m' r Hfresh (H1 & H2 & H3 & H4 & H5 & H6 & H7 & H8 & H9).
    repeat (split; [assumption|]).
    intros h0 t. simpl. rewrite lookup_delete_Some, H9. split.
    + intros [Hne [Ht Hn]]. split; [assumption|]. intros sk0.
      destruct (decide (sk = sk0)) as [<-|Hsk].
      * rewrite lookup_insert_eq. congruence.
      * rewrite lookup_insert_ne by assumption. apply Hn.
    + intros [Ht Hn]. split.
      * intros <-. apply (Hn sk), lookup_insert_eq.
      * split; [assumption|]. intros sk' Hsk'. apply (Hn sk').
        rewrite lookup_insert_ne; [assumption|]. intros <-. congruence.
Qed.

Lemma tt_stopEventListener w : TimersTracked w -> TimersTracked (stopEventListener w).
Proof.
  intros HT. unfold stopEventListener.
  destruct (unsubscribe (lsn w)); [|assumption].
  match goal with
  | |- context [map_fold ?f ?x ?m] =>
      destruct (clearAll_spec m x) as (H1 & H2 & H3 & H4 & H5 & _ & _ & _ & H9);
      set (w1 := map_fold f x m) in *
  end.
  cbn [lsn updLsn llmDebounceTimers setLastLLMTextBySession setRunIdToSession
       setToolInputsById setToolStartTimes setUnsubscribe] in H9.
  destruct HT as [A B S F D O P L].
  constructor; cbn [host traj lsn updLsn llmDebounceTimers llmPendingData
                    lastLLMTextBySession setLlmPendingData setLlmDebounceTimers];
    rewrite ?H1, ?H4, ?H5; try assumption.
  - intros h t Ht. apply H9 in Ht. apply (A h t). tauto.
  - intros hf Hf. destruct (F hf Hf) as (d & Hd & Hle). exists d. split; [|assumption].
    apply H9. split; [assumption|]. intros sk Hm.
    destruct (D sk hf Hm) as (d' & Hd' & _). congruence.
  - intros sk h. rewrite lookup_empty. discriminate.
  - intros h t Ht. apply H9 in Ht. destruct Ht as [Ht Hn].
    specialize (O h t Ht). destruct (callback t) as [|sk]; [assumption|].
    destruct (Hn sk O).
  - intros sk. rewrite !lookup_empty. split; intros [x Hx]; discriminate.
  - intros sk p. rewrite lookup_empty. discriminate.
Qed.

Lemma tt_step op w : TimersTracked w -> TimersTracked (step op w).
Proof.
  intros HT. destruct op as [p|p|p|p|p| |e| | |sk0|c| |ms|h|r]; simpl.
  - now apply tt_startTrajectory.
  - now apply tt_endTrajectory.
  - now apply tt_logLLMCall.
  - now apply tt_logToolCall.
  - now apply tt_logAgentDefinition.
  - now apply tt_flushBuffer.
  - destruct (unsubscribe (lsn w)); [now apply tt_handleAgentEvent|assumption].
  - unfold startEventListener. destruct (unsubscribe (lsn w)); [assumption|].
    apply tt_updLsn; [intros s; repeat split|]. assumption.
  - now apply tt_stopEventListener.
  - now apply tt_flushPendingLLMEvents.
  - apply (tt_frame w); try reflexivity; try assumption; simpl; lia.
  - apply (tt_frame w); try reflexivity; try assumption; simpl; lia.
  - apply (tt_frame w); try reflexivity; try assumption; simpl; lia.
  - now apply tt_fireTimer.
  - destruct r; [assumption|].
    apply (tt_frame w); try reflexivity; try assumption; simpl; lia.
Qed.

Lemma tt_run ops w : TimersTracked w -> TimersTracked (run ops w).
Proof.
  revert w. induction ops as [|op ops IH]; intros w HT; [assumption|].
  simpl. apply IH. now apply tt_step.
Qed.

Lemma tt_initialWorld uuid iso t0 : TimersTracked (initialWorld uuid iso t0).
Proof.
  constructor; simpl; try tauto; try lia.
  - intros h t. rewrite lookup_empty. discriminate.
  - discriminate.
  - intros sk h. rewrite lookup_empty. discriminate.
  - intros h t. rewrite lookup_empty. discriminate.
  - intros sk. rewrite !lookup_empty. split; intros [x Hx]; discriminate.
  - intros sk p. rewrite lookup_empty. discriminate.
Qed.

Lemma reachable_timersTracked w : Reachable w -> TimersTracked w.
Proof. intros (uuid & iso & t0 & ops & ->). apply tt_run, tt_initialWorld. Qed.
(** ** Buffered events and pending text are not stranded *)

(** In every reachable world with events in the buffer, the flush timer is
    set and live, due at most [flushIntervalMs] = 5000 ms from now; once
    that time has passed, the timer firing empties the buffer and, when a
    client is there, hands it the buffered events as one batch. *)
Theorem buffered_events_are_flushed_in_time (w : World) :
  Reachable w ->
  eventBuffer (traj w) <> [] ->
  exists h d,
    flushTimer (traj w) = Some h /\
    timers (host w) !! h = Some (mkTimer d CbFlushBuffer) /\
    d <= now (host w) + 5000 /\
    forall ms, 5000 <= Z.of_nat ms ->
      let w' := fireTimer h (tick ms w) in
      eventBuffer (traj w') = [] /\
      flushTimer (traj w') = None /\
      timers (host w') !! h = None /\
      (clientInstance w <> None ->
       ingestCalls (host w') = (ingestCalls (host w) ++ [eventBuffer (traj w)])%list).
Proof.
  intros HR Hne. assert (HT := reachable_timersTracked w HR).
  destruct (flushTimer (traj w)) as [h|] eqn:Hf.
  2: { apply (tt_buffer w HT) in Hf. contradiction. }
  destruct (tt_flush w HT h Hf) as (d & Hd & Hle).
  change (flushIntervalMs BUFFER_SETTINGS) with 5000 in Hle.
  exists h, d. repeat split; try assumption.
  all: intros; rewrite (fireTimer_flush h d) by exact Hd;
    change (now (host (tick ms w))) with (now (host w) + Z.of_nat ms);
    destruct (Z.leb_spec d (now (host w) + Z.of_nat ms)) as [_|Hlt]; [|lia].
  - apply flushBuffer_buffer.
  - apply flushBuffer_flushTimer.
  - rewrite flushBuffer_nonempty by exact Hne. simpl. rewrite Hf.
    destruct (clientInstance w); simpl; rewrite delete_delete_eq; apply lookup_delete_eq.
  - rewrite flushBuffer_nonempty by exact Hne. simpl. rewrite Hf.
    destruct (clientInstance w); [reflexivity|contradiction].
Qed.

(** The timers of the two modules stay tracked.  In every reachable world
    a live timer whose callback is the flush callback of [bufferEvent] is
    the one recorded in [flushTimer], and then the buffer is not empty; a
    live timer whose callback is the debounce callback of a session is the
    one recorded for that session in [llmDebounceTimers], and then the
    session has pending text; each is due within its delay.  So neither
    trajectory.ts nor event-listener.ts leaves a timer of its own running
    that it has lost track of.  (The abort timers of the client's requests
    are not timers of these modules and are not in the table.) *)
Theorem module_timers_are_tracked (w : World) (h : nat) (t : Timer) :
  Reachable w ->
  timers (host w) !! h = Some t ->
  (callback t = CbFlushBuffer ->
   flushTimer (traj w) = Some h /\ eventBuffer (traj w) <> [] /\
   due t <= now (host w) + 5000) /\
  (forall sk, callback t = CbLLMDebounce sk ->
   llmDebounceTimers (lsn w) !! sk = Some h /\
   is_Some (llmPendingData (lsn w) !! sk) /\
   due t <= now (host w) + 100).
Proof.
  intros HR Ht. assert (HT := reachable_timersTracked w HR).
  assert (Ho := tt_owner w HT h t Ht).
  destruct t as [d cb]; cbn [callback due] in *. split.
  - intros ->. split; [assumption|]. split.
    + intros Hb. apply (tt_buffer w HT) in Hb. congruence.
    + destruct (tt_flush w HT h Ho) as (d' & Hd' & Hle). rewrite Ht in Hd'.
      injection Hd' as <-. exact Hle.
  - intros sk ->. split; [assumption|]. split.
    + apply (tt_pending w HT). eexists. exact Ho.
    + destruct (tt_debounce w HT sk h Ho) as (d' & Hd' & Hle). rewrite Ht in Hd'.
      injection Hd' as <-. exact Hle.
Qed.

(** In every reachable world, text pending for a session has a live
    debounce timer, due at most 100 ms from now, and is the last text
    recorded for the session.  Once that time has passed the timer firing
    clears the pending text and the timer; it queues one [llm_call] event
    with the text when the session still has its trajectory, and drops the
    text otherwise. *)
Theorem pending_text_is_settled_in_time (w : World) (sk : string) (p : PendingLLM) :
  Reachable w ->
  llmPendingData (lsn w) !! sk = Some p ->
  exists h d,
    llmDebounceTimers (lsn w) !! sk = Some h /\
    timers (host w) !! h = Some (mkTimer d (CbLLMDebounce sk)) /\
    d <= now (host w) + 100 /\
    lastLLMTextBySession (lsn w) !! sk = Some (pendingText p) /\
    let w' := settle sk w in
    llmPendingData (lsn w') !! sk = None /\
    llmDebounceTimers (lsn w') !! sk = None /\
    timers (host w') !! h = None /\
    match activeTrajectories (traj w) !! sk with
    | Some T =>
        clientInstance w <> None ->
        exists e,
          outbox w' = (outbox w ++ [e])%list /\
          event_type e = llm_call /\
          run_id e = JStr (runId T) /\
          responseText e = Some (pendingText p)
    | None => traj w' = traj w /\ ingestCalls (host w') = ingestCalls (host w)
    end.
Proof.
  intros HR Hp. assert (HT := reachable_timersTracked w HR).
  destruct (tt_pending w HT sk) as [Hx _].
  destruct Hx as [h Hm]; [eexists; exact Hp|].
  destruct (tt_debounce w HT sk h Hm) as (d & Hd & Hle).
  change LLM_DEBOUNCE_MS with 100 in Hle.
  exists h, d. repeat (split; [assumption|]).
  split; [exact (tt_last w HT sk p Hp)|].
  cbv zeta. unfold settle.
  change (llmDebounceTimers (lsn (tick _ w))) with (llmDebounceTimers (lsn w)).
  rewrite Hm.
  set (w1 := tick (Z.to_nat LLM_DEBOUNCE_MS) w).
  assert (Hfire : fireTimer h w1 = llmDebounceFired sk (clearTimeout h w1)).
  { unfold fireTimer. change (timers (host w1)) with (timers (host w)). rewrite Hd. simpl.
    change (Z.of_nat (Z.to_nat LLM_DEBOUNCE_MS)) with 100.
    destruct (Z.leb_spec d (now (host w) + 100)) as [_|Hlt]; [reflexivity|lia]. }
  rewrite Hfire. unfold llmDebounceFired.
  change (llmPendingData (lsn (clearTimeout h w1))) with (llmPendingData (lsn w)).
  rewrite Hp.
  set (call := {| lp_sessionKey := sk; lp_messages := []; lp_model := pendingModel p;
                  lp_provider := pendingProvider p;
                  lp_response := Some [("text", JStr (pendingText p))];
                  lp_usage := None; lp_reasoning := None; lp_error := None |}).
  destruct (logLLMCall_core call (clearTimeout h w1)) as (Hc1 & Hc2 & Hc3 & Hc4).
  cbn [lsn updLsn llmPendingData llmDebounceTimers setLlmPendingData setLlmDebounceTimers
       host traj].
  rewrite Hc4. cbn [lsn clearTimeout updHost llmPendingData llmDebounceTimers].
  split; [apply lookup_delete_eq|]. split; [apply lookup_delete_eq|].
  split.
  { assert (HD : Dead h (clearTimeout h w1)).
    { split; [simpl; apply lookup_delete_eq|]. exact (tt_alloc w HT h _ Hd). }
    exact (proj1 (dead_alloc h _ _ (alloc_logLLMCall call _) HD)). }
  destruct (activeTrajectories (traj w) !! sk) as [T|] eqn:Ha.
  - intros Hc.
    destruct (logLLMCall_active call (clearTimeout h w1) T Ha Hc) as (e & He & Hty & Hrid & Htx).
    exists e. repeat split; assumption.
  - rewrite (logLLMCall_inactive call (clearTimeout h w1)) by exact Ha.
    split; reflexivity.
Qed.
(** ** The size of the batches *)

Lemma bb_frame w w' : sameCore w w' -> BatchesBounded w -> BatchesBounded w'.
Proof.
  intros (_ & Ht & Hi) [A B]. constructor; rewrite ?Ht, ?Hi; assumption.
Qed.

Lemma bb_flush_upto w :
  (length (eventBuffer (traj w)) <= maxSize BUFFER_SETTINGS)%nat ->
  Forall (fun batch : list TrajectoryEvent =>
            (1 <= length batch <= maxSize BUFFER_SETTINGS)%nat) (ingestCalls (host w)) ->
  BatchesBounded (fst (flushBuffer w)).
Proof.
  intros Hlen Hall. constructor.
  - rewrite flushBuffer_buffer. simpl. lia.
  - destruct (eventBuffer (traj w)) as [|e l] eqn:Hb.
    + rewrite flushBuffer_empty by assumption.
      destruct (flushTimer (traj w)); exact Hall.
    + rewrite flushBuffer_nonempty by (rewrite Hb; discriminate). simpl.
      destruct (clientInstance w); destruct (flushTimer (traj w)); simpl;
        try exact Hall; rewrite Hb; apply Forall_app; (split; [exact Hall|]);
        constructor; [|constructor | |constructor]; simpl in *; lia.
Qed.

Lemma bb_flushBuffer w : BatchesBounded w -> BatchesBounded (fst (flushBuffer w)).
Proof. intros [A B]. apply bb_flush_upto; [lia|assumption]. Qed.

Lemma bb_bufferEvent e w : BatchesBounded w -> BatchesBounded (bufferEvent e w).
Proof.
  intros [A B]. rewrite bufferEvent_unfold. cbv zeta.
  assert (Hlen : length (eventBuffer (traj w) ++ [e])%list = S (length (eventBuffer (traj w)))).
  { rewrite length_app. simpl. lia. }
  destruct (Nat.leb_spec (maxSize BUFFER_SETTINGS) (S (length (eventBuffer (traj w)))))
    as [Hfull|Hroom].
  - apply bb_flush_upto; destruct (flushTimer (traj w)); try exact B;
      change (length (eventBuffer (traj w) ++ [e]) <= maxSize BUFFER_SETTINGS)%nat;
      rewrite Hlen; lia.
  - constructor; destruct (flushTimer (traj w)); try exact B;
      change (length (eventBuffer (traj w) ++ [e]) < maxSize BUFFER_SETTINGS)%nat;
      rewrite Hlen; exact Hroom.
Qed.

Lemma bb_emit t ty pl w :
  BatchesBounded w ->
  BatchesBounded (bufferEvent (fst (createEvent t ty pl w)) (snd (createEvent t ty pl w))).
Proof.
  intros HB. apply bb_bufferEvent. rewrite createEvent_snd.
  apply (bb_frame w); [|assumption]. apply sameCore_updHost. reflexivity.
Qed.

Lemma bb_logLLMCall p w : BatchesBounded w -> BatchesBounded (logLLMCall p w).
Proof.
  intros HB. unfold logLLMCall.
  destruct (activeTrajectories (traj w) !! lp_sessionKey p); [|assumption].
  rewrite createEvent_pair. now apply bb_emit.
Qed.

Lemma bb_logToolCall p w : BatchesBounded w -> BatchesBounded (logToolCall p w).
Proof.
  intros HB. unfold logToolCall.
  destruct (activeTrajectories (traj w) !! tp_sessionKey p); [|assumption].
  rewrite createEvent_pair. now apply bb_emit.
Qed.

Lemma bb_store (f : TrajectoryState -> TrajectoryState) w :
  (forall s, eventBuffer (f s) = eventBuffer s) ->
  BatchesBounded w -> BatchesBounded (updTraj f w).
Proof. intros Hf [A B]. constructor; simpl; rewrite ?Hf; assumption. Qed.

Lemma bb_step op w : BatchesBounded w -> BatchesBounded (step op w).
Proof.
  intros HB.
  destruct op as [p|p|p|p|p| |e| | |sk0|c| |ms|h|r];
    try (apply (core_step_ambient BatchesBounded bb_frame bb_logLLMCall bb_logToolCall
                  bb_flushBuffer); [exact I|assumption]); cbn [step].
  - destruct (startTrajectory_snd p w) as (pl & ->). cbv zeta.
    apply bb_emit. apply bb_store; [reflexivity|].
    apply (bb_frame (updTraj (setRunIdCounter (runIdCounter (traj w) + 1)) w)).
    + apply sameCore_updHost. reflexivity.
    + apply bb_store; [reflexivity|assumption].
  - unfold endTrajectory.
    destruct (activeTrajectories (traj w) !! ep_sessionKey p); [|assumption].
    rewrite createEvent_pair. apply bb_flushBuffer. apply bb_store; [reflexivity|].
    now apply bb_emit.
  - unfold logAgentDefinition.
    destruct (activeTrajectories (traj w) !! ap_sessionKey p); [|assumption].
    rewrite createEvent_pair. now apply bb_emit.
  - destruct HB as [A B]. constructor; assumption.
  - destruct HB as [A B]. constructor; assumption.
Qed.

Lemma bb_run ops w : BatchesBounded w -> BatchesBounded (run ops w).
Proof.
  revert w. induction ops as [|op ops IH]; intros w HB; [assumption|].
  simpl. apply IH. now apply bb_step.
Qed.

(** In every reachable world the buffer holds fewer than [maxSize] = 100
    events, and every batch that was handed to [client.ingestEvents] holds
    at least one event and at most 100. *)
Theorem batches_hold_between_1_and_100_events (w : World) :
  Reachable w ->
  (length (eventBuffer (traj w)) < 100)%nat /\
  forall batch, In batch (ingestCalls (host w)) -> (1 <= length batch <= 100)%nat.
Proof.
  intros (uuid & iso & t0 & ops & ->).
  assert (HB : BatchesBounded (run ops (initialWorld uuid iso t0))).
  { apply bb_run. constructor; simpl; [lia|constructor]. }
  destruct HB as [A B]. split; [exact A|].
  intros batch Hin. rewrite Forall_forall in B. apply B. now apply list_elem_of_In.
Qed.
(** ** Run identifiers are not reused *)

(** In every reachable world the run identifier that [startTrajectory]
    hands out next is new: no stored trajectory of any session has it, and
    no event that was queued or handed to the client carries it. *)
Theorem fresh_run_id_is_unused (w : World) (p : StartParams) :
  Reachable w ->
  let T := fst (startTrajectory p w) in
  (forall sk t, activeTrajectories (traj w) !! sk = Some t -> runId t <> runId T) /\
  (forall e, In e (outbox w) -> run_id e <> JStr (runId T)).
Proof.
  intros HR. assert (HA := reachable_runIdsAllocated w HR). cbv zeta.
  rewrite startTrajectory_fst. cbn [runId].
  assert (Hfresh : forall v, runBelow (runIdCounter (traj w)) v ->
            v <> JStr (pretty (runIdCounter (traj w)))).
  { intros v (n & -> & Hlt) [= Heq]. apply (inj pretty) in Heq. lia. }
  split.
  - intros sk t Ht Heq. apply (Hfresh (JStr (runId t))); [|now rewrite Heq].
    exact (ria_active w HA sk t Ht).
  - intros e Hin. apply Hfresh. unfold outbox in Hin. apply in_app_or in Hin.
    destruct Hin as [Hin|Hin].
    + apply in_concat in Hin. destruct Hin as (batch & Hb & He).
      assert (HF := ria_ingest w HA). rewrite Forall_forall in HF.
      specialize (HF batch (proj2 (list_elem_of_In _ _) Hb)).
      rewrite Forall_forall in HF. apply HF. now apply list_elem_of_In.
    + assert (HF := ria_buffer w HA). rewrite Forall_forall in HF.
      apply HF. now apply list_elem_of_In.
Qed.

(** ** Ending a trajectory *)

Lemma endTrajectory_active
    (w : World) (q : EndParams) (T : ActiveTrajectory) :
  activeTrajectories (traj w) !! ep_sessionKey q = Some T ->
  clientInstance w <> None ->
  let w' := endTrajectory q w in
  exists final,
    ingestCalls (host w') =
      (ingestCalls (host w) ++ [eventBuffer (traj w) ++ [final]])%list /\
    event_type final = task_end /\
    run_id final = JStr (runId T) /\
    getField "status" (payload final) = JStr (statusName (ep_status q)) /\
    getField "final_answer" (payload final) = optStr (ep_finalAnswer q) /\
    getField "error" (payload final) = optStr (ep_error q) /\
    eventBuffer (traj w') = [] /\
    flushTimer (traj w') = None /\
    activeTrajectories (traj w') = delete (ep_sessionKey q) (activeTrajectories (traj w)).
Proof.
  intros Ha Hc. cbv zeta. unfold endTrajectory. rewrite Ha. rewrite createEvent_pair.
  eexists. split; [|split; [|split; [|split; [|split; [|split; [|split; [|split]]]]]]].
  - rewrite (bufferEvent_then_flush _ (delete (ep_sessionKey q))) by exact Hc.
    reflexivity.
  - reflexivity.
  - reflexivity.
  - reflexivity.
  - reflexivity.
  - reflexivity.
  - apply flushBuffer_buffer.
  - apply flushBuffer_flushTimer.
  - match goal with |- context [flushBuffer ?x] =>
      destruct (flushBuffer_core x) as (_ & -> & _) end.
    cbn [traj updTraj activeTrajectories setActiveTrajectories].
    match goal with |- context [bufferEvent ?e ?x] =>
      destruct (bufferEvent_core e x) as (_ & -> & _) end.
    reflexivity.
Qed.

(** [endTrajectory] for a session with a trajectory, with a client: the
    client is handed one batch, the whole buffer (the queued events of
    every session) followed by the [task_end] event of the trajectory;
    the buffer is left empty, no flush timer is set, and the session has no
    trajectory any more. *)
Theorem endTrajectory_hands_over_the_buffer
    (w : World) (q : EndParams) (T : ActiveTrajectory) :
  activeTrajectories (traj w) !! ep_sessionKey q = Some T ->
  clientInstance w <> None ->
  let w' := endTrajectory q w in
  exists final,
    ingestCalls (host w') =
      (ingestCalls (host w) ++ [eventBuffer (traj w) ++ [final]])%list /\
    event_type final = task_end /\
    run_id final = JStr (runId T) /\
    getField "status" (payload final) = JStr (statusName (ep_status q)) /\
    getField "final_answer" (payload final) = optStr (ep_finalAnswer q) /\
    getField "error" (payload final) = optStr (ep_error q) /\
    eventBuffer (traj w') = [] /\
    flushTimer (traj w') = None /\
    activeTrajectories (traj w') = delete (ep_sessionKey q) (activeTrajectories (traj w)).
Proof. exact (endTrajectory_active w q T). Qed.

Lemma endTrajectory_store q w :
  activeTrajectories (traj (endTrajectory q w)) =
  delete (ep_sessionKey q) (activeTrajectories (traj w)).
Proof.
  unfold endTrajectory.
  destruct (activeTrajectories (traj w) !! ep_sessionKey q) as [T|] eqn:Ha.
  - rewrite createEvent_pair.
    match goal with |- context [flushBuffer ?x] =>
      destruct (flushBuffer_core x) as (_ & -> & _) end.
    cbn [traj updTraj activeTrajectories setActiveTrajectories].
    match goal with |- context [bufferEvent ?e ?x] =>
      destruct (bufferEvent_core e x) as (_ & -> & _) end.
    reflexivity.
  - symmetry. now apply delete_id.
Qed.

(** After [endTrajectory] the session has no active trajectory, whether it
    had one or not; the other sessions keep theirs; ending the session
    again, with whatever status, changes nothing, and neither does logging
    for it. *)
Theorem endTrajectory_is_final (w : World) (q : EndParams) :
  let sk := ep_sessionKey q in
  let w' := endTrajectory q w in
  hasActiveTrajectory sk w' = false /\
  (forall sk', sk' <> sk -> getActiveTrajectory sk' w' = getActiveTrajectory sk' w) /\
  (forall q', ep_sessionKey q' = sk -> endTrajectory q' w' = w') /\
  (forall p, lp_sessionKey p = sk -> logLLMCall p w' = w') /\
  (forall p, tp_sessionKey p = sk -> logToolCall p w' = w').
Proof.
  cbv zeta.
  assert (Hnone : activeTrajectories (traj (endTrajectory q w)) !! ep_sessionKey q = None).
  { rewrite endTrajectory_store. apply lookup_delete_eq. }
  repeat split.
  - unfold hasActiveTrajectory. now rewrite Hnone.
  - intros sk' Hne. unfold getActiveTrajectory. rewrite endTrajectory_store.
    now apply lookup_delete_ne.
  - intros q' Hq. unfold endTrajectory at 1. rewrite Hq, Hnone. reflexivity.
  - intros p Hp. unfold logLLMCall. rewrite Hp, Hnone. reflexivity.
  - intros p Hp. unfold logToolCall. rewrite Hp, Hnone. reflexivity.
Qed.

(** [shutdownTrajectoryCapture], run to its end: the buffer is handed to
    the client if there is one and the buffer is not empty, and dropped
    otherwise; then every trajectory is forgotten.  No event is created on
    the way, so a trajectory that was still open gets no [task_end], and
    afterwards ending it or logging for it does nothing. *)
Theorem shutdownTrajectoryCapture_forgets_open_trajectories (w : World) (r : IngestOutcome) :
  let w1 := fst (shutdownTrajectoryCapture w) in
  let w2 := shutdownTrajectoryCapture_resume (fst (flushBuffer_resume r w1)) in
  eventBuffer (traj w2) = [] /\
  flushTimer (traj w2) = None /\
  activeTrajectories (traj w2) = ∅ /\
  ingestCalls (host w2) =
    match eventBuffer (traj w), clientInstance w with
    | _ :: _, Some _ => (ingestCalls (host w) ++ [eventBuffer (traj w)])%list
    | _, _ => ingestCalls (host w)
    end /\
  uuidCalls (host w2) = uuidCalls (host w) /\
  (forall sk, hasActiveTrajectory sk w2 = false) /\
  (forall q, endTrajectory q w2 = w2) /\
  (forall p, logLLMCall p w2 = w2) /\
  (forall p, logToolCall p w2 = w2).
Proof.
  cbv zeta. unfold shutdownTrajectoryCapture, shutdownTrajectoryCapture_resume.
  set (w1 := fst (flushBuffer w)).
  assert (Hr : traj (fst (flushBuffer_resume r w1)) = traj w1 /\
               ingestCalls (host (fst (flushBuffer_resume r w1))) = ingestCalls (host w1) /\
               uuidCalls (host (fst (flushBuffer_resume r w1))) = uuidCalls (host w1)).
  { destruct r; repeat split. }
  destruct Hr as (Hr1 & Hr2 & Hr3).
  cbn [traj updTraj host eventBuffer flushTimer activeTrajectories setActiveTrajectories].
  rewrite Hr1, Hr2, Hr3. subst w1.
  split; [apply flushBuffer_buffer|]. split; [apply flushBuffer_flushTimer|].
  split; [reflexivity|]. split.
  { destruct (eventBuffer (traj w)) as [|e l] eqn:Hb.
    - rewrite flushBuffer_empty by assumption. destruct (flushTimer (traj w)); reflexivity.
    - rewrite flushBuffer_nonempty by (rewrite Hb; discriminate). simpl.
      destruct (clientInstance w), (flushTimer (traj w)); simpl; rewrite ?Hb; reflexivity. }
  split; [apply flushBuffer_uuidCalls|].
  split; [|split; [|split]].
  - intros sk. unfold hasActiveTrajectory. simpl. now rewrite lookup_empty.
  - intros q. unfold endTrajectory. simpl. now rewrite lookup_empty.
  - intros p. unfold logLLMCall. simpl. now rewrite lookup_empty.
  - intros p. unfold logToolCall. simpl. now rewrite lookup_empty.
Qed.
(** ** Tool signals *)

Lemma logToolCall_active p w T :
  activeTrajectories (traj w) !! tp_sessionKey p = Some T ->
  clientInstance w <> None ->
  exists e,
    outbox (logToolCall p w) = (outbox w ++ [e])%list /\
    event_type e = tool_call /\
    run_id e = JStr (runId T) /\
    payload e = [("tool_name", JStr (tp_toolName p));
                 ("tool_input", tp_toolInput p);
                 ("tool_output", tp_toolOutput p);
                 ("error", optStr (tp_error p));
                 ("duration_ms", optNum (tp_durationMs p))].
Proof.
  intros Hs Hc. unfold logToolCall. rewrite Hs, createEvent_pair.
  eexists. split; [|split; [|split]].
  - rewrite bufferEvent_outbox by exact Hc. reflexivity.
  - reflexivity.
  - reflexivity.
  - reflexivity.
Qed.

Lemma handleToolEvent_start sk data name id w :
  d_name data = Some name -> name <> "" ->
  d_phase data = Some "start" ->
  d_toolCallId data = Some id -> id <> "" ->
  handleToolEvent sk data w =
  updLsn (fun s => setToolInputsById
            (<[id := coalesce (d_args data) (JObj [])]> (toolInputsById s)) s)
    (updLsn (fun s => setToolStartTimes (<[id := now (host w)]> (toolStartTimes s)) s) w).
Proof.
  intros Hn Hne Hp Hi Hie. unfold handleToolEvent. rewrite Hn, Hp, Hi.
  destruct name; [congruence|]. destruct id; [congruence|]. reflexivity.
Qed.

(** A signal that closes a tool call logs it. *)
Lemma handleToolEvent_terminal sk data name w :
  d_name data = Some name -> name <> "" ->
  terminalPhase (d_phase data) ->
  exists w0 input duration,
    handleToolEvent sk data w =
    logToolCall
      {| tp_sessionKey := sk; tp_toolName := name; tp_toolInput := input;
         tp_toolOutput :=
           if phaseIs (d_phase data) "error" || isTrue (d_isError data)
           then JUndefined else d_result data;
         tp_error :=
           if phaseIs (d_phase data) "error" || isTrue (d_isError data)
           then Some (match asString (d_error data) with
                      | Some e => e
                      | None => default "Unknown error" (asString (d_result data))
                      end)
           else None;
         tp_durationMs := duration |} w0 /\
    host w0 = host w /\ traj w0 = traj w /\ clientInstance w0 = clientInstance w /\
    match d_toolCallId data with
    | Some (String c i as id) =>
        duration = (fun t0 => now (host w) - t0) <$> toolStartTimes (lsn w) !! id /\
        input = coalesce (coalesce (default JUndefined (toolInputsById (lsn w) !! id))
                            (d_args data)) (JObj []) /\
        lsn w0 = setToolInputsById (delete id (toolInputsById (lsn w)))
                   (setToolStartTimes (delete id (toolStartTimes (lsn w))) (lsn w))
    | _ =>
        duration = None /\ input = coalesce (d_args data) (JObj []) /\ w0 = w
    end.
Proof.
  intros Hn Hne Hp. unfold handleToolEvent. rewrite Hn.
  destruct name as [|c0 name]; [congruence|].
  assert (Hs : phaseIs (d_phase data) "start" = false)
    by (destruct Hp as [->|[->| ->]]; reflexivity).
  assert (Ht : phaseIs (d_phase data) "result" || phaseIs (d_phase data) "end"
               || phaseIs (d_phase data) "error" = true)
    by (destruct Hp as [->|[->| ->]]; reflexivity).
  rewrite Hs, Ht. cbv zeta.
  destruct (d_toolCallId data) as [[|c i]|]; cbn [truthyStr default from_option id].
  - eexists _, _, _. split; [reflexivity|]. repeat split.
  - destruct (toolStartTimes (lsn w) !! String c i) as [t0|] eqn:Hst.
    + eexists _, _, _. split; [reflexivity|]. repeat split.
    + eexists _, _, _. split; [reflexivity|]. repeat split.
      simpl. rewrite (delete_id (toolStartTimes (lsn w))) by assumption.
      destruct (lsn w); reflexivity.
  - eexists _, _, _. split; [reflexivity|]. repeat split.
Qed.

Lemma coalesce_recorded a b :
  coalesce (coalesce (coalesce a (JObj [])) b) (JObj []) = coalesce a (JObj []).
Proof. destruct a; reflexivity. Qed.

(** A tool call from start to result.  The start signal queues nothing;
    it records the clock and the arguments under the tool call id.  The
    result signal for the same id, [ms] milliseconds later, queues one
    [tool_call] event for the trajectory of the session: the tool name is
    the one of the result signal, the input is the arguments of the start
    signal ({} when it had none), the output is the result, there is no
    error, and the duration is [ms].  The records of the id are removed. *)
Theorem tool_call_is_paired_with_its_start
    (w : World) (sk : string) (T : ActiveTrajectory)
    (start finish : EventData) (name0 name id : string) (ms : nat) :
  activeTrajectories (traj w) !! sk = Some T ->
  clientInstance w <> None ->
  d_name start = Some name0 -> name0 <> "" ->
  d_phase start = Some "start" ->
  d_toolCallId start = Some id -> id <> "" ->
  d_name finish = Some name -> name <> "" ->
  d_phase finish = Some "result" \/ d_phase finish = Some "end" ->
  d_toolCallId finish = Some id ->
  isTrue (d_isError finish) = false ->
  let w1 := handleToolEvent sk start w in
  let w2 := handleToolEvent sk finish (tick ms w1) in
  outbox w1 = outbox w /\
  exists e,
    outbox w2 = (outbox w ++ [e])%list /\
    event_type e = tool_call /\
    run_id e = JStr (runId T) /\
    payload e = [("tool_name", JStr name);
                 ("tool_input", coalesce (d_args start) (JObj []));
                 ("tool_output", d_result finish);
                 ("error", JUndefined);
                 ("duration_ms", JNum (Z.of_nat ms))] /\
    toolStartTimes (lsn w2) !! id = None /\
    toolInputsById (lsn w2) !! id = None.
Proof.
  intros Ha Hc Hn0 Hne0 Hp0 Hi0 Hie Hn Hne Hp Hi Herr. cbv zeta.
  rewrite (handleToolEvent_start sk start name0 id w) by assumption.
  split; [reflexivity|].
  set (w1 := tick ms (updLsn _ (updLsn _ w))).
  assert (Hin0 : toolInputsById (lsn w1) !! id = Some (coalesce (d_args start) (JObj [])))
    by apply lookup_insert_eq.
  assert (Hst0 : toolStartTimes (lsn w1) !! id = Some (now (host w)))
    by apply lookup_insert_eq.
  assert (Hnow : now (host w1) = now (host w) + Z.of_nat ms) by reflexivity.
  assert (Ha1 : activeTrajectories (traj w1) !! sk = Some T) by exact Ha.
  assert (Hc1 : clientInstance w1 <> None) by exact Hc.
  assert (Hout1 : outbox w1 = outbox w) by reflexivity.
  clearbody w1.
  destruct (handleToolEvent_terminal sk finish name w1 Hn Hne)
    as (w0 & input & duration & -> & Hh & Ht & Hcl & Hid).
  { destruct Hp as [Hp|Hp]; [left|right; left]; exact Hp. }
  rewrite Hi in Hid. destruct id as [|c i]; [congruence|].
  destruct Hid as (-> & -> & Hlsn).
  rewrite Hin0, Hst0, Hnow.
  assert (Hne' : phaseIs (d_phase finish) "error" = false)
    by (destruct Hp as [->| ->]; reflexivity).
  rewrite Hne', Herr. cbn [orb].
  match goal with |- context [logToolCall ?p w0] =>
    destruct (logToolCall_active p w0 T) as (e & He & Hty & Hrid & Hpl);
    [cbn [tp_sessionKey]; rewrite Ht; exact Ha1 | rewrite Hcl; exact Hc1 |];
    rewrite (lsn_logToolCall p w0)
  end.
  exists e.
  assert (Hout : outbox w0 = outbox w).
  { rewrite <- Hout1. unfold outbox. rewrite Hh, Ht. reflexivity. }
  rewrite He, Hout. split; [reflexivity|]. split; [exact Hty|]. split; [exact Hrid|].
  split.
  - rewrite Hpl. cbn [tp_toolName tp_toolInput tp_toolOutput tp_error tp_durationMs optStr].
    unfold default. cbn [from_option id fmap option_fmap option_map optNum].
    rewrite coalesce_recorded.
    replace (now (host w) + Z.of_nat ms - now (host w)) with (Z.of_nat ms) by lia.
    reflexivity.
  - rewrite Hlsn. split; apply lookup_delete_eq.
Qed.

(** A signal that closes a tool call whose start was not seen: one
    [tool_call] event is queued all the same, without a duration, and with
    the arguments of the signal itself as input ({} when it has none). *)
Theorem tool_call_without_start_has_no_duration
    (w : World) (sk : string) (T : ActiveTrajectory) (data : EventData) (name : string) :
  activeTrajectories (traj w) !! sk = Some T ->
  clientInstance w <> None ->
  d_name data = Some name -> name <> "" ->
  terminalPhase (d_phase data) ->
  (forall id, d_toolCallId data = Some id ->
     toolStartTimes (lsn w) !! id = None /\ toolInputsById (lsn w) !! id = None) ->
  let w' := handleToolEvent sk data w in
  exists e,
    outbox w' = (outbox w ++ [e])%list /\
    event_type e = tool_call /\
    run_id e = JStr (runId T) /\
    getField "tool_name" (payload e) = JStr name /\
    getField "tool_input" (payload e) = coalesce (d_args data) (JObj []) /\
    getField "duration_ms" (payload e) = JUndefined /\
    lsn w' = lsn w.
Proof.
  intros Ha Hc Hn Hne Hp Hid. cbv zeta.
  destruct (handleToolEvent_terminal sk data name w Hn Hne Hp)
    as (w0 & input & duration & -> & Hh & Ht & Hcl & Hspec).
  match goal with |- context [logToolCall ?p w0] =>
    destruct (logToolCall_active p w0 T) as (e & He & Hty & Hrid & Hpl);
    [cbn [tp_sessionKey]; rewrite Ht; exact Ha | rewrite Hcl; exact Hc |];
    rewrite (lsn_logToolCall p w0)
  end.
  exists e.
  assert (Hout : outbox w0 = outbox w).
  { unfold outbox. rewrite Hh, Ht. reflexivity. }
  rewrite He, Hout, Hpl. split; [reflexivity|]. split; [exact Hty|]. split; [exact Hrid|].
  cbn [getField String.eqb Ascii.eqb Bool.eqb tp_toolName tp_toolInput tp_durationMs].
  split; [reflexivity|].
  destruct (d_toolCallId data) as [[|c i]|] eqn:Hi.
  - destruct Hspec as (-> & -> & ->). repeat split.
  - destruct (Hid _ eq_refl) as [Hst Hin].
    destruct Hspec as (-> & -> & Hlsn).
    rewrite Hst, Hin. cbn [default fmap option_fmap option_map optNum].
    split; [|split; [reflexivity|]].
    + unfold coalesce at 2. reflexivity.
    + rewrite Hlsn, (delete_id _ _ Hst), (delete_id _ _ Hin).
      destruct (lsn w); reflexivity.
  - destruct Hspec as (-> & -> & ->). repeat split.
Qed.

(** A tool call that failed (the phase is error, or [isError] is [true]):
    the [tool_call] event carries no output, and as error the [error] of
    the signal if that is a string, else its [result] if that is a string,
    else the text Unknown error. *)
Theorem failed_tool_call_has_an_error_and_no_output
    (w : World) (sk : string) (T : ActiveTrajectory) (data : EventData) (name : string) :
  activeTrajectories (traj w) !! sk = Some T ->
  clientInstance w <> None ->
  d_name data = Some name -> name <> "" ->
  terminalPhase (d_phase data) ->
  d_phase data = Some "error" \/ d_isError data = JBool true ->
  exists e,
    outbox (handleToolEvent sk data w) = (outbox w ++ [e])%list /\
    event_type e = tool_call /\
    getField "tool_output" (payload e) = JUndefined /\
    getField "error" (payload e) =
      JStr (match d_error data, d_result data with
            | JStr msg, _ => msg
            | _, JStr msg => msg
            | _, _ => "Unknown error"
            end).
Proof.
  intros Ha Hc Hn Hne Hp Herr.
  destruct (handleToolEvent_terminal sk data name w Hn Hne Hp)
    as (w0 & input & duration & -> & Hh & Ht & Hcl & _).
  match goal with |- context [logToolCall ?p w0] =>
    destruct (logToolCall_active p w0 T) as (e & He & Hty & Hrid & Hpl);
    [cbn [tp_sessionKey]; rewrite Ht; exact Ha | rewrite Hcl; exact Hc |]
  end.
  exists e.
  assert (Hout : outbox w0 = outbox w).
  { unfold outbox. rewrite Hh, Ht. reflexivity. }
  rewrite He, Hout, Hpl. split; [reflexivity|]. split; [exact Hty|].
  assert (Hflag : phaseIs (d_phase data) "error" || isTrue (d_isError data) = true).
  { destruct Herr as [->| ->]; [reflexivity|apply orb_true_r]. }
  cbn [getField String.eqb Ascii.eqb Bool.eqb tp_toolOutput tp_error].
  rewrite Hflag. split; [reflexivity|].
  destruct (d_error data), (d_result data); reflexivity.
Qed.
(** ** Agent events are only forwarded *)

Lemma logToolCall_core p w :
  clientInstance (logToolCall p w) = clientInstance w /\
  activeTrajectories (traj (logToolCall p w)) = activeTrajectories (traj w) /\
  runIdCounter (traj (logToolCall p w)) = runIdCounter (traj w) /\
  lsn (logToolCall p w) = lsn w.
Proof.
  unfold logToolCall. destruct (_ !! _); [|repeat split].
  rewrite createEvent_pair.
  match goal with |- context [bufferEvent ?e ?w1] =>
    destruct (bufferEvent_core e w1) as (-> & -> & -> & ->) end.
  repeat split.
Qed.

Lemma forwarded_same w w' :
  sameCore w w' ->
  unsubscribe (lsn w') = unsubscribe (lsn w) ->
  runIdToSession (lsn w') = runIdToSession (lsn w) ->
  Forwarded w w'.
Proof.
  intros (Hc & Ht & Hi) Hu Hr. constructor; rewrite ?Ht; try assumption; try reflexivity.
  intros _. exists []. unfold outbox. rewrite Ht, Hi, app_nil_r. split; [reflexivity|simpl; lia].
Qed.

Lemma forwarded_after w w1 w2 :
  sameCore w w1 ->
  unsubscribe (lsn w1) = unsubscribe (lsn w) ->
  runIdToSession (lsn w1) = runIdToSession (lsn w) ->
  Forwarded w1 w2 -> Forwarded w w2.
Proof.
  intros (Hc & Ht & Hi) Hu Hr [A B C D R Q].
  constructor; try congruence.
  intros Hcl. destruct Q as (queued & Hq & Hlen); [congruence|].
  exists queued. split; [|assumption]. rewrite Hq. unfold outbox. now rewrite Ht, Hi.
Qed.

Lemma forwarded_logLLMCall p w : Forwarded w (logLLMCall p w).
Proof.
  destruct (logLLMCall_core p w) as (H1 & H2 & H3 & H4).
  constructor; rewrite ?H4; try assumption; try reflexivity.
  intros Hc. destruct (activeTrajectories (traj w) !! lp_sessionKey p) as [T|] eqn:Ha.
  - destruct (logLLMCall_active p w T Ha Hc) as (e & He & _).
    exists [e]. split; [assumption|simpl; lia].
  - rewrite logLLMCall_inactive by assumption. exists []. rewrite app_nil_r.
    split; [reflexivity|simpl; lia].
Qed.

Lemma forwarded_logToolCall p w : Forwarded w (logToolCall p w).
Proof.
  destruct (logToolCall_core p w) as (H1 & H2 & H3 & H4).
  constructor; rewrite ?H4; try assumption; try reflexivity.
  intros Hc. destruct (activeTrajectories (traj w) !! tp_sessionKey p) as [T|] eqn:Ha.
  - destruct (logToolCall_active p w T Ha Hc) as (e & He & _).
    exists [e]. split; [assumption|simpl; lia].
  - unfold logToolCall. rewrite Ha. exists []. rewrite app_nil_r.
    split; [reflexivity|simpl; lia].
Qed.

Lemma forwarded_handleToolEvent sk data w : Forwarded w (handleToolEvent sk data w).
Proof.
  unfold handleToolEvent.
  destruct (d_name data) as [[|c name]|];
    try (apply forwarded_same; [apply sameCore_refl|reflexivity|reflexivity]).
  destruct (phaseIs (d_phase data) "start").
  { destruct (d_toolCallId data) as [[|c' id]|];
      apply forwarded_same; try reflexivity; try apply sameCore_refl.
    eapply sameCore_trans; apply sameCore_updLsn. }
  destruct (phaseIs (d_phase data) "result" || phaseIs (d_phase data) "end"
            || phaseIs (d_phase data) "error");
    [|apply forwarded_same; [apply sameCore_refl|reflexivity|reflexivity]].
  destruct (if truthyStr (d_toolCallId data)
            then toolStartTimes (lsn w) !! default "" (d_toolCallId data)
            else None) as [t0|];
    destruct (truthyStr (d_toolCallId data));
    (eapply forwarded_after; [| | |apply forwarded_logToolCall]);
    try reflexivity; try apply sameCore_refl; try apply sameCore_updLsn;
    eapply sameCore_trans; apply sameCore_updLsn.
Qed.

Lemma forwarded_handleAssistantEvent sk data w :
  Forwarded w (handleAssistantEvent sk data w).
Proof.
  unfold handleAssistantEvent.
  destruct (usageReported (d_usage data)); [apply forwarded_logLLMCall|].
  destruct (negb (truthyStr (d_text data)) && negb (truthyStr (d_thinking data)));
    [apply forwarded_same; [apply sameCore_refl|reflexivity|reflexivity]|].
  destruct (truthyStr (d_thinking data) && negb (truthyStr (d_text data)));
    [apply forwarded_logLLMCall|].
  destruct (d_text data) as [[|c text]|];
    try (apply forwarded_same; [apply sameCore_refl|reflexivity|reflexivity]).
  destruct (startsWith _ _);
    [apply forwarded_same; [apply sameCore_refl|reflexivity|reflexivity]|].
  cbn [updLsn lsn llmDebounceTimers setLlmPendingData setLastLLMTextBySession].
  destruct (llmDebounceTimers (lsn w) !! sk);
    apply forwarded_same; try reflexivity; repeat split.
Qed.

Lemma handleAgentEvent_effect (w : World) (e : AgentEventPayload) :
  let w' := handleAgentEvent e w in
  clientInstance w' = clientInstance w /\
  activeTrajectories (traj w') = activeTrajectories (traj w) /\
  runIdCounter (traj w') = runIdCounter (traj w) /\
  unsubscribe (lsn w') = unsubscribe (lsn w) /\
  (clientInstance w = None -> w' = w) /\
  (clientInstance w <> None ->
   exists queued, outbox w' = (outbox w ++ queued)%list /\ (length queued <= 1)%nat).
Proof.
  cbv zeta. unfold handleAgentEvent, getMarloClient.
  destruct (clientInstance w) as [cl|] eqn:Hcl.
  2: { split; [exact Hcl|]. split; [reflexivity|]. split; [reflexivity|].
       split; [reflexivity|]. split; [reflexivity|]. intros Hc. congruence. }
  set (w1 := match ev_sessionKey e with
             | Some (String _ _ as sk) => _
             | _ => w
             end).
  assert (H1 : sameCore w w1 /\ unsubscribe (lsn w1) = unsubscribe (lsn w)).
  { subst w1. destruct (ev_sessionKey e) as [[|c s]|]; split;
      try reflexivity; try apply sameCore_refl. apply sameCore_updLsn. }
  destruct H1 as [(Hs1 & Hs2 & Hs3) Hu1].
  assert (Hfin : forall w2,
            clientInstance w2 = clientInstance w1 ->
            activeTrajectories (traj w2) = activeTrajectories (traj w1) ->
            runIdCounter (traj w2) = runIdCounter (traj w1) ->
            unsubscribe (lsn w2) = unsubscribe (lsn w1) ->
            (clientInstance w1 <> None ->
             exists queued, outbox w2 = (outbox w1 ++ queued)%list /\
                            (length queued <= 1)%nat) ->
            clientInstance w2 = Some cl /\
            activeTrajectories (traj w2) = activeTrajectories (traj w) /\
            runIdCounter (traj w2) = runIdCounter (traj w) /\
            unsubscribe (lsn w2) = unsubscribe (lsn w) /\
            (Some cl = None -> w2 = w) /\
            (Some cl <> None ->
             exists queued, outbox w2 = (outbox w ++ queued)%list /\
                            (length queued <= 1)%nat)).
  { intros w2 A B C D Q. rewrite A, B, C, D, Hs1, Hs2, Hu1, Hcl.
    repeat split; try discriminate. intros _.
    destruct Q as (queued & Hq & Hlen); [rewrite Hs1, Hcl; discriminate|].
    exists queued. split; [|assumption].
    rewrite Hq. unfold outbox. now rewrite Hs2, Hs3. }
  assert (Hfw : forall w2, Forwarded w1 w2 ->
            clientInstance w2 = Some cl /\
            activeTrajectories (traj w2) = activeTrajectories (traj w) /\
            runIdCounter (traj w2) = runIdCounter (traj w) /\
            unsubscribe (lsn w2) = unsubscribe (lsn w) /\
            (Some cl = None -> w2 = w) /\
            (Some cl <> None ->
             exists queued, outbox w2 = (outbox w ++ queued)%list /\
                            (length queued <= 1)%nat)).
  { intros w2 [A B C D R Q]. now apply Hfin. }
  clearbody w1.
  assert (Hrefl : Forwarded w1 w1)
    by (apply forwarded_same; [apply sameCore_refl|reflexivity|reflexivity]).
  destruct (match ev_sessionKey e with
            | Some sk => Some sk
            | None => runIdToSession (lsn w1) !! ev_runId e
            end) as [[|c r]|]; try (apply Hfw; exact Hrefl).
  destruct (negb (hasActiveTrajectory _ w1)); [apply Hfw; exact Hrefl|].
  destruct (String.eqb (ev_stream e) "tool");
    [apply Hfw, forwarded_handleToolEvent|].
  destruct (String.eqb (ev_stream e) "assistant");
    [apply Hfw, forwarded_handleAssistantEvent|].
  destruct (String.eqb (ev_stream e) "lifecycle"); [|apply Hfw; exact Hrefl].
  unfold handleLifecycleEvent. destruct (phaseIs _ _); [|apply Hfw; exact Hrefl].
  apply Hfin; try reflexivity. intros _. exists []. rewrite app_nil_r.
  split; [reflexivity|simpl; lia].
Qed.
(** However an agent event is handled, the client, the stored trajectories
    and the run counter are what they were: the listener neither starts nor
    ends a trajectory.  Without a client the event changes nothing at all;
    with one, it queues at most one event. *)
Theorem agent_event_is_only_forwarded (w : World) (e : AgentEventPayload) :
  let w' := handleAgentEvent e w in
  clientInstance w' = clientInstance w /\
  activeTrajectories (traj w') = activeTrajectories (traj w) /\
  runIdCounter (traj w') = runIdCounter (traj w) /\
  unsubscribe (lsn w') = unsubscribe (lsn w) /\
  (clientInstance w = None -> w' = w) /\
  (clientInstance w <> None ->
   exists queued, outbox w' = (outbox w ++ queued)%list /\ (length queued <= 1)%nat).
Proof. exact (handleAgentEvent_effect w e). Qed.

(** ** The session of a signal *)

(** How the session of a signal is found.  A signal without a session key
    for a run whose session was recorded is handled as the same signal
    carrying the recorded key; without a record it changes nothing.  A
    signal whose session key is the empty string changes nothing either,
    whatever was recorded for its run.  A signal that carries a non-empty
    key, on another stream than lifecycle, leaves the key recorded for its
    run, whether or not the session has a trajectory. *)
Theorem session_is_resolved_from_the_run (w : World) (e : AgentEventPayload) :
  (forall sk,
     ev_sessionKey e = None -> runIdToSession (lsn w) !! ev_runId e = Some sk ->
     handleAgentEvent e w = handleAgentEvent (withSessionKey sk e) w) /\
  (ev_sessionKey e = None -> runIdToSession (lsn w) !! ev_runId e = None ->
   handleAgentEvent e w = w) /\
  (ev_sessionKey e = Some "" -> handleAgentEvent e w = w) /\
  (forall sk,
     clientInstance w <> None -> ev_sessionKey e = Some sk -> sk <> "" ->
     ev_stream e <> "lifecycle" ->
     runIdToSession (lsn (handleAgentEvent e w)) !! ev_runId e = Some sk).
Proof.
  repeat split.
  - intros sk Hk Hr. unfold handleAgentEvent, getMarloClient, withSessionKey.
    destruct (clientInstance w); [|reflexivity].
    rewrite Hk. cbn [ev_sessionKey ev_runId ev_stream ev_data].
    destruct sk as [|c sk].
    + now rewrite Hr.
    + assert (Hw : updLsn (fun s => setRunIdToSession
                             (<[ev_runId e := String c sk]> (runIdToSession s)) s) w = w).
      { unfold updLsn, setRunIdToSession. rewrite (insert_id _ _ _ Hr).
        destruct w as [hw cw tw [a b c0 d e0 f g]]; reflexivity. }
      rewrite Hw, Hr. reflexivity.
  - intros Hk Hr. unfold handleAgentEvent, getMarloClient.
    destruct (clientInstance w); [|reflexivity].
    rewrite Hk, Hr. reflexivity.
  - intros Hk. unfold handleAgentEvent, getMarloClient.
    destruct (clientInstance w); [|reflexivity].
    rewrite Hk. reflexivity.
  - intros sk Hc Hk Hne Hs. unfold handleAgentEvent, getMarloClient.
    destruct (clientInstance w); [|congruence].
    rewrite Hk. destruct sk as [|c sk]; [congruence|].
    set (w1 := updLsn _ w).
    assert (H1 : runIdToSession (lsn w1) !! ev_runId e = Some (String c sk))
      by apply lookup_insert_eq.
    clearbody w1.
    destruct (negb (hasActiveTrajectory _ w1)); [exact H1|].
    destruct (String.eqb (ev_stream e) "tool").
    { now rewrite (fw_runs _ _ (forwarded_handleToolEvent _ _ w1)). }
    destruct (String.eqb (ev_stream e) "assistant").
    { now rewrite (fw_runs _ _ (forwarded_handleAssistantEvent _ _ w1)). }
    destruct (String.eqb_spec (ev_stream e) "lifecycle"); [contradiction|exact H1].
Qed.

(** ** Assistant signals *)

Lemma logLLMCall_event p w T :
  activeTrajectories (traj w) !! lp_sessionKey p = Some T ->
  clientInstance w <> None ->
  exists e,
    outbox (logLLMCall p w) = (outbox w ++ [e])%list /\
    event_type e = llm_call /\
    run_id e = JStr (runId T) /\
    payload e =
      [("messages", JArr (map messagePayload (lp_messages p)));
       ("model_params", JObj [("model", optStr (lp_model p));
                              ("provider", optStr (lp_provider p))]);
       ("response", optObj (lp_response p));
       ("usage", usagePayload (lp_usage p));
       ("reasoning", optObj (lp_reasoning p));
       ("error", optStr (lp_error p))].
Proof.
  intros Hs Hc. unfold logLLMCall. rewrite Hs, createEvent_pair.
  eexists. split; [|split; [|split]].
  - rewrite bufferEvent_outbox by exact Hc. reflexivity.
  - reflexivity.
  - reflexivity.
  - reflexivity.
Qed.

(** A signal that reports usage (input or output tokens that are not
    zero) queues one [llm_call] event at once, with the token counts and
    their sum and with the model and provider of the signal.  Text and
    thinking in the same signal are not logged, and the debounce state of
    the session is not touched. *)
Theorem usage_signal_is_logged_at_once
    (w : World) (sk : string) (T : ActiveTrajectory) (data : EventData) (u : UsageData) :
  activeTrajectories (traj w) !! sk = Some T ->
  clientInstance w <> None ->
  d_usage data = Some u ->
  truthyNum (ud_inputTokens u) || truthyNum (ud_outputTokens u) = true ->
  let w' := handleAssistantEvent sk data w in
  lsn w' = lsn w /\
  exists e,
    outbox w' = (outbox w ++ [e])%list /\
    event_type e = llm_call /\
    run_id e = JStr (runId T) /\
    payload e =
      [("messages", JArr []);
       ("model_params", JObj [("model", optStr (d_model data));
                              ("provider", optStr (d_provider data))]);
       ("response", JUndefined);
       ("usage", JObj [("input_tokens", optNum (ud_inputTokens u));
                       ("output_tokens", optNum (ud_outputTokens u));
                       ("reasoning_tokens", JUndefined);
                       ("total_tokens", JNum (default 0 (ud_inputTokens u)
                                              + default 0 (ud_outputTokens u)))]);
       ("reasoning", JUndefined);
       ("error", JUndefined)].
Proof.
  intros Ha Hc Hu Ht. cbv zeta. unfold handleAssistantEvent.
  rewrite Hu. cbn [usageReported]. rewrite Ht.
  match goal with |- context [logLLMCall ?p w] =>
    destruct (logLLMCall_core p w) as (_ & _ & _ & Hl);
    destruct (logLLMCall_event p w T Ha Hc) as (e & He & Hty & Hrid & Hpl)
  end.
  split; [exact Hl|]. exists e. repeat (split; [assumption|]).
  rewrite Hpl. cbn [lp_messages lp_model lp_provider lp_response lp_usage lp_reasoning
                    lp_error map optObj optStr usagePayload inputTokens outputTokens
                    reasoningTokens mbind option_bind optNum default from_option id].
  rewrite Z.add_0_r. reflexivity.
Qed.

(** Thinking in an assistant signal without usage.  When the signal has no
    text, one [llm_call] event with the thinking as its reasoning is queued
    at once and the debounce state is not touched.  When the signal has
    text as well, the thinking is ignored: the signal is handled as the
    same signal without it. *)
Theorem thinking_is_logged_only_without_text
    (w : World) (sk : string) (T : ActiveTrajectory) (data : EventData) (thinking : string) :
  activeTrajectories (traj w) !! sk = Some T ->
  clientInstance w <> None ->
  usageReported (d_usage data) = false ->
  d_thinking data = Some thinking -> thinking <> "" ->
  let w' := handleAssistantEvent sk data w in
  if truthyStr (d_text data)
  then w' = handleAssistantEvent sk (withoutThinking data) w
  else lsn w' = lsn w /\
       exists e,
         outbox w' = (outbox w ++ [e])%list /\
         event_type e = llm_call /\
         run_id e = JStr (runId T) /\
         getField "reasoning" (payload e) = JObj [("thinking", JStr thinking)] /\
         getField "response" (payload e) = JUndefined /\
         getField "usage" (payload e) = JUndefined.
Proof.
  intros Ha Hc Hu Hth Hne. cbv zeta. unfold handleAssistantEvent.
  cbn [withoutThinking d_usage d_text d_thinking d_model d_provider].
  rewrite Hu, Hth. destruct thinking as [|c th]; [congruence|].
  destruct (d_text data) as [[|c' text]|]; cbn [truthyStr negb andb].
  - match goal with |- context [logLLMCall ?p w] =>
      destruct (logLLMCall_core p w) as (_ & _ & _ & Hl);
      destruct (logLLMCall_event p w T Ha Hc) as (e & He & Hty & Hrid & Hpl)
    end.
    split; [exact Hl|]. exists e. repeat (split; [assumption|]). rewrite Hpl.
    repeat split.
  - reflexivity.
  - match goal with |- context [logLLMCall ?p w] =>
      destruct (logLLMCall_core p w) as (_ & _ & _ & Hl);
      destruct (logLLMCall_event p w T Ha Hc) as (e & He & Hty & Hrid & Hpl)
    end.
    split; [exact Hl|]. exists e. repeat (split; [assumption|]). rewrite Hpl.
    repeat split.
Qed.

(** ** Stopping the listener *)

(** [stopEventListener] when the listener is subscribed: the state of the
    listener is what it was when the module was loaded, every debounce
    timer is cancelled and no other timer is; the pending text of every
    session is dropped without an event: the client, the state of
    trajectory.ts and the batches handed over are untouched.  Afterwards an
    agent event changes nothing, and stopping again changes nothing.  When
    the listener is not subscribed, [stopEventListener] changes nothing. *)
Theorem stopEventListener_tears_down (w : World) :
  let w' := stopEventListener w in
  if unsubscribe (lsn w) then
    lsn w' = idleListener /\
    (forall sk h, llmDebounceTimers (lsn w) !! sk = Some h -> timers (host w') !! h = None) /\
    (forall h t, timers (host w') !! h = Some t <->
       timers (host w) !! h = Some t /\ forall sk, llmDebounceTimers (lsn w) !! sk <> Some h) /\
    clientInstance w' = clientInstance w /\ traj w' = traj w /\
    ingestCalls (host w') = ingestCalls (host w) /\
    (forall e, step (OpAgentEvent e) w' = w') /\
    stopEventListener w' = w'
  else w' = w.
Proof.
  cbv zeta. destruct (unsubscribe (lsn w)) eqn:Hu.
  2: { unfold stopEventListener. now rewrite Hu. }
  remember (stopEventListener w) as w' eqn:Hw'.
  unfold stopEventListener in Hw'. rewrite Hu in Hw'.
  match type of Hw' with
  | context [map_fold ?f ?x ?m] =>
      destruct (clearAll_spec m x) as (H1 & H2 & H3 & H4 & H5 & H6 & _ & _ & H9);
      set (w1 := map_fold f x m) in *
  end.
  cbn [lsn updLsn llmDebounceTimers setLastLLMTextBySession setRunIdToSession
       setToolInputsById setToolStartTimes setUnsubscribe host traj clientInstance] in *.
  assert (Hl : lsn w' = idleListener).
  { subst w'. cbn [lsn updLsn]. rewrite H2. reflexivity. }
  assert (Hh : host w' = host w1) by (subst w'; reflexivity).
  assert (Ht : traj w' = traj w1) by (subst w'; reflexivity).
  assert (Hc : clientInstance w' = clientInstance w1) by (subst w'; reflexivity).
  clear Hw'. rewrite Hh, Ht, Hc.
  split; [exact Hl|]. split.
  { intros sk h Hm. destruct (timers (host w1) !! h) as [t|] eqn:Htm; [|reflexivity].
    apply H9 in Htm. destruct Htm as [_ Hn]. destruct (Hn sk Hm). }
  split; [exact H9|]. split; [exact H3|]. split; [exact H1|]. split; [exact H6|].
  split.
  - intros e. cbn [step]. rewrite Hl. reflexivity.
  - unfold stopEventListener. rewrite Hl. reflexivity.
Qed.
(** ** The capture hooks *)

Lemma startTrajectory_unfold p w :
  snd (startTrajectory p w) =
  let T := fst (startTrajectory p w) in
  let w1 := updTraj (fun s => setActiveTrajectories
                       (<[sp_sessionKey p := T]> (activeTrajectories s)) s)
              (updHost (fun r => setUuidCalls (S (uuidCalls r)) r)
                 (updTraj (setRunIdCounter (runIdCounter (traj w) + 1)) w)) in
  let pl := [("task", JStr (sp_task p));
             ("metadata", JObj (spread [("channel", optStr (sp_channel p))]
                                  (default [] (sp_metadata p))))] in
  bufferEvent (fst (createEvent T task_start pl w1)) (snd (createEvent T task_start pl w1)).
Proof. reflexivity. Qed.

Lemma startTrajectory_store p w :
  clientInstance (snd (startTrajectory p w)) = clientInstance w /\
  activeTrajectories (traj (snd (startTrajectory p w))) =
    <[sp_sessionKey p := fst (startTrajectory p w)]> (activeTrajectories (traj w)) /\
  lsn (snd (startTrajectory p w)) = lsn w.
Proof.
  rewrite startTrajectory_unfold. cbv zeta.
  match goal with |- context [bufferEvent ?e ?w1] =>
    destruct (bufferEvent_core e w1) as (-> & -> & _ & ->) end.
  repeat split.
Qed.

Lemma startTrajectory_event p w :
  clientInstance w <> None ->
  exists e,
    outbox (snd (startTrajectory p w)) = (outbox w ++ [e])%list /\
    event_type e = task_start /\
    run_id e = JStr (runId (fst (startTrajectory p w))) /\
    agent_id e = default MOLTBOT_AGENT_ID (sp_agentId p) /\
    payload e = [("task", JStr (sp_task p));
                 ("metadata", JObj (spread [("channel", optStr (sp_channel p))]
                                      (default [] (sp_metadata p))))].
Proof.
  intros Hc. rewrite startTrajectory_unfold. cbv zeta.
  eexists. split; [|split; [|split; [|split]]].
  - rewrite bufferEvent_outbox by exact Hc. reflexivity.
  - reflexivity.
  - reflexivity.
  - reflexivity.
  - reflexivity.
Qed.

Lemma isMarloReady_false P config w :
  isMarloEnabled P config = false \/ clientInstance w = None ->
  isMarloReady P config w = false.
Proof.
  unfold isMarloReady, getMarloClient. intros [-> | ->]; [reflexivity|].
  apply andb_false_r.
Qed.

(** Unless the integration is enabled and the client is there, the five
    capture hooks do nothing: no trajectory is started or ended and no
    event is queued; [startMessageCapture] returns false without awaiting
    anything. *)
Theorem capture_hooks_do_nothing_unless_ready
    (P : Platform) (config : option MoltbotConfig) (w : World) :
  isMarloEnabled P config = false \/ clientInstance w = None ->
  (forall ctx, cx_config ctx = config ->
     startMessageCapture P ctx w = (w, CaptureReturned false)) /\
  (forall p, es_config p = config -> endMessageCaptureSuccess P p w = w) /\
  (forall p, ee_config p = config -> endMessageCaptureError P p w = w) /\
  (forall p, cl_config p = config -> captureAgentLLMCall P p w = w) /\
  (forall p, ct_config p = config -> captureAgentToolCall P p w = w).
Proof.
  intros Hnot. assert (Hr := isMarloReady_false P config w Hnot).
  repeat split; intros x <-.
  - unfold startMessageCapture. now rewrite Hr.
  - unfold endMessageCaptureSuccess. now rewrite Hr.
  - unfold endMessageCaptureError. now rewrite Hr.
  - unfold captureAgentLLMCall. now rewrite Hr.
  - unfold captureAgentToolCall. now rewrite Hr.
Qed.




Lemma isMarloReady_client P config w :
  isMarloReady P config w = true -> clientInstance w <> None.
Proof.
  unfold isMarloReady, getMarloClient. destruct (clientInstance w); [discriminate|].
  rewrite andb_false_r. discriminate.
Qed.

(** The check for an active trajectory is made before the learnings sync
    is awaited, and not again after it.  When two calls of
    [startMessageCapture] for one session both reach the await before
    either goes on, both return true and both start a trajectory: two
    [task_start] events with different run identifiers are queued, the
    store keeps the second trajectory only, and ending the session
    afterwards queues a [task_end] for the second run. *)
Theorem captures_awaiting_the_sync_both_start
    (P : Platform) (ctx : CaptureContext) (w : World)
    (dir : string) (agentId projectId : option string) (q : EndParams) :
  startMessageCapture P ctx w = (w, CaptureAwaitingSync dir agentId projectId) ->
  ep_sessionKey q = cx_sessionKey ctx ->
  let sk := cx_sessionKey ctx in
  let w1 := fst (startMessageCapture_resume ctx agentId w) in
  let w2 := fst (startMessageCapture_resume ctx agentId w1) in
  snd (startMessageCapture_resume ctx agentId w) = true /\
  snd (startMessageCapture_resume ctx agentId w1) = true /\
  exists T1 T2 e1 e2 final,
    getActiveTrajectory sk w1 = Some T1 /\
    getActiveTrajectory sk w2 = Some T2 /\
    runId T1 <> runId T2 /\
    outbox w2 = (outbox w ++ [e1; e2])%list /\
    event_type e1 = task_start /\ run_id e1 = JStr (runId T1) /\
    event_type e2 = task_start /\ run_id e2 = JStr (runId T2) /\
    outbox (endTrajectory q w2) = (outbox w2 ++ [final])%list /\
    event_type final = task_end /\ run_id final = JStr (runId T2) /\
    hasActiveTrajectory sk (endTrajectory q w2) = false.
Proof.
  intros Hawait Hq. cbv zeta.
  assert (Hc : clientInstance w <> None).
  { unfold startMessageCapture in Hawait.
    destruct (isMarloReady P (cx_config ctx) w) eqn:Hr; [|discriminate].
    exact (isMarloReady_client _ _ _ Hr). }
  unfold startMessageCapture_resume, captureStart. cbn [fst snd].
  set (p := {| sp_sessionKey := cx_sessionKey ctx; sp_task := cx_body ctx;
               sp_channel := Some (cx_channel ctx); sp_agentId := agentId;
               sp_metadata := Some [("source", JStr "moltbot")] |}).
  set (w1 := snd (startTrajectory p w)).
  set (w2 := snd (startTrajectory p w1)).
  destruct (startTrajectory_store p w) as (Hc1 & Hs1 & _).
  destruct (startTrajectory_store p w1) as (Hc2 & Hs2 & _).
  fold w1 in Hc1, Hs1. fold w2 in Hc2, Hs2.
  assert (Hcl1 : clientInstance w1 <> None) by congruence.
  assert (Hcl2 : clientInstance w2 <> None) by congruence.
  destruct (startTrajectory_event p w Hc) as (e1 & He1 & Hty1 & Hr1 & _).
  destruct (startTrajectory_event p w1 Hcl1) as (e2 & He2 & Hty2 & Hr2 & _).
  fold w1 in He1. fold w2 in He2.
  assert (Ha2 : activeTrajectories (traj w2) !! ep_sessionKey q
                = Some (fst (startTrajectory p w1))).
  { rewrite Hq, Hs2. apply lookup_insert_eq. }
  destruct (endTrajectory_active w2 q _ Ha2 Hcl2) as (final & Hin & Hty & Hrid & _ & _ & _
                                                      & Hb & _ & Hst).
  split; [reflexivity|]. split; [reflexivity|].
  exists (fst (startTrajectory p w)), (fst (startTrajectory p w1)), e1, e2, final.
  split; [unfold getActiveTrajectory; rewrite Hs1; apply lookup_insert_eq|].
  split; [unfold getActiveTrajectory; rewrite Hs2; apply lookup_insert_eq|].
  split.
  { rewrite !startTrajectory_fst. cbn [runId].
    assert (Hcnt : runIdCounter (traj w1) = runIdCounter (traj w) + 1).
    { subst w1. rewrite startTrajectory_unfold. cbv zeta.
      match goal with |- context [bufferEvent ?e ?x] =>
        destruct (bufferEvent_core e x) as (_ & _ & -> & _) end.
      reflexivity. }
    rewrite Hcnt. intros Heq. apply (inj pretty) in Heq. lia. }
  split; [rewrite He2, He1, <- app_assoc; reflexivity|].
  repeat (split; [assumption|]).
  split.
  { unfold outbox at 1. rewrite Hin, Hb, app_nil_r, concat_app. simpl.
    rewrite app_nil_r. unfold outbox. now rewrite app_assoc. }
  repeat (split; [assumption|]).
  unfold hasActiveTrajectory. rewrite Hst, <- Hq, lookup_delete_eq. reflexivity.
Qed.

Lemma startMessageCapture_enabled P ctx w :
  snd (startMessageCapture P ctx w) <> CaptureReturned false ->
  isMarloEnabled P (cx_config ctx) = true /\ clientInstance w <> None.
Proof.
  unfold startMessageCapture.
  destruct (isMarloReady P (cx_config ctx) w) eqn:Hr; [|intros H; now contradiction H].
  intros _. split; [|exact (isMarloReady_client _ _ _ Hr)].
  unfold isMarloReady in Hr. now destruct (isMarloEnabled P (cx_config ctx)).
Qed.

Lemma captureStarted_inv P ctx w wb w1 :
  captureStarted P ctx w wb w1 ->
  isMarloEnabled P (cx_config ctx) = true /\
  exists agentId, w1 = captureStart ctx agentId wb.
Proof.
  unfold captureStarted. intros H.
  destruct (snd (startMessageCapture P ctx w)) as [started|dir agentId projectId] eqn:Hs.
  - destruct H as (-> & -> & ->).
    destruct (startMessageCapture_enabled P ctx w) as (He & _); [rewrite Hs; discriminate|].
    split; [exact He|]. revert Hs. unfold startMessageCapture.
    destruct (negb (isMarloReady P (cx_config ctx) w)); [discriminate|].
    destruct (isChannelExcluded P (cx_channel ctx) (cx_config ctx)); [discriminate|].
    destruct (hasActiveTrajectory (cx_sessionKey ctx) w); [discriminate|]. cbv zeta.
    destruct (cx_workspaceDir ctx) as [[|c dir]|].
    + intros _. eexists. reflexivity.
    + destruct (opt lc_injectInPrompt (mc_learnings (resolveMarloConfig P (cx_config ctx))))
        as [[|]|]; try discriminate. intros _. eexists. reflexivity.
    + intros _. eexists. reflexivity.
  - destruct (startMessageCapture_enabled P ctx w) as (He & _); [rewrite Hs; discriminate|].
    split; [exact He|]. exists agentId.
    unfold startMessageCapture_resume in H. now injection H as <-.
Qed.

(** A message from start to end through the hooks.  When
    [startMessageCapture] has returned true, at once or after awaiting the
    learnings sync (whatever ran meanwhile, as long as the client is still
    there when the sync has settled), and [endMessageCaptureSuccess] is
    called next for the session, the client has been handed, in order,
    everything that was queued before the trajectory was started, the
    [task_start] of the new trajectory and its [task_end], with status
    success and the response as final answer; the buffer is empty and the
    session has no trajectory. *)
Theorem message_capture_round_trip
    (P : Platform) (ctx : CaptureContext) (w wb w1 : World) (response : string) :
  captureStarted P ctx w wb w1 ->
  clientInstance wb <> None ->
  let sk := cx_sessionKey ctx in
  let w2 := endMessageCaptureSuccess P
              {| es_sessionKey := sk; es_response := response;
                 es_config := cx_config ctx |} w1 in
  exists first final,
    concat (ingestCalls (host w2)) = (outbox wb ++ [first; final])%list /\
    eventBuffer (traj w2) = [] /\
    event_type first = task_start /\
    getField "task" (payload first) = JStr (cx_body ctx) /\
    event_type final = task_end /\
    run_id final = run_id first /\
    getField "status" (payload final) = JStr "success" /\
    getField "final_answer" (payload final) = JStr response /\
    hasActiveTrajectory sk w2 = false.
Proof.
  intros Hstarted Hc. cbv zeta.
  destruct (captureStarted_inv P ctx w wb w1 Hstarted) as (Hen & agentId & ->).
  unfold captureStart.
  set (p := {| sp_sessionKey := cx_sessionKey ctx; sp_task := cx_body ctx;
               sp_channel := Some (cx_channel ctx);
               sp_agentId := agentId;
               sp_metadata := Some [("source", JStr "moltbot")] |}).
  set (w1 := snd (startTrajectory p wb)).
  destruct (startTrajectory_store p wb) as (Hc1 & Hs1 & _). fold w1 in Hc1, Hs1.
  destruct (startTrajectory_event p wb Hc) as (first & He1 & Hty1 & Hr1 & _ & Hpl1).
  fold w1 in He1.
  assert (Hcl1 : clientInstance w1 <> None) by congruence.
  assert (Hr1' : isMarloReady P (cx_config ctx) w1 = true).
  { unfold isMarloReady, getMarloClient. rewrite Hen.
    destruct (clientInstance w1); [reflexivity|contradiction]. }
  assert (Ha1 : activeTrajectories (traj w1) !! cx_sessionKey ctx
                = Some (fst (startTrajectory p wb))).
  { rewrite Hs1. apply lookup_insert_eq. }
  unfold endMessageCaptureSuccess. cbn [es_sessionKey es_response es_config].
  assert (Hh1 : hasActiveTrajectory (cx_sessionKey ctx) w1 = true)
    by (unfold hasActiveTrajectory; now rewrite Ha1).
  rewrite Hr1', Hh1. cbn [negb orb].
  match goal with |- context [endTrajectory ?q w1] =>
    destruct (endTrajectory_active w1 q _ Ha1 Hcl1)
      as (final & Hin & Hty & Hrid & Hst & Hfa & _ & Hb & _ & Hstore);
    set (w2 := endTrajectory q w1) in *
  end.
  exists first, final.
  split.
  { rewrite Hin, concat_app. simpl. rewrite app_nil_r.
    change (concat (ingestCalls (host w1)) ++ eventBuffer (traj w1))%list with (outbox w1).
    rewrite app_assoc.
    change (concat (ingestCalls (host w1)) ++ eventBuffer (traj w1))%list with (outbox w1).
    rewrite He1, <- app_assoc. reflexivity. }
  split; [exact Hb|]. split; [exact Hty1|].
  split; [rewrite Hpl1; reflexivity|].
  split; [exact Hty|]. split; [now rewrite Hrid, Hr1|].
  split; [exact Hst|]. split; [exact Hfa|].
  unfold hasActiveTrajectory. rewrite Hstore. cbn [ep_sessionKey].
  now rewrite lookup_delete_eq.
Qed.
(** What the configuration lets through.  With the integration ready and
    a trajectory for the session, [captureAgentLLMCall] queues one
    [llm_call] event unless [capture.llmCalls] is set to false; the event
    carries the reasoning of the call unless [capture.reasoning] is set to
    false, and then it carries none.  [captureAgentToolCall] queues one
    [tool_call] event unless [capture.tools] is set to false.  A flag that
    is not set counts as true. *)
Theorem capture_flags_gate_the_hooks
    (P : Platform) (config : option MoltbotConfig) (w : World) :
  isMarloReady P config w = true ->
  let capture := opt mc_capture (opt cfg_marlo config) in
  (forall p T,
     cl_config p = config ->
     activeTrajectories (traj w) !! cl_sessionKey p = Some T ->
     let w' := captureAgentLLMCall P p w in
     match opt cc_llmCalls capture with
     | Some false => w' = w
     | _ =>
         exists e,
           outbox w' = (outbox w ++ [e])%list /\
           event_type e = llm_call /\
           run_id e = JStr (runId T) /\
           getField "response" (payload e) = optObj (cl_response p) /\
           getField "reasoning" (payload e) =
             match opt cc_reasoning capture with
             | Some false => JUndefined
             | _ => optObj (cl_reasoning p)
             end
     end) /\
  (forall p T,
     ct_config p = config ->
     activeTrajectories (traj w) !! ct_sessionKey p = Some T ->
     let w' := captureAgentToolCall P p w in
     match opt cc_tools capture with
     | Some false => w' = w
     | _ =>
         exists e,
           outbox w' = (outbox w ++ [e])%list /\
           event_type e = tool_call /\
           run_id e = JStr (runId T) /\
           getField "tool_name" (payload e) = JStr (ct_toolName p)
     end).
Proof.
  intros Hr. cbv zeta. assert (Hc := isMarloReady_client _ _ _ Hr).
  assert (Hflag : forall (f : MarloCaptureConfig -> option bool),
            default true (opt f (opt mc_capture (opt cfg_marlo config))) =
            default true (opt f (mc_capture (default emptyMarloConfig (opt cfg_marlo config))))).
  { intros f. destruct (opt cfg_marlo config); reflexivity. }
  split.
  - intros p T <- Ha. unfold captureAgentLLMCall. rewrite Hr. cbn [negb].
    unfold resolveMarloConfig. cbn [mc_capture opt cc_llmCalls cc_reasoning default
                                    from_option id df_llmCalls df_reasoning df_capture
                                    DEFAULTS].
    fold (default true (opt cc_llmCalls (mc_capture
            (default emptyMarloConfig (opt cfg_marlo (cl_config p)))))).
    fold (default true (opt cc_reasoning (mc_capture
            (default emptyMarloConfig (opt cfg_marlo (cl_config p)))))).
    rewrite <- !Hflag.
    destruct (opt cc_llmCalls (opt mc_capture (opt cfg_marlo (cl_config p)))) as [[|]|];
      cbn [default from_option id negb]; try reflexivity;
      (match goal with |- context [logLLMCall ?q w] =>
         destruct (logLLMCall_event q w T Ha Hc) as (e & He & Hty & Hrid & Hpl)
       end;
       exists e; repeat (split; [assumption|]); rewrite Hpl;
       (split; [reflexivity|]);
       destruct (opt cc_reasoning (opt mc_capture (opt cfg_marlo (cl_config p))))
         as [[|]|]; reflexivity).
  - intros p T <- Ha. unfold captureAgentToolCall. rewrite Hr. cbn [negb].
    unfold resolveMarloConfig. cbn [mc_capture opt cc_tools default
                                    from_option id df_tools df_capture DEFAULTS].
    fold (default true (opt cc_tools (mc_capture
            (default emptyMarloConfig (opt cfg_marlo (ct_config p)))))).
    rewrite <- !Hflag.
    destruct (opt cc_tools (opt mc_capture (opt cfg_marlo (ct_config p)))) as [[|]|];
      cbn [default from_option id negb]; try reflexivity;
      (match goal with |- context [logToolCall ?q w] =>
         destruct (logToolCall_active q w T Ha Hc) as (e & He & Hty & Hrid & Hpl)
       end;
       exists e; repeat (split; [assumption|]); rewrite Hpl; reflexivity).
Qed.
(** ** The format of an API key *)

Lemma afterPrefix_Some pre s rest : afterPrefix pre s = Some rest <-> s = pre +:+ rest.
Proof.
  revert s. induction pre as [|c pre IH]; intros s; simpl.
  - split; [intros [= ->]; reflexivity|intros ->; reflexivity].
  - destruct s as [|d s]; [split; discriminate|].
    destruct (Ascii.eqb_spec c d) as [->|Hne].
    + rewrite IH. split; [intros ->; reflexivity|intros [= ->]; reflexivity].
    + split; [discriminate|]. intros [= Hd _]. congruence.
Qed.

Lemma take_drop_while p s : s = takeWhileChar p s +:+ dropWhileChar p s.
Proof.
  induction s as [|c s IH]; simpl; [reflexivity|].
  destruct (p c); [|reflexivity].
  exact (f_equal (String c) IH).
Qed.

Lemma allChars_takeWhile p s : allChars p (takeWhileChar p s) = true.
Proof.
  induction s as [|c s IH]; simpl; [reflexivity|].
  destruct (p c) eqn:Hp; simpl; [now rewrite Hp|reflexivity].
Qed.

Lemma dropWhile_app p s c rest :
  allChars p s = true -> p c = false ->
  dropWhileChar p (s +:+ String c rest) = String c rest.
Proof.
  intros Hs Hc. induction s as [|d s IH].
  - simpl. now rewrite Hc.
  - simpl in Hs. apply andb_true_iff in Hs. destruct Hs as [Hd Hs].
    change (dropWhileChar p (String d (s +:+ String c rest)) = String c rest).
    simpl. rewrite Hd. now apply IH.
Qed.

Lemma allChars_app p s t : allChars p (s +:+ t) = allChars p s && allChars p t.
Proof.
  induction s as [|c s IH]; [reflexivity|].
  change (allChars p (String c (s +:+ t)) = allChars p (String c s) && allChars p t).
  simpl. now rewrite IH, andb_assoc.
Qed.

Lemma allChars_impl (p q : Ascii.ascii -> bool) s :
  (forall c, p c = true -> q c = true) -> allChars p s = true -> allChars q s = true.
Proof.
  intros Hpq. induction s as [|c s IH]; simpl; [reflexivity|].
  intros H. apply andb_true_iff in H. destruct H as [Hc Hs].
  now rewrite (Hpq c Hc), IH.
Qed.

Lemma isChar_eq s c : isChar s c = true -> s = String c EmptyString.
Proof. unfold isChar. intros H. apply String.eqb_eq in H. now symmetry. Qed.

Lemma isLower_isKeyChar c : isLower c = true -> isKeyChar c = true.
Proof. unfold isLower, isKeyChar. now intros ->. Qed.

Lemma isHexChar_isKeyChar c : isHexChar c = true -> isKeyChar c = true.
Proof.
  destruct c as [[|] [|] [|] [|] [|] [|] [|] [|]]; vm_compute; intros H;
    first [reflexivity|discriminate].
Qed.

Lemma matchesPrefixedKey_spec s :
  matchesPrefixedKey s = true <->
  exists kind body,
    s = "marlo_" +:+ kind +:+ "_" +:+ body /\
    kind <> "" /\ allChars isLower kind = true /\
    body <> "" /\ allChars isKeyChar body = true.
Proof.
  unfold matchesPrefixedKey. split.
  - destruct (afterPrefix "marlo_" s) as [[|c rest]|] eqn:Hpre; try discriminate.
    apply afterPrefix_Some in Hpre.
    intros H. apply andb_true_iff in H. destruct H as [Hc H].
    destruct (dropWhileChar isLower (String c rest)) as [|u [|d body]] eqn:Hdrop;
      try discriminate.
    apply andb_true_iff in H. destruct H as [Hu Hbody].
    apply isChar_eq in Hu. injection Hu as <-.
    exists (takeWhileChar isLower (String c rest)), (String d body).
    split.
    { rewrite Hpre. f_equal.
      rewrite (take_drop_while isLower (String c rest)) at 1. now rewrite Hdrop. }
    split; [simpl; rewrite Hc; discriminate|].
    split; [apply allChars_takeWhile|]. split; [discriminate|exact Hbody].
  - intros (kind & body & -> & Hk & Hlow & Hb & Hkey).
    assert (Hpre : afterPrefix "marlo_" ("marlo_" +:+ kind +:+ "_" +:+ body)
                   = Some (kind +:+ "_" +:+ body)) by (now apply afterPrefix_Some).
    rewrite Hpre. destruct kind as [|c kind]; [congruence|].
    assert (Hdrop : dropWhileChar isLower (String c kind +:+ "_" +:+ body) = "_" +:+ body).
    { match constr:("_") with
      | String ?u _ => exact (dropWhile_app isLower (String c kind) u body Hlow eq_refl)
      end. }
    change (String c kind +:+ "_" +:+ body) with (String c (kind +:+ "_" +:+ body)) in *.
    assert (Hc : isLower c = true /\ allChars isLower kind = true)
      by (now apply andb_true_iff).
    destruct Hc as [Hc Hkind]. rewrite Hc, Hdrop. cbn [andb].
    destruct body as [|d body]; [congruence|]. exact Hkey.
Qed.

(** The keys [isValidApiKeyFormat] accepts are the strings marlo_, one or
    more lower-case letters, an underscore, one or more of the characters
    a-z, A-Z, 0-9, underscore and hyphen, and the strings of exactly 64
    hexadecimal digits.  So an accepted key is never empty and holds no
    other character than a-z, A-Z, 0-9, underscore and hyphen. *)
Theorem isValidApiKeyFormat_accepts (s : string) :
  (isValidApiKeyFormat s = true <->
   (exists kind body,
      s = "marlo_" +:+ kind +:+ "_" +:+ body /\
      kind <> "" /\ allChars isLower kind = true /\
      body <> "" /\ allChars isKeyChar body = true) \/
   (String.length s = 64%nat /\ allChars isHexChar s = true)) /\
  (isValidApiKeyFormat s = true -> s <> "" /\ allChars isKeyChar s = true).
Proof.
  assert (Hiff : isValidApiKeyFormat s = true <->
            matchesPrefixedKey s = true \/ matchesHexKey s = true).
  { unfold isValidApiKeyFormat.
    destruct (matchesPrefixedKey s); [tauto|].
    destruct (matchesHexKey s); split; auto. intros [H|H]; discriminate. }
  assert (Hhex : matchesHexKey s = true <->
            String.length s = 64%nat /\ allChars isHexChar s = true).
  { unfold matchesHexKey. rewrite andb_true_iff, Nat.eqb_eq. tauto. }
  split.
  - rewrite Hiff, matchesPrefixedKey_spec, Hhex. tauto.
  - rewrite Hiff, matchesPrefixedKey_spec, Hhex.
    intros [(kind & body & -> & Hk & Hlow & Hb & Hkey)|[Hlen Hall]].
    + split; [discriminate|].
      rewrite !allChars_app, Hkey, (allChars_impl _ _ _ isLower_isKeyChar Hlow).
      reflexivity.
    + split; [intros ->; discriminate|].
      exact (allChars_impl _ _ _ isHexChar_isKeyChar Hall).
Qed.
(** ** Starting and stopping the integration *)

(** [initMarlo], run to its end.  It returns false at once, with nothing
    but a warning changed, when the integration is not enabled or no API
    key is configured.  Otherwise it installs a client for the configured
    key and URL and asks it to verify the key; when that yields a scope it
    subscribes the listener and returns true, and when it yields none it
    removes the client again and returns false, leaving the listener as it
    was. *)
Theorem initMarlo_keeps_the_client_only_when_verified
    (P : Platform) (config : option MoltbotConfig) (w : World) (scope : option MarloScope) :
  let w1 := fst (initMarlo P config w) in
  match snd (initMarlo P config w) with
  | InitReturned ok =>
      ok = false /\
      clientInstance w1 = clientInstance w /\ traj w1 = traj w /\ lsn w1 = lsn w /\
      (isMarloEnabled P config = false \/ truthyStr (getMarloApiKey P config) = false)
  | InitAwaitingVerify =>
      isMarloEnabled P config = true /\
      exists key,
        getMarloApiKey P config = Some key /\ key <> "" /\
        clientInstance w1 =
          Some {| apiUrl := stripTrailingSlash (getMarloApiUrl P config);
                  apiKey := key; timeoutMs := 10000 |} /\
        let w2 := fst (initMarlo_resume scope w1) in
        match scope with
        | Some _ =>
            snd (initMarlo_resume scope w1) = true /\
            clientInstance w2 = clientInstance w1 /\
            unsubscribe (lsn w2) = true
        | None =>
            snd (initMarlo_resume scope w1) = false /\
            isMarloActive w2 = false /\
            lsn w2 = lsn w /\ traj w2 = traj w
        end
  end.
Proof.
  cbv zeta. unfold initMarlo.
  destruct (isMarloEnabled P config) eqn:He; cbn [negb].
  2: { cbn [fst snd]. repeat split. now left. }
  destruct (getMarloApiKey P config) as [[|c key]|] eqn:Hk; cbn [fst snd].
  - repeat split. now right.
  - split; [reflexivity|]. exists (String c key).
    split; [reflexivity|]. split; [discriminate|]. split; [reflexivity|].
    destruct scope; cbn [initMarlo_resume fst snd].
    + split; [reflexivity|]. unfold startEventListener.
      destruct (unsubscribe (lsn _)) eqn:Hu; split; try reflexivity. exact Hu.
    + repeat split.
  - repeat split. now right.
Qed.

(** *** The listener is idle while it is stopped *)

Lemma lsn_endTrajectory q w : lsn (endTrajectory q w) = lsn w.
Proof.
  unfold endTrajectory. destruct (_ !! _); [|reflexivity].
  rewrite createEvent_pair, lsn_flushBuffer. cbn [lsn updTraj]. apply lsn_emit.
Qed.

Lemma lsn_logLLMCall p w : lsn (logLLMCall p w) = lsn w.
Proof. apply (logLLMCall_core p w). Qed.

Lemma idle_lsn w w' : lsn w' = lsn w -> IdleWhenStopped w -> IdleWhenStopped w'.
Proof. unfold IdleWhenStopped. intros ->. tauto. Qed.

Lemma idle_step op w : IdleWhenStopped w -> IdleWhenStopped (step op w).
Proof.
  intros HI. destruct op as [p|p|p|p|p| |e| | |sk0|c| |ms|h|r]; cbn [step].
  - apply (idle_lsn w); [|assumption]. apply (startTrajectory_store p w).
  - apply (idle_lsn w); [|assumption]. apply lsn_endTrajectory.
  - apply (idle_lsn w); [|assumption]. apply lsn_logLLMCall.
  - apply (idle_lsn w); [|assumption]. apply lsn_logToolCall.
  - apply (idle_lsn w); [|assumption]. apply lsn_logAgentDefinition.
  - apply (idle_lsn w); [|assumption]. apply lsn_flushBuffer.
  - destruct (unsubscribe (lsn w)) eqn:Hu; [|assumption].
    intros Hu'. destruct (handleAgentEvent_effect w e) as (_ & _ & _ & Hs & _).
    congruence.
  - unfold startEventListener. destruct (unsubscribe (lsn w)) eqn:Hu.
    + intros Hu'. congruence.
    + intros Hu'. discriminate.
  - unfold stopEventListener. destruct (unsubscribe (lsn w)) eqn:Hu; [|assumption].
    intros _.
    match goal with
    | |- context [map_fold ?f ?x ?m] =>
        destruct (clearAll_spec m x) as (_ & H2 & _);
        set (w1 := map_fold f x m) in *
    end.
    cbn [lsn updLsn]. rewrite H2. reflexivity.
  - destruct (unsubscribe (lsn w)) eqn:Hu.
    + intros Hu'. exfalso. revert Hu'. unfold flushPendingLLMEvents.
      cbn [lsn updLsn unsubscribe setLastLLMTextBySession].
      destruct (llmDebounceTimers (lsn w) !! sk0);
        cbn [lsn updLsn clearTimeout updHost llmPendingData setLlmDebounceTimers];
        destruct (llmPendingData (lsn w) !! sk0);
        cbn [lsn updLsn unsubscribe setLlmPendingData setLlmDebounceTimers];
        rewrite ?lsn_logLLMCall; cbn [lsn updLsn unsubscribe clearTimeout updHost
                                      setLlmDebounceTimers]; congruence.
    + intros _. specialize (HI Hu). unfold flushPendingLLMEvents.
      assert (Hd : llmDebounceTimers (lsn w) !! sk0 = None)
        by (rewrite HI; apply lookup_empty).
      assert (Hp : llmPendingData (lsn w) !! sk0 = None)
        by (rewrite HI; apply lookup_empty).
      rewrite Hd, Hp. cbn [lsn updLsn]. rewrite HI.
      unfold setLastLLMTextBySession, idleListener.
      cbn [toolStartTimes toolInputsById runIdToSession lastLLMTextBySession
           llmDebounceTimers llmPendingData unsubscribe].
      now rewrite delete_empty.
  - assumption.
  - assumption.
  - assumption.
  - unfold fireTimer. destruct (timers (host w) !! h) as [[d cb]|]; [|assumption].
    cbn [due callback]. destruct (d <=? now (host w)); [|assumption].
    destruct cb as [|sk]; cbn [runCallback].
    + apply (idle_lsn w); [|assumption]. now rewrite lsn_flushBuffer.
    + unfold llmDebounceFired.
      change (llmPendingData (lsn (clearTimeout h w))) with (llmPendingData (lsn w)).
      destruct (unsubscribe (lsn w)) eqn:Hu.
      * intros Hu'. exfalso. revert Hu'.
        destruct (llmPendingData (lsn w) !! sk);
          cbn [lsn updLsn unsubscribe setLlmPendingData setLlmDebounceTimers];
          rewrite ?lsn_logLLMCall; cbn [lsn clearTimeout updHost]; congruence.
      * intros _. specialize (HI Hu).
        assert (Hp : llmPendingData (lsn w) !! sk = None)
          by (rewrite HI; apply lookup_empty).
        rewrite Hp. cbn [lsn updLsn clearTimeout updHost]. rewrite HI.
        unfold setLlmDebounceTimers, idleListener.
        cbn [toolStartTimes toolInputsById runIdToSession lastLLMTextBySession
             llmDebounceTimers llmPendingData unsubscribe].
        now rewrite delete_empty.
  - destruct r; assumption.
Qed.

Lemma reachable_idleWhenStopped w : Reachable w -> IdleWhenStopped w.
Proof.
  intros (uuid & iso & t0 & ops & ->).
  assert (H0 : IdleWhenStopped (initialWorld uuid iso t0)) by (intros _; reflexivity).
  revert H0. generalize (initialWorld uuid iso t0).
  induction ops as [|op ops IH]; intros w H0; [assumption|].
  simpl. apply IH. now apply idle_step.
Qed.
Lemma flushBuffer_timers w :
  timers (host (fst (flushBuffer w))) =
  match flushTimer (traj w) with
  | Some h => delete h (timers (host w))
  | None => timers (host w)
  end.
Proof.
  destruct (eventBuffer (traj w)) as [|e l] eqn:Hb.
  - rewrite flushBuffer_empty by assumption. destruct (flushTimer (traj w)); reflexivity.
  - rewrite flushBuffer_nonempty by (rewrite Hb; discriminate). simpl.
    destruct (clientInstance w), (flushTimer (traj w)); reflexivity.
Qed.

Lemma flushBuffer_ingestCalls w :
  ingestCalls (host (fst (flushBuffer w))) =
  match eventBuffer (traj w), clientInstance w with
  | _ :: _, Some _ => (ingestCalls (host w) ++ [eventBuffer (traj w)])%list
  | _, _ => ingestCalls (host w)
  end.
Proof.
  destruct (eventBuffer (traj w)) as [|e l] eqn:Hb.
  - rewrite flushBuffer_empty by assumption. destruct (flushTimer (traj w)); reflexivity.
  - rewrite flushBuffer_nonempty by (rewrite Hb; discriminate). simpl.
    destruct (clientInstance w), (flushTimer (traj w)); simpl; rewrite ?Hb; reflexivity.
Qed.

Lemma stopEventListener_effect w :
  IdleWhenStopped w ->
  lsn (stopEventListener w) = idleListener /\
  traj (stopEventListener w) = traj w /\
  clientInstance (stopEventListener w) = clientInstance w /\
  ingestCalls (host (stopEventListener w)) = ingestCalls (host w) /\
  uuidCalls (host (stopEventListener w)) = uuidCalls (host w).
Proof.
  intros HI. unfold stopEventListener.
  destruct (unsubscribe (lsn w)) eqn:Hu.
  - match goal with
    | |- context [map_fold ?f ?x ?m] =>
        destruct (clearAll_spec m x) as (H1 & H2 & H3 & _ & _ & H6 & H7 & _);
        set (w1 := map_fold f x m) in *
    end.
    cbn [lsn updLsn host traj clientInstance]. rewrite H1, H2, H3, H6, H7.
    repeat split.
  - repeat split. exact (HI Hu).
Qed.

(** A shutdown of the integration in a reachable world, under any
    schedule.  Up to its await, [shutdownMarlo] puts the listener in the
    state of a freshly loaded module, cancels the flush timer and the
    debounce timer of every session, and empties the buffer: the buffered
    events go to the client as one last batch if there is a client; no
    event is created, so pending text is dropped; the client and the
    trajectories are still there.  When it has run to its end, whatever
    operations of the modules ran while it was waiting, there is no client
    and the learnings cache is empty (and no trajectory, if nothing ran
    after [shutdownTrajectoryCapture] had cleared them).  From then on
    the hooks find the integration not ready, [startMessageCapture] returns
    false, an agent event changes nothing, and a flush drops what is in
    the buffer without handing anything to a client. *)
Theorem shutdownMarlo_disconnects_under_any_schedule
    (a : App) (between1 between2 : list Op) (cache : list (string * CacheEntry)) :
  Reachable (world a) ->
  let w := world a in
  let w1 := world (fst (shutdownMarlo a)) in
  let a' := shutdownMarlo_run between1 between2 cache a in
  let w' := world a' in
  (lsn w1 = idleListener /\
   eventBuffer (traj w1) = [] /\
   flushTimer (traj w1) = None /\
   (forall h, flushTimer (traj w) = Some h -> timers (host w1) !! h = None) /\
   (forall sk h, llmDebounceTimers (lsn w) !! sk = Some h -> timers (host w1) !! h = None) /\
   ingestCalls (host w1) =
     match eventBuffer (traj w), clientInstance w with
     | _ :: _, Some _ => (ingestCalls (host w) ++ [eventBuffer (traj w)])%list
     | _, _ => ingestCalls (host w)
     end /\
   uuidCalls (host w1) = uuidCalls (host w) /\
   clientInstance w1 = clientInstance w /\
   activeTrajectories (traj w1) = activeTrajectories (traj w)) /\
  (isMarloActive w' = false /\
   learningCache a' = [] /\
   (between2 = [] -> activeTrajectories (traj w') = ∅)) /\
  ((forall P config, isMarloReady P config w' = false) /\
   (forall P ctx, startMessageCapture P ctx w' = (w', CaptureReturned false)) /\
   (forall e, handleAgentEvent e w' = w') /\
   eventBuffer (traj (fst (flushBuffer w'))) = [] /\
   ingestCalls (host (fst (flushBuffer w'))) = ingestCalls (host w')).
Proof.
  intros HR. cbv zeta.
  assert (HT := reachable_timersTracked _ HR).
  assert (HI := reachable_idleWhenStopped _ HR).
  destruct (stopEventListener_effect (world a) HI) as (Hl & Ht & Hc & Hi & Hu).
  assert (HTs := tt_stopEventListener _ HT).
  assert (Hw1 : world (fst (shutdownMarlo a)) = fst (flushBuffer (stopEventListener (world a)))).
  { unfold shutdownMarlo, shutdownTrajectoryCapture.
    destruct (flushBuffer (stopEventListener (world a))); reflexivity. }
  set (ws := stopEventListener (world a)) in *.
  assert (Hempty : timers (host (fst (flushBuffer ws))) = ∅).
  { apply map_empty. intros h. rewrite flushBuffer_timers.
    destruct (timers (host ws) !! h) as [t|] eqn:Hh.
    - assert (Ho := tt_owner ws HTs h t Hh).
      destruct (callback t) as [|sk].
      + rewrite Ho. apply lookup_delete_eq.
      + rewrite Hl in Ho. cbn in Ho. rewrite lookup_empty in Ho. discriminate.
    - destruct (flushTimer (traj ws)); [|assumption].
      apply lookup_delete_None. now right. }
  destruct (flushBuffer_core ws) as (Hfc & Hfa & _ & Hfl).
  split; [|split].
  - rewrite Hw1.
    split; [now rewrite Hfl|].
    split; [apply flushBuffer_buffer|].
    split; [apply flushBuffer_flushTimer|].
    split; [intros h _; rewrite Hempty; apply lookup_empty|].
    split; [intros sk h _; rewrite Hempty; apply lookup_empty|].
    split; [rewrite flushBuffer_ingestCalls, Ht, Hc, Hi; reflexivity|].
    split; [now rewrite flushBuffer_uuidCalls|].
    split; [now rewrite Hfc|].
    now rewrite Hfa, Ht.
  - unfold shutdownMarlo_run, shutdownMarlo_resume, clearLearningsCache, setLearningCache,
      onWorld, shutdownMarloClient, isMarloActive, getMarloClient.
    cbn [world learningCache setClient clientInstance traj].
    split; [reflexivity|]. split; [reflexivity|].
    intros ->. reflexivity.
  - unfold shutdownMarlo_run, shutdownMarlo_resume, clearLearningsCache, setLearningCache,
      onWorld. cbn [world learningCache].
    match goal with |- context [shutdownMarloClient ?x] => set (w' := shutdownMarloClient x) end.
    assert (Hnone : clientInstance w' = None) by reflexivity.
    assert (Hready : forall P config, isMarloReady P config w' = false).
    { intros P config. apply isMarloReady_false. now right. }
    split; [exact Hready|].
    split; [intros P ctx; unfold startMessageCapture; now rewrite Hready|].
    split; [intros e; exact (proj1 (proj2 (proj2 (proj2 (proj2
              (handleAgentEvent_effect w' e))))) Hnone)|].
    split; [apply flushBuffer_buffer|].
    rewrite flushBuffer_ingestCalls, Hnone. now destruct (eventBuffer (traj w')).
Qed.

(** ** The learnings cache *)

Lemma mapGet_mapSet_eq {A} k (v : A) m : mapGet k (mapSet k v m) = Some v.
Proof.
  induction m as [|[k' v'] m IH]; simpl.
  - now rewrite String.eqb_refl.
  - destruct (String.eqb k k') eqn:He; simpl; [now rewrite String.eqb_refl|].
    now rewrite He.
Qed.

Lemma mapGet_mapSet_ne {A} k k0 (v : A) m :
  k <> k0 -> mapGet k (mapSet k0 v m) = mapGet k m.
Proof.
  intros Hne. induction m as [|[k' v'] m IH]; simpl.
  - destruct (String.eqb_spec k k0); [contradiction|reflexivity].
  - destruct (String.eqb_spec k0 k') as [->|Hk]; simpl.
    + destruct (String.eqb_spec k k'); [contradiction|reflexivity].
    + destruct (String.eqb k k'); [reflexivity|exact IH].
Qed.

Lemma mapGet_mapDelete_ne {A} k k0 (m : list (string * A)) :
  k <> k0 -> mapGet k (mapDelete k0 m) = mapGet k m.
Proof.
  intros Hne. induction m as [|[k' v'] m IH]; simpl; [reflexivity|].
  destruct (String.eqb_spec k0 k') as [->|Hk]; simpl.
  - destruct (String.eqb_spec k k'); [contradiction|reflexivity].
  - destruct (String.eqb k k'); [reflexivity|exact IH].
Qed.

Lemma mapGet_None {A} k (m : list (string * A)) :
  mapGet k m = None <-> k ∉ map fst m.
Proof.
  induction m as [|[k' v'] m IH]; simpl.
  - split; [intros _; apply not_elem_of_nil|reflexivity].
  - rewrite not_elem_of_cons.
    destruct (String.eqb_spec k k') as [->|Hk]; [split; [discriminate|tauto]|].
    rewrite IH. tauto.
Qed.

Lemma mapGet_mapDelete_eq {A} k (m : list (string * A)) :
  NoDup (map fst m) -> mapGet k (mapDelete k m) = None.
Proof.
  induction m as [|[k' v'] m IH]; simpl; [reflexivity|].
  intros Hnd. apply NoDup_cons in Hnd. destruct Hnd as [Hnotin Hnd].
  destruct (String.eqb_spec k k') as [->|Hk].
  - now apply mapGet_None.
  - simpl. destruct (String.eqb_spec k k'); [contradiction|]. now apply IH.
Qed.

Lemma length_mapSet {A} k (v : A) m :
  length (mapSet k v m) =
  match mapGet k m with
  | Some _ => length m
  | None => S (length m)
  end.
Proof.
  induction m as [|[k' v'] m IH]; simpl; [reflexivity|].
  destruct (String.eqb k k'); simpl; [reflexivity|].
  rewrite IH. destruct (mapGet k m); reflexivity.
Qed.

Lemma keys_mapSet {A} k (v : A) m :
  map fst (mapSet k v m) =
  match mapGet k m with
  | Some _ => map fst m
  | None => (map fst m ++ [k])%list
  end.
Proof.
  induction m as [|[k' v'] m IH]; simpl; [reflexivity|].
  destruct (String.eqb_spec k k') as [->|Hk]; simpl; [reflexivity|].
  rewrite IH. destruct (mapGet k m); reflexivity.
Qed.

Lemma length_mapDelete_head {A} k (v : A) m :
  length (mapDelete k ((k, v) :: m)) = length m.
Proof. simpl. now rewrite String.eqb_refl. Qed.

Lemma keys_mapDelete_head {A} k (v : A) m : mapDelete k ((k, v) :: m) = m.
Proof. simpl. now rewrite String.eqb_refl. Qed.

(** The cache after [getActiveLearnings] has stored what it fetched: the
    entry is in it, unless it was evicted at once. *)
Lemma resume_cache key fetched a :
  (length (learningCache a) <= maxEntries LEARNING_CACHE)%nat ->
  mapGet key (learningCache (snd (getActiveLearnings_resume key fetched a))) =
  Some {| ce_learnings := fetched;
          ce_expiresAt := now (host (world a)) + ttlMs LEARNING_CACHE |}.
Proof.
  intros Hlen. unfold getActiveLearnings_resume.
  cbn [snd setLearningCache learningCache world].
  set (entry := {| ce_learnings := fetched; ce_expiresAt := _ |}).
  destruct (Nat.ltb_spec (maxEntries LEARNING_CACHE)
              (length (mapSet key entry (learningCache a)))) as [Hfull|_];
    [|apply mapGet_mapSet_eq].
  rewrite length_mapSet in Hfull.
  destruct (mapGet key (learningCache a)) as [old|] eqn:Hget; [lia|].
  destruct (learningCache a) as [|[k0 v0] m] eqn:Hcache; [simpl in Hfull; lia|].
  assert (Hne : key <> k0).
  { intros ->. simpl in Hget. rewrite String.eqb_refl in Hget. discriminate. }
  assert (Hset : mapSet key entry ((k0, v0) :: m) = (k0, v0) :: mapSet key entry m).
  { simpl. destruct (String.eqb_spec key k0); [contradiction|reflexivity]. }
  rewrite Hset. destruct k0 as [|c k0].
  - rewrite <- Hset. apply mapGet_mapSet_eq.
  - cbn [setLearningCache learningCache]. rewrite keys_mapDelete_head.
    apply mapGet_mapSet_eq.
Qed.

(** What [getActiveLearnings] fetched for a key is stored in the cache
    (that goes for the empty list of a failed fetch, too).  As long as the
    entry of the key is the one the fetch left there (it has not been
    evicted, invalidated, cleared or replaced by a later fetch), a call for
    that key made less than [ttlMs] = 60000 ms after the fetch, and not
    forcing a refresh, is served the fetched list from the cache without
    asking the client; from 60000 ms on, or on a forced refresh, the call
    asks the client again, or returns the empty list when there is no
    client.  Invalidating another key leaves the entry in place. *)
Theorem fetched_learnings_are_served_for_a_minute
    (a : App) (key : string) (state : option LearningState) :
  (length (learningCache a) <= 100)%nat ->
  let fetched := getActiveLearningsForPrompt state in
  let a1 := snd (getActiveLearnings_resume key fetched a) in
  fst (getActiveLearnings_resume key fetched a) = fetched /\
  world a1 = world a /\
  mapGet key (learningCache a1) =
    Some {| ce_learnings := fetched; ce_expiresAt := now (host (world a)) + 60000 |} /\
  (forall params a2,
    learningKeyOf (gl_agentId params) (gl_projectId params) = key ->
    mapGet key (learningCache a2) = mapGet key (learningCache a1) ->
    getActiveLearnings params a2 =
      if default false (gl_forceRefresh params)
         || (now (host (world a)) + 60000 <=? now (host (world a2)))
      then match clientInstance (world a2) with
           | Some _ => LearningsAwaiting key
           | None => LearningsReturned []
           end
      else LearningsReturned fetched) /\
  (forall agentId projectId a2,
    learningKeyOf agentId projectId <> key ->
    mapGet key (learningCache (invalidateLearningsCache agentId projectId a2))
      = mapGet key (learningCache a2)).
Proof.
  intros Hlen. cbv zeta.
  split; [reflexivity|]. split.
  { unfold getActiveLearnings_resume. cbn [snd].
    destruct (_ <? _)%nat; [|reflexivity].
    cbn [learningCache setLearningCache].
    destruct (mapSet _ _ _) as [|[[|c k0] v0] m]; reflexivity. }
  split; [exact (resume_cache key _ a Hlen)|]. split.
  - intros params a2 Hkey Hcache. unfold getActiveLearnings, getMarloClient.
    rewrite Hkey, Hcache, (resume_cache key _ a Hlen). cbn [ce_expiresAt ce_learnings].
    change (ttlMs LEARNING_CACHE) with 60000.
    destruct (default false (gl_forceRefresh params)); cbn [orb]; [reflexivity|].
    destruct (Z.ltb_spec (now (host (world a2))) (now (host (world a)) + 60000)),
             (Z.leb_spec (now (host (world a)) + 60000) (now (host (world a2))));
      try lia; reflexivity.
  - intros agentId projectId a2 Hne. unfold invalidateLearningsCache.
    cbn [setLearningCache learningCache]. apply mapGet_mapDelete_ne. congruence.
Qed.

Lemma mapSet_None {A} k (v : A) m :
  mapGet k m = None -> mapSet k v m = (m ++ [(k, v)])%list.
Proof.
  induction m as [|[k' v'] m IH]; simpl; [reflexivity|].
  destruct (String.eqb k k'); [discriminate|]. intros H. now rewrite IH.
Qed.

Lemma NoDup_keys_mapSet {A} k (v : A) m :
  NoDup (map fst m) -> NoDup (map fst (mapSet k v m)).
Proof.
  intros Hnd. rewrite keys_mapSet.
  destruct (mapGet k m) eqn:Hget; [assumption|].
  apply NoDup_app. split; [assumption|]. split; [|apply NoDup_singleton].
  intros x Hx Hx'. apply list_elem_of_singleton in Hx'. subst x.
  now apply mapGet_None in Hget.
Qed.

Lemma keys_mapDelete_sub {A} k (m : list (string * A)) x :
  x ∈ map fst (mapDelete k m) -> x ∈ map fst m.
Proof.
  induction m as [|[k' v'] m IH]; simpl; [tauto|].
  destruct (String.eqb k k'); simpl.
  - intros H. now apply elem_of_cons; right.
  - rewrite !elem_of_cons. intros [->|H]; [now left|right; now apply IH].
Qed.

Lemma NoDup_keys_mapDelete {A} k (m : list (string * A)) :
  NoDup (map fst m) -> NoDup (map fst (mapDelete k m)).
Proof.
  induction m as [|[k' v'] m IH]; simpl; [tauto|].
  intros Hnd. apply NoDup_cons in Hnd. destruct Hnd as [Hnotin Hnd].
  destruct (String.eqb k k'); simpl; [assumption|].
  apply NoDup_cons. split; [|now apply IH].
  intros Hin. apply Hnotin. now apply keys_mapDelete_sub in Hin.
Qed.

(** [getActiveLearnings] keeps the cache at no more than [maxEntries] = 100
    entries, as long as no key is the empty string: a fetch for a key
    already in the cache replaces its entry in place, a fetch for a new key
    appends an entry, and when that makes 101 entries the entry inserted
    first is dropped, whether or not it has expired or was served since. *)
Theorem learning_cache_evicts_the_oldest_entry
    (a : App) (key : string) (fetched : list Learning) :
  (length (learningCache a) <= 100)%nat ->
  Forall (fun k => k <> "") (map fst (learningCache a)) ->
  NoDup (map fst (learningCache a)) ->
  key <> "" ->
  let entry := {| ce_learnings := fetched;
                  ce_expiresAt := now (host (world a)) + 60000 |} in
  let a1 := snd (getActiveLearnings_resume key fetched a) in
  (length (learningCache a1) <= 100)%nat /\
  Forall (fun k => k <> "") (map fst (learningCache a1)) /\
  NoDup (map fst (learningCache a1)) /\
  learningCache a1 =
    match mapGet key (learningCache a) with
    | Some _ => mapSet key entry (learningCache a)
    | None =>
        if (length (learningCache a) =? 100)%nat
        then (tail (learningCache a) ++ [(key, entry)])%list
        else (learningCache a ++ [(key, entry)])%list
    end.
Proof.
  intros Hlen Hkeys Hnd Hkey. cbv zeta.
  unfold getActiveLearnings_resume.
  cbn [snd setLearningCache learningCache world].
  change (ttlMs LEARNING_CACHE) with 60000.
  change (maxEntries LEARNING_CACHE) with 100%nat.
  set (entry := {| ce_learnings := fetched; ce_expiresAt := _ |}).
  pose proof (length_mapSet key entry (learningCache a)) as Hl.
  pose proof (NoDup_keys_mapSet key entry (learningCache a) Hnd) as Hnd1.
  assert (Hkeys1 : Forall (fun k => k <> "") (map fst (mapSet key entry (learningCache a)))).
  { rewrite keys_mapSet. destruct (mapGet key (learningCache a)); [assumption|].
    apply Forall_app. split; [assumption|]. now apply Forall_singleton. }
  destruct (mapGet key (learningCache a)) as [old|] eqn:Hget.
  - destruct (Nat.ltb_spec 100 (length (mapSet key entry (learningCache a))));
      [lia|]. cbn [learningCache setLearningCache]. repeat split; try assumption; lia.
  - rewrite (mapSet_None key entry _ Hget) in *.
    destruct (Nat.eqb_spec (length (learningCache a)) 100) as [Hfull|Hroom].
    + destruct (Nat.ltb_spec 100 (length (learningCache a ++ [(key, entry)])));
        [|lia].
      destruct (learningCache a) as [|[k0 v0] m] eqn:Hcache; [discriminate|].
      change (((k0, v0) :: m) ++ [(key, entry)])%list
        with ((k0, v0) :: (m ++ [(key, entry)]))%list in *.
      simpl in Hkeys1, Hnd1, Hfull.
      apply Forall_cons in Hkeys1. destruct Hkeys1 as [Hk0 Hkeys1].
      apply NoDup_cons in Hnd1. destruct Hnd1 as [_ Hnd1].
      destruct k0 as [|c k0]; [contradiction|].
      cbn [setLearningCache learningCache]. rewrite keys_mapDelete_head.
      cbn [tail]. repeat split; try assumption.
      rewrite length_app; simpl; lia.
    + destruct (Nat.ltb_spec 100 (length (learningCache a ++ [(key, entry)])))
        as [Hover|_].
      { rewrite length_app in Hover. simpl in Hover. lia. }
      cbn [learningCache setLearningCache]. repeat split; try assumption; lia.
Qed.

(** After [invalidateLearningsCache] for an agent and project, the next
    [getActiveLearnings] for them is not served from the cache, whatever
    the time: it asks the client, or returns the empty list when there is
    no client.  The entries of other keys are served as before. *)
Theorem invalidated_learnings_are_fetched_again
    (a : App) (agentId projectId : option string) :
  NoDup (map fst (learningCache a)) ->
  let key := learningKeyOf agentId projectId in
  let a1 := invalidateLearningsCache agentId projectId a in
  world a1 = world a /\
  (forall force a2,
      learningCache a2 = learningCache a1 ->
      getActiveLearnings
        {| gl_agentId := agentId; gl_projectId := projectId;
           gl_forceRefresh := force |} a2 =
      match clientInstance (world a2) with
      | Some _ => LearningsAwaiting key
      | None => LearningsReturned []
      end) /\
  (forall params,
      learningKeyOf (gl_agentId params) (gl_projectId params) <> key ->
      getActiveLearnings params a1 = getActiveLearnings params a).
Proof.
  intros Hnd. cbv zeta. split; [reflexivity|]. split.
  - intros force a2 Hcache. unfold getActiveLearnings, getMarloClient.
    cbn [gl_agentId gl_projectId gl_forceRefresh]. rewrite Hcache.
    unfold invalidateLearningsCache. cbn [setLearningCache learningCache].
    rewrite (mapGet_mapDelete_eq _ _ Hnd).
    destruct (default false force); reflexivity.
  - intros params Hne. unfold getActiveLearnings, invalidateLearningsCache.
    cbn [setLearningCache learningCache world].
    now rewrite (mapGet_mapDelete_ne _ _ _ Hne).
Qed.

(** ** Excluded channels *)

Lemma includes_In l s : includes l s = true <-> In s l.
Proof.
  unfold includes. rewrite existsb_exists. split.
  - intros (x & Hx & He). apply String.eqb_eq in He. now subst.
  - intros Hin. exists s. split; [assumption|apply String.eqb_refl].
Qed.

(** [isChannelExcluded] compares the channel in lower case with the
    entries of [privacy.excludeChannels] as they are written.  So the case
    of the channel does not matter, a channel is excluded exactly when its
    lower-case form is an entry, and only an entry that is in lower case
    itself can exclude anything; without configured entries no channel is
    excluded. *)
Theorem channel_exclusion_ignores_case_of_the_channel_only
    (P : Platform) (config : option MoltbotConfig) (channel : string) :
  toLowerCase P (toLowerCase P channel) = toLowerCase P channel ->
  let entries :=
    default [] (opt pc_excludeChannels (opt mc_privacy (opt cfg_marlo config))) in
  isChannelExcluded P (toLowerCase P channel) config = isChannelExcluded P channel config /\
  (isChannelExcluded P channel config = true <-> In (toLowerCase P channel) entries) /\
  (isChannelExcluded P channel config = true ->
   exists entry, In entry entries /\ toLowerCase P channel = entry /\
                 toLowerCase P entry = entry).
Proof.
  intros Hidem. cbv zeta.
  assert (Hent : isChannelExcluded P channel config = true <->
                 In (toLowerCase P channel)
                    (default [] (opt pc_excludeChannels (opt mc_privacy (opt cfg_marlo config))))).
  { unfold isChannelExcluded, resolveMarloConfig.
    cbn [mc_privacy opt pc_excludeChannels default from_option id].
    rewrite includes_In.
    destruct config as [[[m|]]|]; cbn [opt cfg_marlo default from_option id];
      try (destruct (mc_privacy m) as [[? [l|] ?]|]);
      cbn [opt pc_excludeChannels default from_option id emptyMarloConfig mc_privacy
           df_excludeChannels df_privacy DEFAULTS];
      reflexivity. }
  split; [|split].
  - unfold isChannelExcluded. cbv zeta. now rewrite Hidem.
  - exact Hent.
  - intros Hex. apply Hent in Hex. exists (toLowerCase P channel).
    split; [assumption|]. split; [reflexivity|assumption].
Qed.

(** ** Ending a trajectory with text pending *)

Lemma settle_without_trajectory w sk p :
  TimersTracked w ->
  llmPendingData (lsn w) !! sk = Some p ->
  activeTrajectories (traj w) !! sk = None ->
  llmPendingData (lsn (settle sk w)) !! sk = None /\
  llmDebounceTimers (lsn (settle sk w)) !! sk = None /\
  traj (settle sk w) = traj w /\
  ingestCalls (host (settle sk w)) = ingestCalls (host w).
Proof.
  intros HT Hp Ha.
  destruct (tt_pending w HT sk) as [Hx _].
  destruct Hx as [h Hm]; [eexists; exact Hp|].
  destruct (tt_debounce w HT sk h Hm) as (d & Hd & Hle).
  change LLM_DEBOUNCE_MS with 100 in Hle.
  unfold settle.
  change (llmDebounceTimers (lsn (tick _ w))) with (llmDebounceTimers (lsn w)).
  rewrite Hm.
  set (w1 := tick (Z.to_nat LLM_DEBOUNCE_MS) w).
  assert (Hfire : fireTimer h w1 = llmDebounceFired sk (clearTimeout h w1)).
  { unfold fireTimer. change (timers (host w1)) with (timers (host w)). rewrite Hd. simpl.
    change (Z.of_nat (Z.to_nat LLM_DEBOUNCE_MS)) with 100.
    destruct (Z.leb_spec d (now (host w) + 100)) as [_|Hlt]; [reflexivity|lia]. }
  rewrite Hfire. unfold llmDebounceFired.
  change (llmPendingData (lsn (clearTimeout h w1))) with (llmPendingData (lsn w)).
  rewrite Hp.
  match goal with |- context [logLLMCall ?c _] =>
    rewrite (logLLMCall_inactive c (clearTimeout h w1)) by exact Ha end.
  cbn [lsn updLsn llmPendingData llmDebounceTimers setLlmPendingData setLlmDebounceTimers
       host traj clearTimeout updHost].
  split; [apply lookup_delete_eq|]. split; [apply lookup_delete_eq|].
  split; reflexivity.
Qed.

Lemma lsn_endMessageCaptureSuccess P params w :
  lsn (endMessageCaptureSuccess P params w) = lsn w.
Proof.
  unfold endMessageCaptureSuccess. destruct (_ || _); [reflexivity|].
  apply lsn_endTrajectory.
Qed.

Lemma lsn_endMessageCaptureError P params w :
  lsn (endMessageCaptureError P params w) = lsn w.
Proof.
  unfold endMessageCaptureError. destruct (_ || _); [reflexivity|].
  apply lsn_endTrajectory.
Qed.

(** C2, a defect of the code: the end of a trajectory does not flush the
    debouncer.  In every reachable world with text pending for a session,
    [endTrajectory] for that session, and the hooks
    [endMessageCaptureSuccess] and [endMessageCaptureError] that call it,
    leave the state of the listener as it is: the text stays pending and
    its debounce timer stays live, so what the claim says of the end of a
    trajectory does not hold; the batch handed over at the end closes with
    the [task_end] and holds no event for the pending text.  When the
    timer fires afterwards the trajectory is gone and the text is dropped
    without an event.  ([flushPendingLLMEvents] would settle the text, and
    its docstring asks for it to be called when a trajectory ends; neither
    [endTrajectory] nor the hooks call it.) *)
Theorem trajectory_end_strands_pending_text
    (w : World) (q : EndParams) (p : PendingLLM) :
  Reachable w ->
  llmPendingData (lsn w) !! ep_sessionKey q = Some p ->
  let sk := ep_sessionKey q in
  let w1 := endTrajectory q w in
  let w2 := settle sk w1 in
  ~ end_flushes_debounce w q /\
  lsn w1 = lsn w /\
  (forall P params, lsn (endMessageCaptureSuccess P params w) = lsn w) /\
  (forall P params, lsn (endMessageCaptureError P params w) = lsn w) /\
  (exists h d,
     llmDebounceTimers (lsn w1) !! sk = Some h /\
     timers (host w1) !! h = Some (mkTimer d (CbLLMDebounce sk))) /\
  (forall T, activeTrajectories (traj w) !! sk = Some T -> clientInstance w <> None ->
     exists final,
       outbox w1 = (outbox w ++ [final])%list /\ event_type final = task_end) /\
  llmPendingData (lsn w2) !! sk = None /\
  outbox w2 = outbox w1.
Proof.
  intros HR Hp. cbv zeta.
  assert (HT := reachable_timersTracked w HR).
  assert (HT1 := tt_endTrajectory q w HT).
  assert (Hl := lsn_endTrajectory q w).
  assert (Hp1 : llmPendingData (lsn (endTrajectory q w)) !! ep_sessionKey q = Some p)
    by (now rewrite Hl).
  destruct (tt_pending _ HT1 (ep_sessionKey q)) as [Hx _].
  destruct Hx as [h Hm]; [eexists; exact Hp1|].
  destruct (tt_debounce _ HT1 _ h Hm) as (d & Hd & _).
  split.
  { unfold end_flushes_debounce. intros (Hnone & _). congruence. }
  split; [exact Hl|].
  split; [intros P params; apply lsn_endMessageCaptureSuccess|].
  split; [intros P params; apply lsn_endMessageCaptureError|].
  split; [exists h, d; split; assumption|].
  split.
  { intros T Ha Hc.
    destruct (endTrajectory_active w q T Ha Hc) as (final & Hin & Hty & _ & _ & _ & _
                                                    & Hb & _).
    exists final. split; [|exact Hty].
    unfold outbox at 1. rewrite Hin, Hb, app_nil_r, concat_app. simpl.
    rewrite app_nil_r. unfold outbox. now rewrite app_assoc. }
  assert (Ha1 : activeTrajectories (traj (endTrajectory q w)) !! ep_sessionKey q = None).
  { rewrite endTrajectory_store. apply lookup_delete_eq. }
  destruct (settle_without_trajectory _ _ p HT1 Hp1 Ha1) as (Hs1 & _ & Hs3 & Hs4).
  split; [exact Hs1|]. unfold outbox. now rewrite Hs3, Hs4.
Qed.

(** ** The further properties at concrete inputs *)

Lemma world0_is_reachable : Reachable world0.
Proof.
  exists uuid0, iso0, 1700000000000, [OpInitMarloClient client0; OpStartEventListener].
  exact world0_reachable.
Qed.

Lemma worldS1_is_reachable : Reachable worldS1.
Proof.
  exists uuid0, iso0, 1700000000000,
    [OpInitMarloClient client0; OpStartEventListener; OpStartTrajectory startS1].
  exact worldS1_reachable.
Qed.

Lemma worldS1_streaming_is_reachable : Reachable worldS1_streaming.
Proof.
  exists uuid0, iso0, 1700000000000,
    [OpInitMarloClient client0; OpStartEventListener; OpStartTrajectory startS1;
     OpAgentEvent (assistantText "r1" "s1" "abc")].
  exact worldS1_streaming_reachable.
Qed.

Lemma worldS1_ended_is_reachable : Reachable worldS1_ended.
Proof.
  exists uuid0, iso0, 1700000000000,
    [OpInitMarloClient client0; OpStartEventListener; OpStartTrajectory startS1;
     OpEndTrajectory endS1].
  vm_compute. reflexivity.
Qed.

Lemma buffered_events_witness :
  Reachable worldS1 /\
  eventBuffer (traj worldS1) <> [] /\
  let w := worldS1 in
  exists h d,
    flushTimer (traj w) = Some h /\
    timers (host w) !! h = Some (mkTimer d CbFlushBuffer) /\
    d <= now (host w) + 5000 /\
    forall ms, 5000 <= Z.of_nat ms ->
      let w' := fireTimer h (tick ms w) in
      eventBuffer (traj w') = [] /\
      flushTimer (traj w') = None /\
      timers (host w') !! h = None /\
      (clientInstance w <> None ->
       ingestCalls (host w') = (ingestCalls (host w) ++ [eventBuffer (traj w)])%list).
Proof.
  assert (HR : Reachable worldS1) by exact worldS1_is_reachable.
  assert (Hne : eventBuffer (traj worldS1) <> []) by (vm_compute; discriminate).
  split; [exact HR|]. split; [exact Hne|].
  exact (buffered_events_are_flushed_in_time worldS1 HR Hne).
Defined.

Lemma module_timers_witness :
  Reachable worldS1_streaming /\
  timers (host worldS1_streaming) !! 1%nat
    = Some (mkTimer 1700000000100 (CbLLMDebounce "s1")) /\
  let w := worldS1_streaming in
  let h := 1%nat in
  let t := mkTimer 1700000000100 (CbLLMDebounce "s1") in
  (callback t = CbFlushBuffer ->
   flushTimer (traj w) = Some h /\ eventBuffer (traj w) <> [] /\
   due t <= now (host w) + 5000) /\
  (forall sk, callback t = CbLLMDebounce sk ->
   llmDebounceTimers (lsn w) !! sk = Some h /\
   is_Some (llmPendingData (lsn w) !! sk) /\
   due t <= now (host w) + 100).
Proof.
  assert (HR : Reachable worldS1_streaming) by exact worldS1_streaming_is_reachable.
  assert (Ht : timers (host worldS1_streaming) !! 1%nat
               = Some (mkTimer 1700000000100 (CbLLMDebounce "s1")))
    by (vm_compute; reflexivity).
  split; [exact HR|]. split; [exact Ht|].
  exact (module_timers_are_tracked worldS1_streaming 1 _ HR Ht).
Defined.

Lemma pending_text_witness :
  Reachable worldS1_streaming /\
  llmPendingData (lsn worldS1_streaming) !! "s1" = Some (mkPending "abc" None None) /\
  let w := worldS1_streaming in
  let sk := "s1" in
  let p := mkPending "abc" None None in
  exists h d,
    llmDebounceTimers (lsn w) !! sk = Some h /\
    timers (host w) !! h = Some (mkTimer d (CbLLMDebounce sk)) /\
    d <= now (host w) + 100 /\
    lastLLMTextBySession (lsn w) !! sk = Some (pendingText p) /\
    let w' := settle sk w in
    llmPendingData (lsn w') !! sk = None /\
    llmDebounceTimers (lsn w') !! sk = None /\
    timers (host w') !! h = None /\
    match activeTrajectories (traj w) !! sk with
    | Some T =>
        clientInstance w <> None ->
        exists e,
          outbox w' = (outbox w ++ [e])%list /\
          event_type e = llm_call /\
          run_id e = JStr (runId T) /\
          responseText e = Some (pendingText p)
    | None => traj w' = traj w /\ ingestCalls (host w') = ingestCalls (host w)
    end.
Proof.
  assert (HR : Reachable worldS1_streaming) by exact worldS1_streaming_is_reachable.
  assert (Hp : llmPendingData (lsn worldS1_streaming) !! "s1"
               = Some (mkPending "abc" None None)) by (vm_compute; reflexivity).
  split; [exact HR|]. split; [exact Hp|].
  exact (pending_text_is_settled_in_time worldS1_streaming "s1" _ HR Hp).
Defined.

Lemma batches_witness :
  Reachable worldS1_ended /\
  (length (eventBuffer (traj worldS1_ended)) < 100)%nat /\
  forall batch, In batch (ingestCalls (host worldS1_ended)) ->
    (1 <= length batch <= 100)%nat.
Proof.
  assert (HR : Reachable worldS1_ended) by exact worldS1_ended_is_reachable.
  split; [exact HR|].
  exact (batches_hold_between_1_and_100_events worldS1_ended HR).
Defined.

Lemma fresh_run_id_witness :
  Reachable worldS1 /\
  let w := worldS1 in
  let T := fst (startTrajectory startS1 w) in
  (forall sk t, activeTrajectories (traj w) !! sk = Some t -> runId t <> runId T) /\
  (forall e, In e (outbox w) -> run_id e <> JStr (runId T)).
Proof.
  assert (HR : Reachable worldS1) by exact worldS1_is_reachable.
  split; [exact HR|].
  exact (fresh_run_id_is_unused worldS1 startS1 HR).
Defined.

Lemma endTrajectory_hands_over_witness :
  activeTrajectories (traj worldS1) !! ep_sessionKey endS1
    = Some (fst (startTrajectory startS1 world0)) /\
  clientInstance worldS1 <> None /\
  let w := worldS1 in
  let q := endS1 in
  let T := fst (startTrajectory startS1 world0) in
  let w' := endTrajectory q w in
  exists final,
    ingestCalls (host w') =
      (ingestCalls (host w) ++ [eventBuffer (traj w) ++ [final]])%list /\
    event_type final = task_end /\
    run_id final = JStr (runId T) /\
    getField "status" (payload final) = JStr (statusName (ep_status q)) /\
    getField "final_answer" (payload final) = optStr (ep_finalAnswer q) /\
    getField "error" (payload final) = optStr (ep_error q) /\
    eventBuffer (traj w') = [] /\
    flushTimer (traj w') = None /\
    activeTrajectories (traj w') = delete (ep_sessionKey q) (activeTrajectories (traj w)).
Proof.
  assert (HT : activeTrajectories (traj worldS1) !! ep_sessionKey endS1
               = Some (fst (startTrajectory startS1 world0)))
    by (vm_compute; reflexivity).
  assert (Hc : clientInstance worldS1 <> None) by (vm_compute; discriminate).
  split; [exact HT|]. split; [exact Hc|].
  exact (endTrajectory_hands_over_the_buffer worldS1 endS1 _ HT Hc).
Defined.

Lemma tool_call_paired_witness :
  activeTrajectories (traj worldS1) !! "s1" = Some (fst (startTrajectory startS1 world0)) /\
  clientInstance worldS1 <> None /\
  d_name toolStartS1 = Some "search" /\ "search" <> "" /\
  d_phase toolStartS1 = Some "start" /\
  d_toolCallId toolStartS1 = Some "call-1" /\ "call-1" <> "" /\
  d_name toolResultS1 = Some "search" /\
  (d_phase toolResultS1 = Some "result" \/ d_phase toolResultS1 = Some "end") /\
  d_toolCallId toolResultS1 = Some "call-1" /\
  isTrue (d_isError toolResultS1) = false /\
  let w := worldS1 in
  let T := fst (startTrajectory startS1 world0) in
  let w1 := handleToolEvent "s1" toolStartS1 w in
  let w2 := handleToolEvent "s1" toolResultS1 (tick 50 w1) in
  outbox w1 = outbox w /\
  exists e,
    outbox w2 = (outbox w ++ [e])%list /\
    event_type e = tool_call /\
    run_id e = JStr (runId T) /\
    payload e = [("tool_name", JStr "search");
                 ("tool_input", coalesce (d_args toolStartS1) (JObj []));
                 ("tool_output", d_result toolResultS1);
                 ("error", JUndefined);
                 ("duration_ms", JNum (Z.of_nat 50))] /\
    toolStartTimes (lsn w2) !! "call-1" = None /\
    toolInputsById (lsn w2) !! "call-1" = None.
Proof.
  assert (HT : activeTrajectories (traj worldS1) !! "s1"
               = Some (fst (startTrajectory startS1 world0))) by (vm_compute; reflexivity).
  assert (Hc : clientInstance worldS1 <> None) by (vm_compute; discriminate).
  assert (Hn : "search" <> "") by discriminate.
  assert (Hi : "call-1" <> "") by discriminate.
  assert (Hp : d_phase toolResultS1 = Some "result" \/ d_phase toolResultS1 = Some "end")
    by (left; reflexivity).
  split; [exact HT|]. split; [exact Hc|]. split; [reflexivity|]. split; [exact Hn|].
  split; [reflexivity|]. split; [reflexivity|]. split; [exact Hi|].
  split; [reflexivity|]. split; [exact Hp|]. split; [reflexivity|].
  split; [reflexivity|].
  exact (tool_call_is_paired_with_its_start worldS1 "s1" _ toolStartS1 toolResultS1
           "search" "search" "call-1" 50 HT Hc eq_refl Hn eq_refl eq_refl Hi eq_refl Hn
           Hp eq_refl eq_refl).
Defined.

Lemma tool_call_without_start_witness :
  activeTrajectories (traj worldS1) !! "s1" = Some (fst (startTrajectory startS1 world0)) /\
  clientInstance worldS1 <> None /\
  d_name toolResultS1 = Some "search" /\ "search" <> "" /\
  terminalPhase (d_phase toolResultS1) /\
  (forall id, d_toolCallId toolResultS1 = Some id ->
     toolStartTimes (lsn worldS1) !! id = None /\
     toolInputsById (lsn worldS1) !! id = None) /\
  let w := worldS1 in
  let T := fst (startTrajectory startS1 world0) in
  let w' := handleToolEvent "s1" toolResultS1 w in
  exists e,
    outbox w' = (outbox w ++ [e])%list /\
    event_type e = tool_call /\
    run_id e = JStr (runId T) /\
    getField "tool_name" (payload e) = JStr "search" /\
    getField "tool_input" (payload e) = coalesce (d_args toolResultS1) (JObj []) /\
    getField "duration_ms" (payload e) = JUndefined /\
    lsn w' = lsn w.
Proof.
  assert (HT : activeTrajectories (traj worldS1) !! "s1"
               = Some (fst (startTrajectory startS1 world0))) by (vm_compute; reflexivity).
  assert (Hc : clientInstance worldS1 <> None) by (vm_compute; discriminate).
  assert (Hn : "search" <> "") by discriminate.
  assert (Hp : terminalPhase (d_phase toolResultS1)) by (vm_compute; tauto).
  assert (Hs : forall id, d_toolCallId toolResultS1 = Some id ->
                 toolStartTimes (lsn worldS1) !! id = None /\
                 toolInputsById (lsn worldS1) !! id = None).
  { intros id Hid. injection Hid as <-. split; vm_compute; reflexivity. }
  split; [exact HT|]. split; [exact Hc|]. split; [reflexivity|]. split; [exact Hn|].
  split; [exact Hp|]. split; [exact Hs|].
  exact (tool_call_without_start_has_no_duration worldS1 "s1" _ toolResultS1 "search"
           HT Hc eq_refl Hn Hp Hs).
Defined.

Lemma failed_tool_call_witness :
  activeTrajectories (traj worldS1) !! "s1" = Some (fst (startTrajectory startS1 world0)) /\
  clientInstance worldS1 <> None /\
  d_name toolErrorS1 = Some "search" /\ "search" <> "" /\
  terminalPhase (d_phase toolErrorS1) /\
  (d_phase toolErrorS1 = Some "error" \/ d_isError toolErrorS1 = JBool true) /\
  exists e,
    outbox (handleToolEvent "s1" toolErrorS1 worldS1) = (outbox worldS1 ++ [e])%list /\
    event_type e = tool_call /\
    getField "tool_output" (payload e) = JUndefined /\
    getField "error" (payload e) = JStr "timed out".
Proof.
  assert (HT : activeTrajectories (traj worldS1) !! "s1"
               = Some (fst (startTrajectory startS1 world0))) by (vm_compute; reflexivity).
  assert (Hc : clientInstance worldS1 <> None) by (vm_compute; discriminate).
  assert (Hn : "search" <> "") by discriminate.
  assert (Hp : terminalPhase (d_phase toolErrorS1)) by (vm_compute; tauto).
  assert (He : d_phase toolErrorS1 = Some "error" \/ d_isError toolErrorS1 = JBool true)
    by (left; reflexivity).
  split; [exact HT|]. split; [exact Hc|]. split; [reflexivity|]. split; [exact Hn|].
  split; [exact Hp|]. split; [exact He|].
  exact (failed_tool_call_has_an_error_and_no_output worldS1 "s1" _ toolErrorS1 "search"
           HT Hc eq_refl Hn Hp He).
Defined.

Lemma usage_signal_witness :
  activeTrajectories (traj worldS1) !! "s1" = Some (fst (startTrajectory startS1 world0)) /\
  clientInstance worldS1 <> None /\
  d_usage (assistantSignal None None (Some usageS1)) = Some usageS1 /\
  truthyNum (ud_inputTokens usageS1) || truthyNum (ud_outputTokens usageS1) = true /\
  let w := worldS1 in
  let T := fst (startTrajectory startS1 world0) in
  let w' := handleAssistantEvent "s1" (assistantSignal None None (Some usageS1)) w in
  lsn w' = lsn w /\
  exists e,
    outbox w' = (outbox w ++ [e])%list /\
    event_type e = llm_call /\
    run_id e = JStr (runId T) /\
    payload e =
      [("messages", JArr []);
       ("model_params", JObj [("model", JStr "m"); ("provider", JStr "p")]);
       ("response", JUndefined);
       ("usage", JObj [("input_tokens", JNum 12);
                       ("output_tokens", JNum 30);
                       ("reasoning_tokens", JUndefined);
                       ("total_tokens", JNum 42)]);
       ("reasoning", JUndefined);
       ("error", JUndefined)].
Proof.
  assert (HT : activeTrajectories (traj worldS1) !! "s1"
               = Some (fst (startTrajectory startS1 world0))) by (vm_compute; reflexivity).
  assert (Hc : clientInstance worldS1 <> None) by (vm_compute; discriminate).
  split; [exact HT|]. split; [exact Hc|]. split; [reflexivity|]. split; [reflexivity|].
  exact (usage_signal_is_logged_at_once worldS1 "s1" _
           (assistantSignal None None (Some usageS1)) usageS1 HT Hc eq_refl eq_refl).
Defined.

Lemma thinking_witness :
  activeTrajectories (traj worldS1) !! "s1" = Some (fst (startTrajectory startS1 world0)) /\
  clientInstance worldS1 <> None /\
  usageReported (d_usage (assistantSignal None (Some "hmm") None)) = false /\
  d_thinking (assistantSignal None (Some "hmm") None) = Some "hmm" /\ "hmm" <> "" /\
  let w := worldS1 in
  let T := fst (startTrajectory startS1 world0) in
  let w' := handleAssistantEvent "s1" (assistantSignal None (Some "hmm") None) w in
  lsn w' = lsn w /\
  exists e,
    outbox w' = (outbox w ++ [e])%list /\
    event_type e = llm_call /\
    run_id e = JStr (runId T) /\
    getField "reasoning" (payload e) = JObj [("thinking", JStr "hmm")] /\
    getField "response" (payload e) = JUndefined /\
    getField "usage" (payload e) = JUndefined.
Proof.
  assert (HT : activeTrajectories (traj worldS1) !! "s1"
               = Some (fst (startTrajectory startS1 world0))) by (vm_compute; reflexivity).
  assert (Hc : clientInstance worldS1 <> None) by (vm_compute; discriminate).
  assert (Hn : "hmm" <> "") by discriminate.
  split; [exact HT|]. split; [exact Hc|]. split; [reflexivity|]. split; [reflexivity|].
  split; [exact Hn|].
  exact (thinking_is_logged_only_without_text worldS1 "s1" _
           (assistantSignal None (Some "hmm") None) "hmm" HT Hc eq_refl eq_refl Hn).
Defined.

Lemma capture_hooks_witness :
  (isMarloEnabled platform0 (Some config0) = false \/
   clientInstance (initialWorld uuid0 iso0 1700000000000) = None) /\
  let P := platform0 in
  let config := Some config0 in
  let w := initialWorld uuid0 iso0 1700000000000 in
  (forall ctx, cx_config ctx = config ->
     startMessageCapture P ctx w = (w, CaptureReturned false)) /\
  (forall p, es_config p = config -> endMessageCaptureSuccess P p w = w) /\
  (forall p, ee_config p = config -> endMessageCaptureError P p w = w) /\
  (forall p, cl_config p = config -> captureAgentLLMCall P p w = w) /\
  (forall p, ct_config p = config -> captureAgentToolCall P p w = w).
Proof.
  assert (H : isMarloEnabled platform0 (Some config0) = false \/
              clientInstance (initialWorld uuid0 iso0 1700000000000) = None)
    by (right; reflexivity).
  split; [exact H|].
  exact (capture_hooks_do_nothing_unless_ready platform0 (Some config0) _ H).
Defined.

Lemma captures_awaiting_witness :
  startMessageCapture platform0 ctxS1_workspace world0
    = (world0, CaptureAwaitingSync "/work" None None) /\
  ep_sessionKey endS1 = cx_sessionKey ctxS1_workspace /\
  let ctx := ctxS1_workspace in
  let w := world0 in
  let agentId : option string := None in
  let q := endS1 in
  let sk := cx_sessionKey ctx in
  let w1 := fst (startMessageCapture_resume ctx agentId w) in
  let w2 := fst (startMessageCapture_resume ctx agentId w1) in
  snd (startMessageCapture_resume ctx agentId w) = true /\
  snd (startMessageCapture_resume ctx agentId w1) = true /\
  exists T1 T2 e1 e2 final,
    getActiveTrajectory sk w1 = Some T1 /\
    getActiveTrajectory sk w2 = Some T2 /\
    runId T1 <> runId T2 /\
    outbox w2 = (outbox w ++ [e1; e2])%list /\
    event_type e1 = task_start /\ run_id e1 = JStr (runId T1) /\
    event_type e2 = task_start /\ run_id e2 = JStr (runId T2) /\
    outbox (endTrajectory q w2) = (outbox w2 ++ [final])%list /\
    event_type final = task_end /\ run_id final = JStr (runId T2) /\
    hasActiveTrajectory sk (endTrajectory q w2) = false.
Proof.
  assert (H : startMessageCapture platform0 ctxS1_workspace world0
              = (world0, CaptureAwaitingSync "/work" None None))
    by (vm_compute; reflexivity).
  split; [exact H|]. split; [reflexivity|].
  exact (captures_awaiting_the_sync_both_start platform0 ctxS1_workspace world0
           "/work" None None endS1 H eq_refl).
Defined.

Lemma message_capture_witness :
  captureStarted platform0 ctxS1_workspace world0 (tick 250 world0)
    (captureStart ctxS1_workspace None (tick 250 world0)) /\
  clientInstance (tick 250 world0) <> None /\
  let P := platform0 in
  let ctx := ctxS1_workspace in
  let wb := tick 250 world0 in
  let w1 := captureStart ctxS1_workspace None (tick 250 world0) in
  let response := "done" in
  let sk := cx_sessionKey ctx in
  let w2 := endMessageCaptureSuccess P
              {| es_sessionKey := sk; es_response := response;
                 es_config := cx_config ctx |} w1 in
  exists first final,
    concat (ingestCalls (host w2)) = (outbox wb ++ [first; final])%list /\
    eventBuffer (traj w2) = [] /\
    event_type first = task_start /\
    getField "task" (payload first) = JStr (cx_body ctx) /\
    event_type final = task_end /\
    run_id final = run_id first /\
    getField "status" (payload final) = JStr "success" /\
    getField "final_answer" (payload final) = JStr response /\
    hasActiveTrajectory sk w2 = false.
Proof.
  assert (H : captureStarted platform0 ctxS1_workspace world0 (tick 250 world0)
                (captureStart ctxS1_workspace None (tick 250 world0)))
    by (unfold captureStarted; vm_compute; reflexivity).
  assert (Hc : clientInstance (tick 250 world0) <> None) by (vm_compute; discriminate).
  split; [exact H|]. split; [exact Hc|].
  exact (message_capture_round_trip platform0 ctxS1_workspace world0 (tick 250 world0) _
           "done" H Hc).
Defined.

Lemma capture_flags_witness :
  isMarloReady platform0 (Some config0) worldS1 = true /\
  let P := platform0 in
  let config := Some config0 in
  let w := worldS1 in
  let capture := opt mc_capture (opt cfg_marlo config) in
  (forall p T,
     cl_config p = config ->
     activeTrajectories (traj w) !! cl_sessionKey p = Some T ->
     let w' := captureAgentLLMCall P p w in
     match opt cc_llmCalls capture with
     | Some false => w' = w
     | _ =>
         exists e,
           outbox w' = (outbox w ++ [e])%list /\
           event_type e = llm_call /\
           run_id e = JStr (runId T) /\
           getField "response" (payload e) = optObj (cl_response p) /\
           getField "reasoning" (payload e) =
             match opt cc_reasoning capture with
             | Some false => JUndefined
             | _ => optObj (cl_reasoning p)
             end
     end) /\
  (forall p T,
     ct_config p = config ->
     activeTrajectories (traj w) !! ct_sessionKey p = Some T ->
     let w' := captureAgentToolCall P p w in
     match opt cc_tools capture with
     | Some false => w' = w
     | _ =>
         exists e,
           outbox w' = (outbox w ++ [e])%list /\
           event_type e = tool_call /\
           run_id e = JStr (runId T) /\
           getField "tool_name" (payload e) = JStr (ct_toolName p)
     end).
Proof.
  assert (H : isMarloReady platform0 (Some config0) worldS1 = true)
    by (vm_compute; reflexivity).
  split; [exact H|].
  exact (capture_flags_gate_the_hooks platform0 (Some config0) worldS1 H).
Defined.

Lemma shutdownMarlo_witness :
  Reachable (world appS1) /\
  let a := appS1 in
  let between1 := [OpIngestSettled (IngestThrew "HTTP 500"); OpLogToolCall searchCall] in
  let between2 : list Op := [] in
  let cache := learningCache appS1 in
  let w := world a in
  let w1 := world (fst (shutdownMarlo a)) in
  let a' := shutdownMarlo_run between1 between2 cache a in
  let w' := world a' in
  (lsn w1 = idleListener /\
   eventBuffer (traj w1) = [] /\
   flushTimer (traj w1) = None /\
   (forall h, flushTimer (traj w) = Some h -> timers (host w1) !! h = None) /\
   (forall sk h, llmDebounceTimers (lsn w) !! sk = Some h -> timers (host w1) !! h = None) /\
   ingestCalls (host w1) =
     match eventBuffer (traj w), clientInstance w with
     | _ :: _, Some _ => (ingestCalls (host w) ++ [eventBuffer (traj w)])%list
     | _, _ => ingestCalls (host w)
     end /\
   uuidCalls (host w1) = uuidCalls (host w) /\
   clientInstance w1 = clientInstance w /\
   activeTrajectories (traj w1) = activeTrajectories (traj w)) /\
  (isMarloActive w' = false /\
   learningCache a' = [] /\
   (between2 = [] -> activeTrajectories (traj w') = ∅)) /\
  ((forall P config, isMarloReady P config w' = false) /\
   (forall P ctx, startMessageCapture P ctx w' = (w', CaptureReturned false)) /\
   (forall e, handleAgentEvent e w' = w') /\
   eventBuffer (traj (fst (flushBuffer w'))) = [] /\
   ingestCalls (host (fst (flushBuffer w'))) = ingestCalls (host w')).
Proof.
  assert (HR : Reachable (world appS1)) by exact worldS1_streaming_is_reachable.
  split; [exact HR|].
  exact (shutdownMarlo_disconnects_under_any_schedule appS1
           [OpIngestSettled (IngestThrew "HTTP 500"); OpLogToolCall searchCall] []
           (learningCache appS1) HR).
Defined.

Lemma fetched_learnings_witness :
  (length (learningCache appS1) <= 100)%nat /\
  let a := appS1 in
  let key := "proj:moltbot" in
  let fetched := getActiveLearningsForPrompt (Some (mkLearningState [learningS1] None)) in
  let a1 := snd (getActiveLearnings_resume key fetched a) in
  fst (getActiveLearnings_resume key fetched a) = fetched /\
  world a1 = world a /\
  mapGet key (learningCache a1) =
    Some {| ce_learnings := fetched; ce_expiresAt := now (host (world a)) + 60000 |} /\
  (forall params a2,
    learningKeyOf (gl_agentId params) (gl_projectId params) = key ->
    mapGet key (learningCache a2) = mapGet key (learningCache a1) ->
    getActiveLearnings params a2 =
      if default false (gl_forceRefresh params)
         || (now (host (world a)) + 60000 <=? now (host (world a2)))
      then match clientInstance (world a2) with
           | Some _ => LearningsAwaiting key
           | None => LearningsReturned []
           end
      else LearningsReturned fetched) /\
  (forall agentId projectId a2,
    learningKeyOf agentId projectId <> key ->
    mapGet key (learningCache (invalidateLearningsCache agentId projectId a2))
      = mapGet key (learningCache a2)).
Proof.
  assert (H : (length (learningCache appS1) <= 100)%nat) by (simpl; lia).
  split; [exact H|].
  exact (fetched_learnings_are_served_for_a_minute appS1 "proj:moltbot"
           (Some (mkLearningState [learningS1] None)) H).
Defined.

Lemma learning_cache_eviction_witness :
  (length (learningCache appS1) <= 100)%nat /\
  Forall (fun k => k <> "") (map fst (learningCache appS1)) /\
  NoDup (map fst (learningCache appS1)) /\
  "proj:moltbot" <> "" /\
  let a := appS1 in
  let key := "proj:moltbot" in
  let fetched : list Learning := [] in
  let entry := {| ce_learnings := fetched;
                  ce_expiresAt := now (host (world a)) + 60000 |} in
  let a1 := snd (getActiveLearnings_resume key fetched a) in
  (length (learningCache a1) <= 100)%nat /\
  Forall (fun k => k <> "") (map fst (learningCache a1)) /\
  NoDup (map fst (learningCache a1)) /\
  learningCache a1 =
    match mapGet key (learningCache a) with
    | Some _ => mapSet key entry (learningCache a)
    | None =>
        if (length (learningCache a) =? 100)%nat
        then (tail (learningCache a) ++ [(key, entry)])%list
        else (learningCache a ++ [(key, entry)])%list
    end.
Proof.
  assert (Hl : (length (learningCache appS1) <= 100)%nat) by (simpl; lia).
  assert (Hk : Forall (fun k => k <> "") (map fst (learningCache appS1)))
    by (repeat constructor; discriminate).
  assert (Hn : NoDup (map fst (learningCache appS1)))
    by (simpl; apply NoDup_singleton).
  assert (Hkey : "proj:moltbot" <> "") by discriminate.
  split; [exact Hl|]. split; [exact Hk|]. split; [exact Hn|]. split; [exact Hkey|].
  exact (learning_cache_evicts_the_oldest_entry appS1 "proj:moltbot" [] Hl Hk Hn Hkey).
Defined.

Lemma invalidated_learnings_witness :
  NoDup (map fst (learningCache appS1)) /\
  let a := appS1 in
  let agentId : option string := None in
  let projectId : option string := None in
  let key := learningKeyOf agentId projectId in
  let a1 := invalidateLearningsCache agentId projectId a in
  world a1 = world a /\
  (forall force a2,
      learningCache a2 = learningCache a1 ->
      getActiveLearnings
        {| gl_agentId := agentId; gl_projectId := projectId;
           gl_forceRefresh := force |} a2 =
      match clientInstance (world a2) with
      | Some _ => LearningsAwaiting key
      | None => LearningsReturned []
      end) /\
  (forall params,
      learningKeyOf (gl_agentId params) (gl_projectId params) <> key ->
      getActiveLearnings params a1 = getActiveLearnings params a).
Proof.
  assert (Hn : NoDup (map fst (learningCache appS1)))
    by (simpl; apply NoDup_singleton).
  split; [exact Hn|].
  exact (invalidated_learnings_are_fetched_again appS1 None None Hn).
Defined.

Lemma channel_exclusion_witness :
  toLowerCase platform0 (toLowerCase platform0 "Signal") = toLowerCase platform0 "Signal" /\
  let P := platform0 in
  let config := Some config0 in
  let channel := "Signal" in
  let entries :=
    default [] (opt pc_excludeChannels (opt mc_privacy (opt cfg_marlo config))) in
  isChannelExcluded P (toLowerCase P channel) config = isChannelExcluded P channel config /\
  (isChannelExcluded P channel config = true <-> In (toLowerCase P channel) entries) /\
  (isChannelExcluded P channel config = true ->
   exists entry, In entry entries /\ toLowerCase P channel = entry /\
                 toLowerCase P entry = entry).
Proof.
  assert (H : toLowerCase platform0 (toLowerCase platform0 "Signal")
              = toLowerCase platform0 "Signal") by (vm_compute; reflexivity).
  split; [exact H|].
  exact (channel_exclusion_ignores_case_of_the_channel_only platform0 (Some config0)
           "Signal" H).
Defined.

Example signal_is_excluded_in_any_case :
  map (fun channel => isChannelExcluded platform0 channel (Some config0))
    ["signal"; "Signal"; "SIGNAL"; "Telegram"] = [true; true; true; false].
Proof. vm_compute. reflexivity. Qed.

Lemma trajectory_end_strands_witness :
  Reachable worldS1_streaming /\
  llmPendingData (lsn worldS1_streaming) !! ep_sessionKey endS1
    = Some (mkPending "abc" None None) /\
  let w := worldS1_streaming in
  let q := endS1 in
  let sk := ep_sessionKey q in
  let w1 := endTrajectory q w in
  let w2 := settle sk w1 in
  ~ end_flushes_debounce w q /\
  lsn w1 = lsn w /\
  (forall P params, lsn (endMessageCaptureSuccess P params w) = lsn w) /\
  (forall P params, lsn (endMessageCaptureError P params w) = lsn w) /\
  (exists h d,
     llmDebounceTimers (lsn w1) !! sk = Some h /\
     timers (host w1) !! h = Some (mkTimer d (CbLLMDebounce sk))) /\
  (forall T, activeTrajectories (traj w) !! sk = Some T -> clientInstance w <> None ->
     exists final,
       outbox w1 = (outbox w ++ [final])%list /\ event_type final = task_end) /\
  llmPendingData (lsn w2) !! sk = None /\
  outbox w2 = outbox w1.
Proof.
  assert (HR : Reachable worldS1_streaming) by exact worldS1_streaming_is_reachable.
  assert (Hp : llmPendingData (lsn worldS1_streaming) !! ep_sessionKey endS1
               = Some (mkPending "abc" None None)) by (vm_compute; reflexivity).
  split; [exact HR|]. split; [exact Hp|].
  exact (trajectory_end_strands_pending_text worldS1_streaming endS1 _ HR Hp).
Defined.

Example full_cache_drops_its_first_key :
  let entry := {| ce_learnings := []; ce_expiresAt := 0 |} in
  let full := map (fun n : nat => ("k" +:+ pretty n, entry)) (seq 0 100) in
  let a1 := snd (getActiveLearnings_resume "new" [learningS1] (mkApp world0 full)) in
  length (learningCache a1) = 100%nat /\
  map fst (learningCache a1)
    = (map (fun n : nat => "k" +:+ pretty n) (seq 1 99) ++ ["new"])%list.
Proof. vm_compute. split; reflexivity. Qed.
